(** * Locator synthesis of appium-mcp: a shallow embedding

    Sources embedded here:
    - [src/locators/source-parsing.ts]      (childNodesOf, the lookups by path, xmlToJSON)
    - [src/locators/element-filter.ts]      (shouldIncludeElement and its helpers)
    - [src/locators/locator-generation.ts]  (the strategy generators and the ranker)
    - [src/locators/generate-all-locators.ts] (the traversal)

    Two packages the code calls are not part of the repository:
    [@xmldom/xmldom] (the XML parser and the DOM) and [xpath] (the XPath 1.0
    engine).  The DOM is modelled by the inductive type [XMLNode]; the
    development starts from a parsed document, so the argument [sourceXML] of
    the source functions is represented by the document [xmlToDOM sourceXML]
    evaluates to.  What the parser does with the empty string or with markup
    that has no root element is not modelled: the type [XMLNode] has documents
    without an element, and the definitions follow the branches the source has
    for them, but whether [xmlToDOM] ever returns one is outside this
    development.  The XPath engine is a parameter of the generators; module
    [XPathEngine] gives an instance that evaluates exactly the expression
    shapes this code builds.

    Three things the JavaScript does behind the code are modelled where the
    code meets them: an element below a default namespace declaration is not
    selected by a name test ([namespaceURI], [XPathEngine.matches]); an
    assignment under the key __proto__ of a plain object stores nothing
    ([Js.assignProperty], used by xmlToJSON); and a read under a name that the
    caller supplies finds the properties of Object.prototype
    ([Js.truthyProperty], used by the requireAttributes filter). *)

From Stdlib Require Import String Ascii List Bool Arith ZArith Lia DecimalString.
Import ListNotations.
Open Scope string_scope.
Set Warnings "-register-all".

(* ------------------------------------------------------------------ *)
(** ** JavaScript values *)

Module Js.

(** The empty string literal. *)
Definition empty : string := EmptyString.

(** The double quote and the line feed, as characters and strings. *)
Definition dquoteChar : ascii := "034"%char.
Definition newlineChar : ascii := "010"%char.
Definition dquote : string := String dquoteChar EmptyString.

(** Truthiness of a string, and of a possibly [null]/[undefined] string. *)
Definition truthy (s : string) : bool :=
  match s with EmptyString => false | String _ _ => true end.

Definition truthyOpt (o : option string) : bool :=
  match o with Some s => truthy s | None => false end.

(** [x || ''] for a possibly undefined string. *)
Definition orEmpty (o : option string) : string :=
  match o with Some s => if truthy s then s else empty | None => empty end.

(** [x + s] where [x] is a string or [null]: [null] prints as "null". *)
Definition addOpt (x : option string) (s : string) : string :=
  match x with Some a => a ++ s | None => "null" ++ s end.

(** Decimal printing of a number inside a template literal. *)
Definition showZ (z : Z) : string := NilZero.string_of_int (Z.to_int z).

(** [haystack.includes(needle)] *)
Fixpoint includes (haystack needle : string) : bool :=
  prefix needle haystack ||
  match haystack with
  | EmptyString => false
  | String _ rest => includes rest needle
  end.

(** [s.replace(/QUOTE/g, '')] with QUOTE the double quote: all of them are removed. *)
Fixpoint stripQuotes (s : string) : string :=
  match s with
  | EmptyString => EmptyString
  | String c rest =>
      if Ascii.eqb c dquoteChar then stripQuotes rest
      else String c (stripQuotes rest)
  end.

(** [s.replace(/(\n)/gm, '\\n')]: every line feed becomes backslash, n. *)
Fixpoint escapeNewlines (s : string) : string :=
  match s with
  | EmptyString => EmptyString
  | String c rest =>
      if Ascii.eqb c newlineChar then String "\"%char (String "n"%char (escapeNewlines rest))
      else String c (escapeNewlines rest)
  end.

(** Does the character occur in the string? *)
Fixpoint hasChar (c : ascii) (s : string) : bool :=
  match s with
  | EmptyString => false
  | String d rest => Ascii.eqb d c || hasChar c rest
  end.

(** Exceptions the code can raise. *)
Inductive Error :=
| TypeError            (* a property read on undefined or null *)
| NoElementFound       (* new Error('No element found in document') *)
| XPathSyntaxError.    (* thrown by the XPath engine *)

(** A computation that returns or throws. *)
Inductive Exc (A : Type) :=
| Ok (a : A)
| Throw (e : Error).
Arguments Ok {A} a.
Arguments Throw {A} e.

Definition bind {A B} (m : Exc A) (f : A -> Exc B) : Exc B :=
  match m with Ok a => f a | Throw e => Throw e end.

(** A plain object with string keys, none of them integer-like: the keys keep
    their insertion order, an assignment to an existing key keeps its place. *)
Definition Obj (V : Type) := list (string * V).

Fixpoint get {V} (k : string) (o : Obj V) : option V :=
  match o with
  | [] => None
  | (k', v) :: rest => if k' =? k then Some v else get k rest
  end.

Fixpoint set {V} (k : string) (v : V) (o : Obj V) : Obj V :=
  match o with
  | [] => [(k, v)]
  | (k', v') :: rest => if k' =? k then (k', v) :: rest else (k', v') :: set k v rest
  end.

(** [Object.fromEntries(pairs)], and [{...a, ...b}]. *)
Definition assign {V} (a : Obj V) (pairs : list (string * V)) : Obj V :=
  fold_left (fun o kv => set (fst kv) (snd kv) o) pairs a.

Definition fromEntries {V} (pairs : list (string * V)) : Obj V := assign [] pairs.

(** [o[k] = v] for a string [v] and a key that is not known in advance.  On a
    plain object the key __proto__ names the accessor inherited from
    Object.prototype, and its setter ignores a value that is not an object:
    nothing is stored under it.  Every other key is set as usual. *)
Definition assignProperty (k v : string) (o : Obj string) : Obj string :=
  if k =? "__proto__" then o else set k v o.

(** The property names a plain object inherits from Object.prototype.  Each
    of them holds a function, and __proto__ the prototype itself, so reading
    any of them on an object that has no own property of that name gives a
    truthy value. *)
Definition objectPrototypeKeys : list string :=
  ["constructor"; "__defineGetter__"; "__defineSetter__"; "hasOwnProperty";
   "__lookupGetter__"; "__lookupSetter__"; "isPrototypeOf"; "propertyIsEnumerable";
   "toString"; "valueOf"; "__proto__"; "toLocaleString"].

(** Truthiness of [o[k]] for a key that is not known in advance: an own
    property counts by its value, any other key is looked up in
    Object.prototype. *)
Definition truthyProperty (k : string) (o : Obj string) : bool :=
  match get k o with
  | Some v => truthy v
  | None => existsb (fun inherited => inherited =? k) objectPrototypeKeys
  end.

(** [arr.indexOf(x)] as a number: -1 when absent. *)
Fixpoint indexOf {A} (eqb : A -> A -> bool) (x : A) (l : list A) : Z :=
  match l with
  | [] => (-1)%Z
  | y :: rest =>
      if eqb y x then 0%Z
      else let i := indexOf eqb x rest in
           if (i <? 0)%Z then (-1)%Z else (i + 1)%Z
  end.

End Js.

Abbreviation Exc := Js.Exc.
Abbreviation Ok := Js.Ok.
Abbreviation Throw := Js.Throw.

(* ------------------------------------------------------------------ *)
(** ** The DOM of @xmldom/xmldom *)

Module Dom.

(** A parsed document.  Only three kinds of node are told apart by the code:
    the document (nodeType 9, nodeName "#document"), elements (nodeType 1) and
    everything else (text, comments, ...), which carries its own nodeName and
    nodeType and has no children. *)
Inductive XMLNode :=
| DocumentNode (childNodes : list XMLNode)
| ElementNode (nodeName : string) (attributes : list (string * string))
              (childNodes : list XMLNode)
| CharacterData (nodeName : string) (nodeType : nat).

Definition nodeName (n : XMLNode) : string :=
  match n with
  | DocumentNode _ => "#document"
  | ElementNode t _ _ => t
  | CharacterData t _ => t
  end.

Definition nodeType (n : XMLNode) : nat :=
  match n with
  | DocumentNode _ => 9
  | ElementNode _ _ _ => 1
  | CharacterData _ ty => ty
  end.

Definition ELEMENT_NODE : nat := 1.

Definition childNodes (n : XMLNode) : list XMLNode :=
  match n with
  | DocumentNode cs => cs
  | ElementNode _ _ cs => cs
  | CharacterData _ _ => []
  end.

Definition isElement (n : XMLNode) : bool := Nat.eqb (nodeType n) ELEMENT_NODE.

(** [element.getAttribute(name)]: the value of the first attribute of that
    name; [None] is the null (or empty) answer for a missing one, and for a
    node that has no [getAttribute] at all. *)
Fixpoint lookupAttr (name : string) (attrs : list (string * string)) : option string :=
  match attrs with
  | [] => None
  | (k, v) :: rest => if k =? name then Some v else lookupAttr name rest
  end.

Definition getAttribute (n : XMLNode) (name : string) : option string :=
  match n with
  | ElementNode _ attrs _ => lookupAttr name attrs
  | _ => None
  end.

(** A reference to a node of a document is the node's position: the child
    indices from the node up to the document, innermost first.  [[]] is the
    document itself.  Two references are the same JavaScript object exactly
    when they are the same position. *)
Definition DomRef := list nat.

Definition refEqb (a b : DomRef) : bool := if list_eq_dec Nat.eq_dec a b then true else false.

Fixpoint nodeAt (doc : XMLNode) (r : DomRef) : option XMLNode :=
  match r with
  | [] => Some doc
  | i :: parent =>
      match nodeAt doc parent with
      | Some n => nth_error (childNodes n) i
      | None => None
      end
  end.

(** [node.parentNode]; the document has none. *)
Definition parentNode (r : DomRef) : option DomRef :=
  match r with
  | [] => None
  | _ :: parent => Some parent
  end.

(** The default namespace an element declares: the value of its [xmlns]
    attribute, which the parser keeps among the attributes. *)
Definition declaredNamespace (n : XMLNode) : option string :=
  match n with
  | ElementNode _ attrs _ => lookupAttr "xmlns" attrs
  | _ => None
  end.

(** [element.namespaceURI] of an element whose name has no prefix.  The parser
    resolves it from the nearest [xmlns] declaration on the element or above
    it.  The empty string stands for null: no declaration in scope, or a
    nearest declaration with an empty value, which undeclares the default
    namespace. *)
Fixpoint namespaceURI (doc : XMLNode) (r : DomRef) : string :=
  match nodeAt doc r with
  | None => EmptyString
  | Some n =>
      match declaredNamespace n with
      | Some uri => uri
      | None =>
          match r with
          | [] => EmptyString
          | _ :: parent => namespaceURI doc parent
          end
      end
  end.

(** The children of a node paired with their indices. *)
Definition indexed (cs : list XMLNode) : list (nat * XMLNode) :=
  combine (seq 0 (length cs)) cs.

(** References to the children of [r] that satisfy [p], in order. *)
Definition childRefsWhere (p : XMLNode -> bool) (doc : XMLNode) (r : DomRef) : list DomRef :=
  match nodeAt doc r with
  | Some n => map (fun ic => fst ic :: r) (filter (fun ic => p (snd ic)) (indexed (childNodes n)))
  | None => []
  end.

(** All nodes below [n] (not [n] itself) in document order, with their
    references; [r] is the reference of [n]. *)
Fixpoint descendants (r : DomRef) (n : XMLNode) : list (DomRef * XMLNode) :=
  let below :=
    fix go (i : nat) (cs : list XMLNode) : list (DomRef * XMLNode) :=
      match cs with
      | [] => []
      | c :: cs' => (((i :: r, c) :: descendants (i :: r) c) ++ go (S i) cs')%list
      end in
  match n with
  | DocumentNode cs => below 0 cs
  | ElementNode _ _ cs => below 0 cs
  | CharacterData _ _ => []
  end.

End Dom.

Import Dom.

(* ------------------------------------------------------------------ *)
(** ** The interface of the xpath package *)

Module XPath.

(** [XPath.select(expression, doc)] returns an array of nodes for an
    expression that denotes a node set, a string, number or boolean for any
    other expression, or throws when the expression does not parse. *)
Inductive Result :=
| NodeSet (nodes : list DomRef)
| NotNodeSet
| Throws.

Definition Engine := string -> XMLNode -> Result.

(** [Array.isArray(result) ? result : []] *)
Definition asArray (r : Result) : list DomRef :=
  match r with NodeSet l => l | _ => [] end.

End XPath.

(* ------------------------------------------------------------------ *)
(** ** An XPath engine for the expressions this code builds

    The expressions passed to [XPath.select] by the locator code have the shape
      //T   or   //T[@a1=Q v1 Q and ... and @ak=Q vk Q]
    with T a name or the star and Q the double quote.  The engine below reads
    exactly that shape, with names made of ASCII letters, digits, hyphen,
    underscore and dot (no namespace prefixes), and evaluates it the way
    XPath 1.0 does: the elements of the document, in document order, whose
    name passes the name test and that carry every listed attribute with the
    listed value.  A name test without a prefix selects only elements that are
    in no namespace, so it selects nothing below a default namespace
    declaration; the star selects every element.

    Any other string is outside the model and is reported as [Throws].  The
    xpath package reads more than this shape: a value holding a double quote
    can still give an expression it accepts.  Statements that evaluate
    expressions with this engine are therefore made for values without double
    quotes, or for the expression of [areAttrAndValueUnique], from which the
    code strips them. *)

Module XPathEngine.

Inductive NameTest :=
| AnyName
| Name (n : string).

Record Query := mkQuery { qTest : NameTest; qPreds : list (string * string) }.

Definition between (lo hi : nat) (c : ascii) : bool :=
  let n := nat_of_ascii c in (lo <=? n)%nat && (n <=? hi)%nat.

Definition isNameStartChar (c : ascii) : bool :=
  between 65 90 c || between 97 122 c || Ascii.eqb c "_"%char.

Definition isNameChar (c : ascii) : bool :=
  isNameStartChar c || between 48 57 c || Ascii.eqb c "-"%char || Ascii.eqb c "."%char.

Fixpoint allNameChars (s : string) : bool :=
  match s with
  | EmptyString => true
  | String c rest => isNameChar c && allNameChars rest
  end.

Definition validName (s : string) : bool :=
  match s with
  | EmptyString => false
  | String c rest => isNameStartChar c && allNameChars rest
  end.

(** The longest prefix made of name characters, and what follows it. *)
Fixpoint takeName (s : string) : string * string :=
  match s with
  | EmptyString => (EmptyString, EmptyString)
  | String c rest =>
      if isNameChar c then
        let (a, b) := takeName rest in (String c a, b)
      else (EmptyString, s)
  end.

(** The characters up to the closing double quote, and what follows it. *)
Fixpoint takeLiteral (s : string) : option (string * string) :=
  match s with
  | EmptyString => None
  | String c rest =>
      if Ascii.eqb c Js.dquoteChar then Some (EmptyString, rest)
      else match takeLiteral rest with
           | Some (a, b) => Some (String c a, b)
           | None => None
           end
  end.

Fixpoint stripPrefix (p s : string) : option string :=
  match p, s with
  | EmptyString, _ => Some s
  | String a p', String b s' => if Ascii.eqb a b then stripPrefix p' s' else None
  | String _ _, EmptyString => None
  end.

(** The predicate list, read after the opening bracket. *)
Fixpoint parsePreds (fuel : nat) (s : string) : option (list (string * string)) :=
  match fuel with
  | O => None
  | S fuel' =>
      match stripPrefix "@" s with
      | None => None
      | Some s1 =>
          let (a, s2) := takeName s1 in
          if validName a then
            match stripPrefix ("=" ++ Js.dquote) s2 with
            | None => None
            | Some s3 =>
                match takeLiteral s3 with
                | None => None
                | Some (v, s4) =>
                    if s4 =? "]" then Some [(a, v)]
                    else match stripPrefix " and " s4 with
                         | None => None
                         | Some s5 =>
                             match parsePreds fuel' s5 with
                             | Some ps => Some ((a, v) :: ps)
                             | None => None
                             end
                         end
                end
            end
          else None
      end
  end.

Definition parseAfterTest (t : NameTest) (s : string) : option Query :=
  match s with
  | EmptyString => Some (mkQuery t [])
  | String c rest =>
      if Ascii.eqb c "["%char then
        match parsePreds (String.length rest) rest with
        | Some ps => Some (mkQuery t ps)
        | None => None
        end
      else None
  end.

Definition parse (xpath : string) : option Query :=
  match stripPrefix "//" xpath with
  | None => None
  | Some s1 =>
      match stripPrefix "*" s1 with
      | Some s2 => parseAfterTest AnyName s2
      | None =>
          let (t, s2) := takeName s1 in
          if validName t then parseAfterTest (Name t) s2 else None
      end
  end.

(** [@a=Q v Q] holds on an element when one of its attributes is named [a]
    and has the value [v]. *)
Definition hasAttr (a v : string) (attrs : list (string * string)) : bool :=
  existsb (fun kv => (fst kv =? a) && (snd kv =? v)) attrs.

(** Whether the element [n], whose namespaceURI is [uri], passes the name
    test and the attribute tests of [q]. *)
Definition matches (q : Query) (uri : string) (n : XMLNode) : bool :=
  match n with
  | ElementNode tag attrs _ =>
      match qTest q with
      | AnyName => true
      | Name t => negb (Js.truthy uri) && (tag =? t)
      end
      && forallb (fun av => hasAttr (fst av) (snd av) attrs) (qPreds q)
  | _ => false
  end.

Definition eval (q : Query) (doc : XMLNode) : list DomRef :=
  map fst (filter (fun rn => matches q (namespaceURI doc (fst rn)) (snd rn))
                  (descendants [] doc)).

Definition select : XPath.Engine := fun xpath doc =>
  match parse xpath with
  | Some q => XPath.NodeSet (eval q doc)
  | None => XPath.Throws
  end.

(** The elements of the document that carry attribute [a] with value [v]. *)
Definition elementsWithAttr (a v : string) (doc : XMLNode) : list DomRef :=
  eval (mkQuery AnyName [(a, v)]) doc.

End XPathEngine.

(* ------------------------------------------------------------------ *)
(** ** locator-generation.ts *)

Definition UNIQUE_XPATH_ATTRIBUTES : list string :=
  ["name"; "content-desc"; "id"; "resource-id"; "accessibility-id"].

Definition MAYBE_UNIQUE_XPATH_ATTRIBUTES : list string := ["label"; "text"; "value"].

Definition CHECKED_CLASS_CHAIN_ATTRIBUTES : list string := ["name"; "label"; "value"].

Definition CHECKED_PREDICATE_ATTRIBUTES : list string := ["name"; "label"; "value"; "type"].

Definition CHECKED_UIAUTOMATOR_ATTRIBUTES : list (string * string) :=
  [("resource-id", "resourceId"); ("text", "text");
   ("content-desc", "description"); ("class", "className")].

Definition SIMPLE_STRATEGY_MAPPINGS : list (string * string) :=
  [("name", "accessibility id"); ("content-desc", "accessibility id");
   ("id", "id"); ("rntestid", "id"); ("resource-id", "id");
   ("class", "class name"); ("type", "class name")].

(** What [log.error] records. *)
Inductive LogEntry :=
| LocatorError (strategy : string) (e : Js.Error)
| ElementError (path : list nat) (e : Js.Error).

Definition Log := list LogEntry.

(** Properties of the node a reference points to.  A reference that points
    nowhere stands for [undefined]; the callers test for it before they read
    a property. *)
Definition nameOf (doc : XMLNode) (r : DomRef) : string :=
  match nodeAt doc r with Some n => nodeName n | None => EmptyString end.

Definition attributeOf (doc : XMLNode) (r : DomRef) (name : string) : option string :=
  match nodeAt doc r with Some n => getAttribute n name | None => None end.

(** [childNodesOf(domNode)] of source-parsing.ts: the element children; the
    empty list for [undefined] and for a node without children. *)
Definition childNodesOf (doc : XMLNode) (domNode : option DomRef) : list DomRef :=
  match domNode with
  | Some r => childRefsWhere (fun c => Nat.eqb (nodeType c) ELEMENT_NODE) doc r
  | None => []
  end.

(** [findDOMNodeByPath(path, sourceDoc)].  A path is the list of the indices
    its dot-separated string holds; the empty list is the empty string, the
    path of the root of the JSON tree.  Splitting the empty string gives one
    empty segment, which parseInt reads as NaN, so that the lookup yields
    [undefined].  [documentElement] is the first element child of the
    document, hence the alternative of the source's [||] never finds an
    element when [childNodesOf(sourceDoc)] is empty. *)
Definition findDOMNodeByPath (path : list nat) (sourceDoc : XMLNode) : Exc (option DomRef) :=
  match childNodesOf sourceDoc (Some []) with
  | [] => Throw Js.NoElementFound
  | first :: _ =>
      match path with
      | [] => Ok None
      | _ => Ok (fold_left (fun selectedElement index =>
                   nth_error (childNodesOf sourceDoc selectedElement) index)
                 path (Some first))
      end
  end.

(** The attribute lists [getUniqueXPath] is called with: names, or pairs of
    names.  The empty list asks for the node name alone. *)
Inductive Attrs :=
| Names (l : list string)
| NamePairs (l : list (string * string)).

Definition attrsLength (a : Attrs) : nat :=
  match a with Names l => length l | NamePairs l => length l end.

(** One entry of such a list. *)
Inductive AttrKey :=
| One (a : string)
| Two (a1 a2 : string).

Definition attrKeys (a : Attrs) : list AttrKey :=
  match a with
  | Names l => map One l
  | NamePairs l => map (fun p => Two (fst p) (snd p)) l
  end.

(** [attrsForPairs.flatMap((v1, i) => attrsForPairs.slice(i + 1).map(v2 => [v1, v2]))] *)
Fixpoint pairsOf (l : list string) : list (string * string) :=
  match l with
  | [] => []
  | v1 :: rest => (map (fun v2 => (v1, v2)) rest ++ pairsOf rest)%list
  end.

Definition attrTest (a v : string) : string :=
  "@" ++ a ++ "=" ++ Js.dquote ++ v ++ Js.dquote.

Section Generators.

Variable xpathSelect : XPath.Engine.

(** [areAttrAndValueUnique].  [None] is a missing document; lodash's isEmpty is
    false on a parsed document, which has own properties. *)
Definition areAttrAndValueUnique (attrName attrValue : string)
    (sourceDoc : option XMLNode) : Exc bool :=
  match sourceDoc with
  | None => Ok true
  | Some doc =>
      match xpathSelect ("//*[" ++ attrTest attrName (Js.stripQuotes attrValue) ++ "]") doc with
      | XPath.NodeSet result => Ok (length result <? 2)%nat
      | XPath.NotNodeSet => Ok false
      | XPath.Throws => Throw Js.XPathSyntaxError
      end
  end.

(** The loop of [getSimpleSuggestedLocators] over the remaining mappings. *)
Fixpoint simpleLocatorsLoop (mappings : list (string * string))
    (attributes : Js.Obj string) (sourceDoc : option XMLNode) (isNative : bool)
    (res : Js.Obj string) : Exc (Js.Obj string) :=
  match mappings with
  | [] => Ok res
  | (strategyAlias, strategy) :: rest =>
      if negb ((strategy =? "accessibility id") && negb isNative) then
        match Js.get strategyAlias attributes with
        | Some value =>
            if Js.truthy value then
              Js.bind (areAttrAndValueUnique strategyAlias value sourceDoc) (fun unique =>
                simpleLocatorsLoop rest attributes sourceDoc isNative
                  (if unique then Js.set strategy value res else res))
            else simpleLocatorsLoop rest attributes sourceDoc isNative res
        | None => simpleLocatorsLoop rest attributes sourceDoc isNative res
        end
      else simpleLocatorsLoop rest attributes sourceDoc isNative res
  end.

Definition getSimpleSuggestedLocators (attributes : Js.Obj string)
    (sourceDoc : option XMLNode) (isNative : bool) : Exc (Js.Obj string) :=
  simpleLocatorsLoop SIMPLE_STRATEGY_MAPPINGS attributes sourceDoc isNative [].

(** [determineXpathUniqueness]: [(true, None)] is [[true]], [(false, Some i)]
    is [[false, i]] and [(false, None)] is [[false]]. *)
Definition determineXpathUniqueness (xpath : string) (doc : XMLNode)
    (domNode : DomRef) : bool * option Z :=
  match xpathSelect xpath doc with
  | XPath.Throws => (false, None)
  | result =>
      let othersWithAttr := XPath.asArray result in
      if (1 <? length othersWithAttr)%nat
      then (false, Some (Js.indexOf refEqb domNode othersWithAttr))
      else (true, None)
  end.

(** The expression [getUniqueXPath] builds for one entry of its list, or
    [None] where the loop moves on because an attribute is missing or empty. *)
Definition xpathForKey (doc : XMLNode) (domNode : DomRef) (k : AttrKey) : option string :=
  let tagForXpath := if Js.truthy (nameOf doc domNode) then nameOf doc domNode else "*" in
  match k with
  | Two attr1Name attr2Name =>
      match attributeOf doc domNode attr1Name, attributeOf doc domNode attr2Name with
      | Some attr1Value, Some attr2Value =>
          if Js.truthy attr1Value && Js.truthy attr2Value then
            Some ("//" ++ tagForXpath ++ "[" ++ attrTest attr1Name attr1Value
                    ++ " and " ++ attrTest attr2Name attr2Value ++ "]")
          else None
      | _, _ => None
      end
  | One attrName =>
      match attributeOf doc domNode attrName with
      | Some attrValue =>
          if Js.truthy attrValue then
            Some ("//" ++ tagForXpath ++ "[" ++ attrTest attrName attrValue ++ "]")
          else None
      | None => None
      end
  end.

Definition semiUniqueForm (xpath : string) (indexIfNotUnique : Z) : string :=
  "(" ++ xpath ++ ")[" ++ Js.showZ (indexIfNotUnique + 1) ++ "]".

(** The loop of [getUniqueXPath]: the pair (uniqueXpath, semiUniqueXpath) it
    ends with.  It stops at the first unique expression. *)
Fixpoint uniqueXPathLoop (doc : XMLNode) (domNode : DomRef) (keys : list AttrKey)
    (semiUniqueXpath : option string) : option string * option string :=
  match keys with
  | [] => (None, semiUniqueXpath)
  | k :: rest =>
      match xpathForKey doc domNode k with
      | None => uniqueXPathLoop doc domNode rest semiUniqueXpath
      | Some xpath =>
          match determineXpathUniqueness xpath doc domNode with
          | (true, _) => (Some xpath, semiUniqueXpath)
          | (false, indexIfNotUnique) =>
              uniqueXPathLoop doc domNode rest
                (match semiUniqueXpath, indexIfNotUnique with
                 | None, Some i => Some (semiUniqueForm xpath i)
                 | _, _ => semiUniqueXpath
                 end)
          end
      end
  end.

(** [getUniqueXPath]: the expression and the isFullyUnique flag
    ([None] is undefined). *)
Definition getUniqueXPath (doc : XMLNode) (domNode : DomRef) (attrs : Attrs)
    : option string * option bool :=
  if Nat.eqb (attrsLength attrs) 0 then
    let xpath := "//" ++ nameOf doc domNode in
    if fst (determineXpathUniqueness xpath doc domNode) then
      match parentNode domNode with
      | Some p =>
          if Js.truthy (nameOf doc p) then (Some xpath, Some true)
          else (Some ("/" ++ nameOf doc domNode), Some true)
      | None => (Some ("/" ++ nameOf doc domNode), Some true)
      end
    else (None, None)
  else
    match uniqueXPathLoop doc domNode (attrKeys attrs) None with
    | (Some uniqueXpath, _) => (Some uniqueXpath, Some true)
    | (None, Some semiUniqueXpath) => (Some semiUniqueXpath, Some false)
    | (None, None) => (None, None)
    end.

(** The cases of [getOptimalXPath], in order. *)
Definition xpathCases : list Attrs :=
  [ Names UNIQUE_XPATH_ATTRIBUTES;
    NamePairs (pairsOf (UNIQUE_XPATH_ATTRIBUTES ++ MAYBE_UNIQUE_XPATH_ATTRIBUTES)%list);
    Names MAYBE_UNIQUE_XPATH_ATTRIBUTES;
    Names [] ].

(** The loop over the cases: [inl x] when it returns [x] from inside the loop,
    [inr semi] when it runs to its end with that semi-unique expression. *)
Fixpoint casesLoop (doc : XMLNode) (domNode : DomRef) (cases : list Attrs)
    (semiUniqueXpath : option string) : string + option string :=
  match cases with
  | [] => inr semiUniqueXpath
  | attrs :: rest =>
      match getUniqueXPath doc domNode attrs with
      | (Some xpath, Some true) => inl xpath
      | (xpath, _) =>
          casesLoop doc domNode rest
            (match semiUniqueXpath with
             | None => if Js.truthyOpt xpath then xpath else None
             | Some _ => semiUniqueXpath
             end)
      end
  end.

(** The siblings of the node that are elements of the same name. *)
Definition sameNameSiblings (doc : XMLNode) (domNode parent : DomRef) : list DomRef :=
  childRefsWhere (fun childNode =>
      Nat.eqb (nodeType childNode) 1 && (nodeName childNode =? nameOf doc domNode))
    doc parent.

(** The last step of the hierarchical expression: the node's name, with its
    position among the same-name siblings when there are several. *)
Definition hierarchicalStep (doc : XMLNode) (domNode : DomRef) : string :=
  let xpath := "/" ++ nameOf doc domNode in
  match parentNode domNode with
  | Some parent =>
      let childNodes := sameNameSiblings doc domNode parent in
      if (1 <? length childNodes)%nat
      then xpath ++ "[" ++ Js.showZ (Js.indexOf refEqb domNode childNodes + 1) ++ "]"
      else xpath
  | None => xpath
  end.

(** [getOptimalXPath] on a node of the document.  Reading a property of
    [undefined] throws a TypeError, which the function's own catch logs and
    turns into [null]; the caller one level down then concatenates [null]. *)
Fixpoint getOptimalXPathAt (doc : XMLNode) (domNode : DomRef) : option string * Log :=
  match nodeAt doc domNode with
  | None => (None, [LocatorError "XPath" Js.TypeError])
  | Some n =>
      if negb (Js.truthy (nodeName n)) || negb (Nat.eqb (nodeType n) 1) then (Some Js.empty, [])
      else
        match casesLoop doc domNode xpathCases None with
        | inl xpath => (Some xpath, [])
        | inr (Some semiUniqueXpath) => (Some semiUniqueXpath, [])
        | inr None =>
            let xpath := hierarchicalStep doc domNode in
            match domNode with
            | _ :: parent =>
                let (above, log) := getOptimalXPathAt doc parent in
                (Some (Js.addOpt above xpath), log)
            | [] =>
                (Some (Js.addOpt None xpath), [LocatorError "XPath" Js.TypeError])
            end
        end
  end.

Definition getOptimalXPath (doc : XMLNode) (domNode : option DomRef) : option string * Log :=
  match domNode with
  | Some r => getOptimalXPathAt doc r
  | None => (None, [LocatorError "XPath" Js.TypeError])
  end.

(** The attribute loop of [getOptimalClassChain]. *)
Fixpoint classChainLoop (doc : XMLNode) (domNode : DomRef) (attrs : list string)
    : option string :=
  match attrs with
  | [] => None
  | attrName :: rest =>
      match attributeOf doc domNode attrName with
      | Some attrValue =>
          if Js.truthy attrValue then
            let tag := if Js.truthy (nameOf doc domNode) then nameOf doc domNode else "*" in
            let xpath := "//" ++ tag ++ "[" ++ attrTest attrName attrValue ++ "]" in
            let classChain :=
              "/" ++ tag ++ "[`" ++ attrName ++ " == " ++ Js.dquote ++ attrValue
                  ++ Js.dquote ++ "`]" in
            match xpathSelect xpath doc with
            | XPath.Throws => classChainLoop doc domNode rest
            | result =>
                let othersWithAttr := XPath.asArray result in
                if (1 <? length othersWithAttr)%nat
                then Some (classChain ++ "["
                             ++ Js.showZ (Js.indexOf refEqb domNode othersWithAttr + 1) ++ "]")
                else Some classChain
            end
          else classChainLoop doc domNode rest
      | None => classChainLoop doc domNode rest
      end
  end.

Fixpoint getOptimalClassChainAt (doc : XMLNode) (domNode : DomRef) : option string * Log :=
  match nodeAt doc domNode with
  | None => (None, [LocatorError "class chain" Js.TypeError])
  | Some n =>
      if negb (Js.truthy (nodeName n)) || negb (Nat.eqb (nodeType n) 1)
         || (nodeName n =? "XCUIElementTypeApplication")
      then (Some Js.empty, [])
      else
        match classChainLoop doc domNode CHECKED_CLASS_CHAIN_ATTRIBUTES with
        | Some classChain => (Some classChain, [])
        | None =>
            let classChain := hierarchicalStep doc domNode in
            match domNode with
            | _ :: parent =>
                let (above, log) := getOptimalClassChainAt doc parent in
                (Some (Js.addOpt above classChain), log)
            | [] =>
                (Some (Js.addOpt None classChain), [LocatorError "class chain" Js.TypeError])
            end
        end
  end.

Definition getOptimalClassChain (doc : XMLNode) (domNode : option DomRef)
    : option string * Log :=
  match domNode with
  | Some r => getOptimalClassChainAt doc r
  | None => (None, [LocatorError "class chain" Js.TypeError])
  end.

(** The attribute loop of [getOptimalPredicateString], with its two arrays. *)
Fixpoint predicateLoop (doc : XMLNode) (domNode : DomRef) (attrs : list string)
    (xpathAttributes predicateString : list string) : option string :=
  match attrs with
  | [] => None
  | attrName :: rest =>
      match attributeOf doc domNode attrName with
      | Some attrValue =>
          if Js.truthy attrValue then
            let xpathAttributes' := app xpathAttributes [attrTest attrName attrValue] in
            let xpath := "//*[" ++ String.concat " and " xpathAttributes' ++ "]" in
            let predicateString' :=
              app predicateString
                  [attrName ++ " == " ++ Js.dquote ++ attrValue ++ Js.dquote] in
            match xpathSelect xpath doc with
            | XPath.Throws => predicateLoop doc domNode rest xpathAttributes' predicateString'
            | result =>
                if Nat.eqb (length (XPath.asArray result)) 1
                then Some (String.concat " AND " predicateString')
                else predicateLoop doc domNode rest xpathAttributes' predicateString'
            end
          else predicateLoop doc domNode rest xpathAttributes predicateString
      | None => predicateLoop doc domNode rest xpathAttributes predicateString
      end
  end.

Definition getOptimalPredicateString (doc : XMLNode) (domNode : option DomRef)
    : option string * Log :=
  match domNode with
  | None => (None, [LocatorError "predicate string" Js.TypeError])
  | Some r =>
      match nodeAt doc r with
      | None => (None, [LocatorError "predicate string" Js.TypeError])
      | Some n =>
          if negb (Js.truthy (nodeName n)) || negb (Nat.eqb (nodeType n) 1)
          then (Some Js.empty, [])
          else (predicateLoop doc r CHECKED_PREDICATE_ATTRIBUTES [] [], [])
      end
  end.

(** The attribute loop of [getOptimalUiAutomatorSelector]; at its end the
    function returns mostUniqueSelector, or null when there is none. *)
Fixpoint uiAutomatorLoop (newDoc : XMLNode) (newDomNode : DomRef)
    (attrs : list (string * string)) (othersWithAttrMinCount : option nat)
    (mostUniqueSelector : option string) : option string :=
  match attrs with
  | [] => mostUniqueSelector
  | (attrName, attrTranslation) :: rest =>
      match attributeOf newDoc newDomNode attrName with
      | Some attrValue =>
          if Js.truthy attrValue then
            let xpath :=
              "//" ++ nameOf newDoc newDomNode ++ "[" ++ attrTest attrName attrValue ++ "]" in
            let uiSelector :=
              "new UiSelector()." ++ attrTranslation ++ "(" ++ Js.dquote ++ attrValue
                ++ Js.dquote ++ ")" in
            match xpathSelect xpath newDoc with
            | XPath.Throws =>
                uiAutomatorLoop newDoc newDomNode rest othersWithAttrMinCount mostUniqueSelector
            | result =>
                let othersWithAttr := XPath.asArray result in
                if Nat.eqb (length othersWithAttr) 1 then Some uiSelector
                else if match othersWithAttrMinCount with
                        | None => true
                        | Some m => Nat.eqb m 0 || (length othersWithAttr <? m)%nat
                        end
                then uiAutomatorLoop newDoc newDomNode rest (Some (length othersWithAttr))
                       (Some (uiSelector ++ ".instance("
                                ++ Js.showZ (Js.indexOf refEqb newDomNode othersWithAttr) ++ ")"))
                else uiAutomatorLoop newDoc newDomNode rest othersWithAttrMinCount
                       mostUniqueSelector
            end
          else uiAutomatorLoop newDoc newDomNode rest othersWithAttrMinCount mostUniqueSelector
      | None => uiAutomatorLoop newDoc newDomNode rest othersWithAttrMinCount mostUniqueSelector
      end
  end.

(** The element children of the hierarchy: of the first element child of the
    document. *)
Definition hierarchyChildrenOf (doc : XMLNode) : list DomRef :=
  match childNodesOf doc (Some []) with
  | [] => []
  | first :: _ => childNodesOf doc (Some first)
  end.

(** The document [xmlToDOM('<dummy>' + domToXML(child) + '</dummy>')]:
    serialising a subtree and parsing it again gives the same subtree. *)
Definition dummyDocument (child : XMLNode) : XMLNode :=
  DocumentNode [ElementNode "dummy" [] [child]].

(** [getOptimalUiAutomatorSelector].  The first segment of the path is
    compared with the index of the last child as strings; both are decimal
    numerals, or the first segment is the empty string when the path is. *)
Definition getOptimalUiAutomatorSelector (doc : XMLNode) (domNode : option DomRef)
    (path : list nat) : option string * Log :=
  let failed e := (None, [LocatorError "uiautomator selector" e]) in
  match domNode with
  | None => failed Js.TypeError
  | Some r =>
      match nodeAt doc r with
      | None => failed Js.TypeError
      | Some n =>
          if negb (Js.truthy (nodeName n)) || negb (Nat.eqb (nodeType n) 1)
          then (Some Js.empty, [])
          else
            let hierarchyChildren := hierarchyChildrenOf doc in
            match hierarchyChildren with
            | [] => (None, [])
            | _ :: _ =>
                let lastHierarchyChildIndex := length hierarchyChildren - 1 in
                if match path with
                   | [] => false
                   | requestedHierarchyChildIndex :: _ =>
                       Nat.eqb requestedHierarchyChildIndex lastHierarchyChildIndex
                   end
                then
                  match nth_error hierarchyChildren lastHierarchyChildIndex with
                  | None => failed Js.TypeError
                  | Some lastRef =>
                      match nodeAt doc lastRef with
                      | None => failed Js.TypeError
                      | Some lastHierarchyChild =>
                          let newDoc := dummyDocument lastHierarchyChild in
                          let newPath := 0 :: tl path in
                          match findDOMNodeByPath newPath newDoc with
                          | Throw e => failed e
                          | Ok None => failed Js.TypeError
                          | Ok (Some newDomNode) =>
                              (uiAutomatorLoop newDoc newDomNode
                                 CHECKED_UIAUTOMATOR_ATTRIBUTES None None, [])
                          end
                      end
                  end
                else (None, [])
            end
      end
  end.

(** [_.omitBy(complexLocators, _.isNil)] *)
Fixpoint omitNil (o : Js.Obj (option string)) : Js.Obj string :=
  match o with
  | [] => []
  | (k, Some v) :: rest => (k, v) :: omitNil rest
  | (_, None) :: rest => omitNil rest
  end.

Definition isPredicatePlatform (isNative : bool) (automationName : string) : bool :=
  isNative && ((automationName =? "xcuitest") || (automationName =? "mac2")).

(** [getComplexSuggestedLocators] *)
Definition getComplexSuggestedLocators (path : list nat) (sourceDoc : XMLNode)
    (isNative : bool) (automationName : string) : Exc (Js.Obj string * Log) :=
  Js.bind (findDOMNodeByPath path sourceDoc) (fun domNode =>
    let '(complexLocators, log1) :=
      if isNative then
        if (automationName =? "xcuitest") || (automationName =? "mac2") then
          let (optimalClassChain, lc) := getOptimalClassChain sourceDoc domNode in
          let (predicate, lp) := getOptimalPredicateString sourceDoc domNode in
          (Js.set "-ios predicate string" predicate
             (Js.set "-ios class chain"
                (match optimalClassChain with
                 | Some c => if Js.truthy c then Some ("**" ++ c) else None
                 | None => None
                 end) []),
           app lc lp)
        else if automationName =? "uiautomator2" then
          let (selector, lu) := getOptimalUiAutomatorSelector sourceDoc domNode path in
          (Js.set "-android uiautomator" selector [], lu)
        else ([], [])
      else ([], []) in
    let (xpath, lx) := getOptimalXPath sourceDoc domNode in
    Ok (omitNil (Js.set "xpath" xpath complexLocators), app log1 lx)).

(** source-parsing.ts: an element of the JSON tree. *)
Inductive JSONElement :=
| mkJSONElement (children : list JSONElement) (tagName : string)
                (attributes : Js.Obj string) (path : list nat).

Definition children (e : JSONElement) : list JSONElement :=
  match e with mkJSONElement c _ _ _ => c end.
Definition tagName (e : JSONElement) : string :=
  match e with mkJSONElement _ t _ _ => t end.
Definition attributes (e : JSONElement) : Js.Obj string :=
  match e with mkJSONElement _ _ a _ => a end.
Definition path (e : JSONElement) : list nat :=
  match e with mkJSONElement _ _ _ p => p end.

Definition iosPriorityOrder : list string :=
  ["id"; "accessibility id"; "-ios predicate string"; "-ios class chain"; "xpath";
   "class name"].

Definition androidPriorityOrder : list string :=
  ["id"; "accessibility id"; "xpath"; "-android uiautomator"; "class name"].

Definition defaultPriorityOrder : list string := ["id"; "class name"; "xpath"].

Definition priorityOrderFor (isNative : bool) (automationName : string) : list string :=
  if isNative && ((automationName =? "xcuitest") || (automationName =? "mac2"))
  then iosPriorityOrder
  else if isNative && (automationName =? "uiautomator2") then androidPriorityOrder
  else defaultPriorityOrder.

Definition includesStr (l : list string) (s : string) : bool :=
  existsb (fun x => x =? s) l.

(** The two loops of [getSuggestedLocators] that fill sortedLocators. *)
Definition sortLocators (priorityOrder : list string) (allLocators : Js.Obj string)
    : list (string * string) :=
  app
    (flat_map (fun strategy =>
       match Js.get strategy allLocators with
       | Some value => if Js.truthy value then [(strategy, value)] else []
       | None => []
       end) priorityOrder)
    (filter (fun sv => negb (includesStr priorityOrder (fst sv))) allLocators).

(** [getSuggestedLocators]; the closing filter of the source keeps every pair,
    all of them being pairs of strings. *)
Definition getSuggestedLocators (selectedElement : JSONElement) (sourceDoc : XMLNode)
    (isNative : bool) (automationName : string) : Exc (list (string * string) * Log) :=
  Js.bind (getSimpleSuggestedLocators (attributes selectedElement) (Some sourceDoc) isNative)
    (fun simpleLocators =>
  Js.bind (getComplexSuggestedLocators (path selectedElement) sourceDoc isNative automationName)
    (fun complex =>
       let allLocators := Js.assign simpleLocators (fst complex) in
       Ok (sortLocators (priorityOrderFor isNative automationName) allLocators, snd complex))).

(** *** source-parsing.ts: xmlToJSON *)

(** The attributes object [translateRecursively] fills, attribute by
    attribute, with [attributes[attr.name] = attr.value.replace(...)]; the
    object starts as [{}], so an attribute named __proto__ leaves no entry. *)
Definition translateAttributes (domNode : XMLNode) : Js.Obj string :=
  match domNode with
  | ElementNode _ attrs _ =>
      fold_left (fun attributes attr =>
                   Js.assignProperty (fst attr) (Js.escapeNewlines (snd attr)) attributes)
                attrs []
  | _ => []
  end.

Definition pathOf (parentPath : list nat) (index : option nat) : list nat :=
  match index with
  | None => []
  | Some i => app parentPath [i]
  end.

(** [translateRecursively]: the children are the element children, numbered
    from 0. *)
Fixpoint translateRecursively (domNode : XMLNode) (parentPath : list nat)
    (index : option nat) {struct domNode} : JSONElement :=
  let path := pathOf parentPath index in
  let translateChildren :=
    fix go (cs : list XMLNode) (childIndex : nat) : list JSONElement :=
      match cs with
      | [] => []
      | childNode :: cs' =>
          if Nat.eqb (nodeType childNode) ELEMENT_NODE
          then translateRecursively childNode path (Some childIndex) :: go cs' (S childIndex)
          else go cs' childIndex
      end in
  mkJSONElement
    (match domNode with
     | DocumentNode cs => translateChildren cs 0
     | ElementNode _ _ cs => translateChildren cs 0
     | CharacterData _ _ => []
     end)
    (nodeName domNode) (translateAttributes domNode) path.

(** The object returned for a document without an element. *)
Definition emptyJSONElement : JSONElement := mkJSONElement [] Js.empty [] [].

Definition xmlToJSON (sourceDoc : XMLNode) : JSONElement :=
  match filter isElement (childNodes sourceDoc) with
  | firstChild :: _ => translateRecursively firstChild [] None
  | [] => emptyJSONElement
  end.

(** [findJSONElementByPath(path, sourceJSON)].  An index that finds no child
    leaves [undefined]: reading its [children] at the next index throws, and
    spreading it at the end gives the empty object, which is [None] here.  The
    empty path is one empty segment, read as NaN, which finds no child. *)
Definition findJSONElementByPath (path : list nat) (sourceJSON : JSONElement)
    : Exc (option JSONElement) :=
  match path with
  | [] => Ok None
  | _ =>
      fold_left (fun selected index =>
          Js.bind selected (fun selectedElement =>
            match selectedElement with
            | Some e => Ok (nth_error (children e) index)
            | None => Throw Js.TypeError
            end))
        path (Ok (Some sourceJSON))
  end.

(** *** element-filter.ts *)

Record FilterOptions := mkFilterOptions {
  includeTagNames : option (list string);
  excludeTagNames : option (list string);
  requireAttributes : option (list string);
  minAttributeCount : option Z;
  fetchableOnly : option bool;
  clickableOnly : option bool
}.

(** The default argument [{}]. *)
Definition noFilters : FilterOptions := mkFilterOptions None None None None None None.

Definition orDefault {A} (o : option A) (d : A) : A :=
  match o with Some a => a | None => d end.

Definition matchesTagFilters (element : JSONElement)
    (includeTagNames excludeTagNames : list string) : bool :=
  if (0 <? length includeTagNames)%nat && negb (includesStr includeTagNames (tagName element))
  then false
  else if includesStr excludeTagNames (tagName element) then false
  else true.

Definition matchesAttributeFilters (element : JSONElement)
    (requireAttributes : list string) (minAttributeCount : Z) : bool :=
  if (0 <? length requireAttributes)%nat
     && negb (existsb (fun attr => Js.truthyProperty attr (attributes element))
                requireAttributes)
  then false
  else if (Z.of_nat (length (attributes element)) <? minAttributeCount)%Z then false
  else true.

Definition androidInteractableTags : list string :=
  ["EditText"; "Button"; "ImageButton"; "CheckBox"; "RadioButton"; "Switch";
   "ToggleButton"; "TextView"].

Definition iosInteractableTags : list string :=
  ["XCUIElementTypeTextField"; "XCUIElementTypeSecureTextField"; "XCUIElementTypeButton";
   "XCUIElementTypeImage"; "XCUIElementTypeSwitch"; "XCUIElementTypeStaticText";
   "XCUIElementTypeTextView"; "XCUIElementTypeCell"; "XCUIElementTypeLink"].

Definition attrIsTrue (element : JSONElement) (name : string) : bool :=
  match Js.get name (attributes element) with
  | Some v => v =? "true"
  | None => false
  end.

Definition isInteractableElement (element : JSONElement) (isNative : bool)
    (automationName : string) : bool :=
  let interactableTags :=
    if isNative && (automationName =? "uiautomator2")
    then androidInteractableTags else iosInteractableTags in
  existsb (fun tag => Js.includes (tagName element) tag) interactableTags
  || attrIsTrue element "clickable"
  || attrIsTrue element "focusable".

Definition shouldIncludeElement (element : JSONElement) (filters : FilterOptions)
    (isNative : bool) (automationName : string) : bool :=
  let includeTagNames := orDefault (includeTagNames filters) [] in
  let excludeTagNames := orDefault (excludeTagNames filters) ["hierarchy"] in
  let requireAttributes := orDefault (requireAttributes filters) [] in
  let minAttributeCount := orDefault (minAttributeCount filters) 0%Z in
  let fetchableOnly := orDefault (fetchableOnly filters) false in
  let clickableOnly := orDefault (clickableOnly filters) false in
  if negb (matchesTagFilters element includeTagNames excludeTagNames) then false
  else if negb (matchesAttributeFilters element requireAttributes minAttributeCount) then false
  else if clickableOnly && negb (attrIsTrue element "clickable") then false
  else if fetchableOnly && negb (isInteractableElement element isNative automationName)
  then false
  else true.

(** *** generate-all-locators.ts *)

Record ElementWithLocators := mkElementWithLocators {
  ewlTagName : string;
  locators : Js.Obj string;
  text : string;
  contentDesc : string;
  resourceId : string;
  clickable : bool;
  enabled : bool;
  displayed : bool
}.

Definition transformElementWithLocators (element : JSONElement)
    (locators : list (string * string)) : ElementWithLocators :=
  mkElementWithLocators
    (tagName element)
    (Js.fromEntries locators)
    (Js.orEmpty (Js.get "text" (attributes element)))
    (Js.orEmpty (Js.get "content-desc" (attributes element)))
    (Js.orEmpty (Js.get "resource-id" (attributes element)))
    (attrIsTrue element "clickable")
    (attrIsTrue element "enabled")
    (attrIsTrue element "displayed").

(** The results array the traversal pushes to, and the error log. *)
Definition State : Type := list ElementWithLocators * Log.

Definition processElement (element : JSONElement) (sourceDoc : XMLNode) (isNative : bool)
    (automationName : string) (filters : FilterOptions) (st : State) : State :=
  if negb (shouldIncludeElement element filters isNative automationName) then st
  else
    match getSuggestedLocators element sourceDoc isNative automationName with
    | Ok (strategyMap, log) =>
        (app (fst st) [transformElementWithLocators element strategyMap], app (snd st) log)
    | Throw error => (fst st, app (snd st) [ElementError (path element) error])
    end.

Fixpoint traverseElement (element : JSONElement) (sourceDoc : XMLNode) (isNative : bool)
    (automationName : string) (filters : FilterOptions) (st : State) {struct element} : State :=
  let st1 := processElement element sourceDoc isNative automationName filters st in
  match element with
  | mkJSONElement children _ _ _ =>
      (fix forEach (cs : list JSONElement) (st : State) : State :=
         match cs with
         | [] => st
         | child :: cs' =>
             forEach cs' (traverseElement child sourceDoc isNative automationName filters st)
         end) children st1
  end.

Definition traverseAndProcessElements (element : option JSONElement) (sourceDoc : XMLNode)
    (isNative : bool) (automationName : string) (filters : FilterOptions) (st : State)
    : State :=
  match element with
  | None => st
  | Some e => traverseElement e sourceDoc isNative automationName filters st
  end.

(** [generateAllElementLocators]: the results, and what was logged. *)
Definition generateAllElementLocators (sourceDoc : XMLNode) (isNative : bool)
    (automationName : string) (filters : FilterOptions) : State :=
  let sourceJSON := xmlToJSON sourceDoc in
  traverseAndProcessElements (Some sourceJSON) sourceDoc isNative automationName filters
    ([], []).

End Generators.

(* ------------------------------------------------------------------ *)
(** ** Vocabulary of the statements *)

(** What may follow a name: nothing, or a character that no name holds. *)
Definition endsName (rest : string) : Prop :=
  match rest with
  | EmptyString => True
  | String c _ => XPathEngine.isNameChar c = false
  end.

(** A well-formed attribute test: a valid name and a value free of double
    quotes. *)
Definition goodTest (av : string * string) : Prop :=
  XPathEngine.validName (fst av) = true /\ Js.hasChar Js.dquoteChar (snd av) = false.

(** The nodes below the children [cs] of the node at [r], the first of which
    has index [i]. *)
Fixpoint belowFrom (r : DomRef) (i : nat) (cs : list XMLNode) : list (DomRef * XMLNode) :=
  match cs with
  | [] => []
  | c :: cs' => (((i :: r, c) :: descendants (i :: r) c) ++ belowFrom r (S i) cs')%list
  end.

(** Every element of the tree has a name the engine reads as a name. *)
Definition WellNamed (tree : XMLNode) : Prop :=
  forall r t attrs cs,
    nodeAt tree r = Some (ElementNode t attrs cs) -> XPathEngine.validName t = true.

(** The same as a check that runs, on the tree itself and everything below. *)
Definition wellNamed (tree : XMLNode) : bool :=
  forallb (fun rn => match snd rn with
                     | ElementNode t _ _ => XPathEngine.validName t
                     | _ => true
                     end)
          (([], tree) :: descendants [] tree).

(** No attribute value holds a double quote. *)
Definition quoteFree (attrs : list (string * string)) : bool :=
  forallb (fun av => negb (Js.hasChar Js.dquoteChar (snd av))) attrs.

(** The attribute names of a list are names the engine reads as names. *)
Definition keyNamesValid (k : AttrKey) : bool :=
  match k with
  | One a => XPathEngine.validName a
  | Two a1 a2 => XPathEngine.validName a1 && XPathEngine.validName a2
  end.

Definition attrNamesValid (attrs : Attrs) : bool := forallb keyNamesValid (attrKeys attrs).

(** The expressions one tier tries, in the order of its attribute list; an
    entry whose attribute is missing or empty on the node gives none. *)
Definition tierXPaths (tree : XMLNode) (r : DomRef) (given : Attrs) : list string :=
  flat_map (fun k => match xpathForKey tree r k with Some x => [x] | None => [] end)
           (attrKeys given).

(** The three attribute tiers: single likely-unique attributes, attribute
    pairs, single maybe-unique attributes. *)
Definition attributeTiers : list Attrs :=
  [ Names UNIQUE_XPATH_ATTRIBUTES;
    NamePairs (pairsOf (UNIQUE_XPATH_ATTRIBUTES ++ MAYBE_UNIQUE_XPATH_ATTRIBUTES)%list);
    Names MAYBE_UNIQUE_XPATH_ATTRIBUTES ].

(** All attribute-based candidates of a node, in tier order, then attribute
    order. *)
Definition candidateXPaths (tree : XMLNode) (r : DomRef) : list string :=
  flat_map (tierXPaths tree r) attributeTiers.

(** The first element of a list that [f] maps to something. *)
Fixpoint firstSome {A B} (f : A -> option B) (l : list A) : option B :=
  match l with
  | [] => None
  | x :: rest => match f x with Some y => Some y | None => firstSome f rest end
  end.

(** A candidate is fully unique when the oracle says so ... *)
Definition fullyUnique (xpathSelect : XPath.Engine) (tree : XMLNode) (r : DomRef)
    (xp : string) : bool :=
  fst (determineXpathUniqueness xpathSelect xp tree r).

(** ... and semi-unique when the oracle gives a position among several
    matches; the candidate kept is then the indexed form. *)
Definition semiUnique (xpathSelect : XPath.Engine) (tree : XMLNode) (r : DomRef)
    (xp : string) : option string :=
  match determineXpathUniqueness xpathSelect xp tree r with
  | (false, Some i) => Some (semiUniqueForm xp i)
  | _ => None
  end.

(** The tag-name tier finds the name alone unique. *)
Definition tagNameUnique (xpathSelect : XPath.Engine) (tree : XMLNode) (r : DomRef) : bool :=
  fullyUnique xpathSelect tree r ("//" ++ nameOf tree r).

(** The expression of the tag-name tier. *)
Definition tagNameXPath (tree : XMLNode) (r : DomRef) : string :=
  match parentNode r with
  | Some p => if Js.truthy (nameOf tree p) then "//" ++ nameOf tree r else "/" ++ nameOf tree r
  | None => "/" ++ nameOf tree r
  end.

(** The keys the simple strategy can produce. *)
Definition simpleKeys : list string := ["accessibility id"; "id"; "class name"].

(** The keys the complex strategies produce on a predicate-string platform. *)
Definition iosComplexKeys : list string :=
  ["-ios class chain"; "-ios predicate string"; "xpath"].

(** All elements of a JSON tree, the root first. *)
Fixpoint jsonNodes (e : JSONElement) : list JSONElement :=
  match e with
  | mkJSONElement cs _ _ _ =>
      e :: (fix each (l : list JSONElement) : list JSONElement :=
              match l with
              | [] => []
              | c :: l' => (jsonNodes c ++ each l')%list
              end) cs
  end.

(** The children [translateRecursively] gives a node, [k] being the index of
    the next element child. *)
Fixpoint translateChildren (path : list nat) (cs : list XMLNode) (k : nat) : list JSONElement :=
  match cs with
  | [] => []
  | c :: cs' =>
      if Nat.eqb (nodeType c) ELEMENT_NODE
      then translateRecursively c path (Some k) :: translateChildren path cs' (S k)
      else translateChildren path cs' k
  end.

(** States are joined componentwise. *)
Definition stApp (a b : State) : State := (app (fst a) (fst b), app (snd a) (snd b)).

Definition emptyState : State := ([], []).

(** The loop over the children of a node. *)
Fixpoint traverseChildren (xpathSelect : XPath.Engine) (sourceDoc : XMLNode) (isNative : bool)
    (automationName : string) (filters : FilterOptions) (cs : list JSONElement) (st : State)
    : State :=
  match cs with
  | [] => st
  | child :: cs' =>
      traverseChildren xpathSelect sourceDoc isNative automationName filters cs'
        (traverseElement xpathSelect child sourceDoc isNative automationName filters st)
  end.

(** No attribute value of the element holds a line feed. *)
Definition NewlineFree (e : JSONElement) : Prop :=
  forall k v, In (k, v) (attributes e) -> Js.hasChar Js.newlineChar v = false.

(** The attributes of a node of the document; only elements have any. *)
Definition ownAttributes (n : XMLNode) : list (string * string) :=
  match n with
  | ElementNode _ attrs _ => attrs
  | _ => []
  end.

(** The value the summary of an element shows for an attribute: the parsed
    value with its line feeds escaped, the empty string for a missing one. *)
Definition escapedAttribute (n : XMLNode) (name : string) : string :=
  Js.orEmpty (option_map Js.escapeNewlines (getAttribute n name)).

(** What one element contributes to the results. *)
Definition reportOf (xpathSelect : XPath.Engine) (sourceDoc : XMLNode) (isNative : bool)
    (automationName : string) (filters : FilterOptions) (e : JSONElement)
    : list ElementWithLocators :=
  if shouldIncludeElement e filters isNative automationName then
    match getSuggestedLocators xpathSelect e sourceDoc isNative automationName with
    | Ok (locs, _) => [transformElementWithLocators e locs]
    | Throw _ => []
    end
  else [].

(** The filter configuration that lets every element through. *)
Definition permissiveFilters : FilterOptions :=
  mkFilterOptions None (Some []) None None None None.

(** [Subseq a b]: [a] is [b] with some elements left out. *)
Inductive Subseq {A : Type} : list A -> list A -> Prop :=
| Subseq_done : Subseq [] []
| Subseq_keep (x : A) (a b : list A) : Subseq a b -> Subseq (x :: a) (x :: b)
| Subseq_drop (x : A) (a b : list A) : Subseq a b -> Subseq a (x :: b).

(** The lookup loop of findDOMNodeByPath, from a node on. *)
Definition walk (doc : XMLNode) (start : option DomRef) (q : list nat) : option DomRef :=
  fold_left (fun selectedElement index => nth_error (childNodesOf doc selectedElement) index)
            q start.

(** The lookup loop of findJSONElementByPath, from an element on. *)
Definition jsonWalk (start : Exc (option JSONElement)) (q : list nat)
    : Exc (option JSONElement) :=
  fold_left (fun selected index =>
      Js.bind selected (fun selectedElement =>
        match selectedElement with
        | Some e => Ok (nth_error (children e) index)
        | None => Throw Js.TypeError
        end))
    q start.

(** The indices of the element children among the children [cs], the first of
    which has index [start]. *)
Definition elementIndices (start : nat) (cs : list XMLNode) : list nat :=
  map fst (filter (fun ic => Nat.eqb (nodeType (snd ic)) ELEMENT_NODE)
                  (combine (seq start (length cs)) cs)).

(** The conjunction of attribute tests getOptimalPredicateString sends to the
    XPath engine, and the predicate string it returns for the same tests. *)
Definition xpathTests (tests : list (string * string)) : string :=
  String.concat " and " (map (fun av => attrTest (fst av) (snd av)) tests).

Definition predicateTests (tests : list (string * string)) : string :=
  String.concat " AND "
    (map (fun av => fst av ++ " == " ++ Js.dquote ++ snd av ++ Js.dquote) tests).

(** The tests accumulated by the loop of getOptimalPredicateString on an
    element with the attributes [attrs]: non-empty attributes of the element,
    with names taken from the checked list. *)
Definition ownTests (attrs : list (string * string)) (names : list string)
    (tests : list (string * string)) : Prop :=
  forall a v, In (a, v) tests ->
    In a names /\ lookupAttr a attrs = Some v /\ Js.truthy v = true.

(* ------------------------------------------------------------------ *)
(** ** Sample documents *)

Module Samples.

(** A hierarchy with two buttons whose name holds a double quote. *)
Definition quotedName : string := "a" ++ Js.dquote ++ "b".

Definition twoQuotedButtons : XMLNode :=
  DocumentNode
    [ElementNode "hierarchy" []
       [ElementNode "Button" [("name", quotedName)] [];
        ElementNode "Button" [("name", quotedName)] []]].

(** The Android page of the test suite, without its whitespace. *)
Definition androidPage : XMLNode :=
  DocumentNode
    [ElementNode "hierarchy" []
       [ElementNode "android.widget.FrameLayout" [("resource-id", "android:id/content")]
          [ElementNode "android.widget.LinearLayout" []
             [ElementNode "android.widget.TextView"
                [("text", "Hello World"); ("resource-id", "com.example:id/text_view");
                 ("clickable", "true"); ("enabled", "true"); ("displayed", "true")] [];
              ElementNode "android.widget.Button"
                [("text", "Click Me"); ("resource-id", "com.example:id/button");
                 ("clickable", "true"); ("enabled", "true"); ("displayed", "true")] [];
              ElementNode "android.widget.EditText"
                [("text", EmptyString); ("resource-id", "com.example:id/edit_text");
                 ("clickable", "true"); ("enabled", "true"); ("displayed", "true")] []]]]].

(** A hierarchy with two children of the same name and no attributes,
    separated by whitespace. *)
Definition twoPlainChildren : XMLNode :=
  DocumentNode
    [ElementNode "hierarchy" []
       [CharacterData "#text" 3; ElementNode "a" [] [];
        CharacterData "#text" 3; ElementNode "a" [] []]].

(** Two buttons that share an id. *)
Definition twoSameId : XMLNode :=
  DocumentNode
    [ElementNode "hierarchy" []
       [ElementNode "Button" [("id", "x")] []; ElementNode "Button" [("id", "x")] []]].

(** An iOS page: a button with both a name and an id. *)
Definition iosPage : XMLNode :=
  DocumentNode
    [ElementNode "hierarchy" []
       [ElementNode "XCUIElementTypeButton" [("name", "Done"); ("id", "done-button")] [];
        ElementNode "XCUIElementTypeOther" [] []]].

(** Two buttons whose description has two lines. *)
Definition twoLines : string := "a" ++ String Js.newlineChar "b".

Definition twoMultiline : XMLNode :=
  DocumentNode
    [ElementNode "hierarchy" []
       [ElementNode "Button" [("content-desc", twoLines)] [];
        ElementNode "Button" [("content-desc", twoLines)] []]].

(** A document whose root is not the wrapper the filter excludes by default. *)
Definition plainRoot : XMLNode :=
  DocumentNode [ElementNode "root" [] [ElementNode "a" [] []]].


(** An element without attributes beside one with a text. *)
Definition bareAndLabelled : XMLNode :=
  DocumentNode
    [ElementNode "hierarchy" []
       [ElementNode "node" [] []; ElementNode "node" [("text", "t")] []]].

(** A hierarchy that declares a default namespace; its two children share an
    id. *)
Definition defaultNamespace : XMLNode :=
  DocumentNode
    [ElementNode "hierarchy" [("xmlns", "http://example.com/ns")]
       [ElementNode "a" [("id", "n")] []; ElementNode "b" [("id", "n")] []]].

End Samples.

(** Inputs the statements below are instantiated at. *)

Module Cases.

(** The records reported for the Android page under a filter configuration. *)
Definition androidResults (filters : FilterOptions) : list ElementWithLocators :=
  fst (generateAllElementLocators XPathEngine.select Samples.androidPage true "uiautomator2"
         filters).

Definition noRecord : ElementWithLocators :=
  mkElementWithLocators Js.empty [] Js.empty Js.empty Js.empty false false false.

Definition firstOf (results : list ElementWithLocators) : ElementWithLocators :=
  hd noRecord results.

Definition clickableFilter : FilterOptions :=
  mkFilterOptions None None None None None (Some true).

Definition fetchableFilter : FilterOptions :=
  mkFilterOptions None None None None (Some true) None.

Definition buttonsFilter : FilterOptions :=
  mkFilterOptions (Some ["android.widget.Button"]) None None None None None.

Definition textFilter : FilterOptions :=
  mkFilterOptions None None (Some ["text"]) None None None.

Definition fiveAttributesFilter : FilterOptions :=
  mkFilterOptions None None None (Some 5%Z) None None.

(** A required attribute whose name every plain object inherits. *)
Definition inheritedNameFilter : FilterOptions :=
  mkFilterOptions None None (Some ["constructor"]) None None None.

(** The button of the Android page: in the document, and in the JSON tree. *)
Definition androidButtonRef : DomRef := [1; 0; 0; 0].

Definition androidButtonNode : XMLNode :=
  ElementNode "android.widget.Button"
    [("text", "Click Me"); ("resource-id", "com.example:id/button");
     ("clickable", "true"); ("enabled", "true"); ("displayed", "true")] [].

Definition androidButton : JSONElement :=
  mkJSONElement [] "android.widget.Button"
    [("text", "Click Me"); ("resource-id", "com.example:id/button");
     ("clickable", "true"); ("enabled", "true"); ("displayed", "true")] [0; 0; 1].

(** The button of the iOS page. *)
Definition iosButton : JSONElement :=
  mkJSONElement [] "XCUIElementTypeButton" [("name", "Done"); ("id", "done-button")] [0].

(** What getSuggestedLocators returns, an error read as nothing. *)
Definition suggested (e : JSONElement) (doc : XMLNode) (isNative : bool)
    (automationName : string) : list (string * string) * Log :=
  match getSuggestedLocators XPathEngine.select e doc isNative automationName with
  | Js.Ok r => r
  | Js.Throw _ => ([], [])
  end.

(** An element with an attribute for every alias of the simple strategies. *)
Definition everyAlias : Js.Obj string :=
  [("name", "n"); ("content-desc", "c"); ("id", "a"); ("resource-id", "b");
   ("class", "k"); ("type", "t")].

Definition everyAliasPage : XMLNode :=
  DocumentNode [ElementNode "hierarchy" [] [ElementNode "Button" everyAlias []]].

End Cases.

(* ------------------------------------------------------------------ *)
(** ** Induction over the trees

    Both trees nest through lists; these principles give the induction
    hypothesis for every child. *)

Section XMLNodeInduction.

Variable P : XMLNode -> Prop.
Hypothesis Hdocument : forall cs, Forall P cs -> P (DocumentNode cs).
Hypothesis Helement : forall t attrs cs, Forall P cs -> P (ElementNode t attrs cs).
Hypothesis Hcharacter : forall t ty, P (CharacterData t ty).

Fixpoint XMLNode_tree_ind (n : XMLNode) : P n :=
  let all :=
    fix all (cs : list XMLNode) : Forall P cs :=
      match cs with
      | [] => Forall_nil P
      | c :: cs' => Forall_cons c (XMLNode_tree_ind c) (all cs')
      end in
  match n with
  | DocumentNode cs => Hdocument cs (all cs)
  | ElementNode t attrs cs => Helement t attrs cs (all cs)
  | CharacterData t ty => Hcharacter t ty
  end.

End XMLNodeInduction.

Section JSONInduction.

Variable P : JSONElement -> Prop.
Hypothesis Hnode : forall cs t a p, Forall P cs -> P (mkJSONElement cs t a p).

Fixpoint JSONElement_tree_ind (e : JSONElement) : P e :=
  match e with
  | mkJSONElement cs t a p =>
      Hnode cs t a p
        ((fix all (l : list JSONElement) : Forall P l :=
            match l with
            | [] => Forall_nil P
            | c :: l' => Forall_cons c (JSONElement_tree_ind c) (all l')
            end) cs)
  end.

End JSONInduction.
(* ------------------------------------------------------------------ *)
(** ** Strings *)

Lemma append_assoc (a b c : string) : (a ++ b) ++ c = a ++ (b ++ c).
Proof. induction a as [|x a IH]; simpl; [reflexivity | now rewrite IH]. Qed.

Lemma append_empty_r (a : string) : a ++ EmptyString = a.
Proof. induction a as [|x a IH]; simpl; [reflexivity | now rewrite IH]. Qed.

Lemma stripQuotes_clean (s : string) : Js.hasChar Js.dquoteChar (Js.stripQuotes s) = false.
Proof.
  induction s as [|c s IH]; simpl; [reflexivity|].
  destruct (Ascii.eqb c Js.dquoteChar) eqn:E; [exact IH|].
  simpl. now rewrite E, IH.
Qed.

Lemma stripQuotes_id (s : string) :
  Js.hasChar Js.dquoteChar s = false -> Js.stripQuotes s = s.
Proof.
  induction s as [|c s IH]; simpl; [reflexivity|].
  intros H. apply orb_false_iff in H as [H1 H2].
  rewrite H1. now rewrite IH.
Qed.

Lemma escapeNewlines_clean (s : string) :
  Js.hasChar Js.newlineChar (Js.escapeNewlines s) = false.
Proof.
  induction s as [|c s IH]; simpl; [reflexivity|].
  destruct (Ascii.eqb c Js.newlineChar) eqn:E; simpl.
  - exact IH.
  - now rewrite E, IH.
Qed.

Lemma escapeNewlines_id (s : string) :
  Js.hasChar Js.newlineChar s = false -> Js.escapeNewlines s = s.
Proof.
  induction s as [|c s IH]; simpl; [reflexivity|].
  intros H. apply orb_false_iff in H as [H1 H2].
  rewrite H1. now rewrite IH.
Qed.

(* ------------------------------------------------------------------ *)
(** ** The engine reads back the expressions the code builds *)

Module EngineFacts.
Import XPathEngine.

Lemma stripPrefix_app (p s : string) : stripPrefix p (p ++ s) = Some s.
Proof.
  induction p as [|c p IH]; simpl; [now destruct s|].
  now rewrite Ascii.eqb_refl.
Qed.

Lemma takeName_app (a rest : string) :
  allNameChars a = true -> endsName rest -> takeName (a ++ rest) = (a, rest).
Proof.
  intros Ha Hr. induction a as [|c a IH].
  - cbn [append]. destruct rest as [|d rest]; [reflexivity|].
    cbn [takeName]. unfold endsName in Hr. now rewrite Hr.
  - cbn [append takeName]. cbn [allNameChars] in Ha.
    apply andb_true_iff in Ha as [Hc Ha]. rewrite Hc, (IH Ha). reflexivity.
Qed.

Lemma validName_chars (a : string) : validName a = true -> allNameChars a = true.
Proof.
  destruct a as [|c a]; simpl; [discriminate|].
  intros H. apply andb_true_iff in H as [H1 H2].
  unfold isNameChar. now rewrite H1, H2.
Qed.

Lemma validName_truthy (a : string) : validName a = true -> Js.truthy a = true.
Proof. destruct a; [discriminate | reflexivity]. Qed.

Lemma takeLiteral_app (v rest : string) :
  Js.hasChar Js.dquoteChar v = false ->
  takeLiteral (v ++ String Js.dquoteChar rest) = Some (v, rest).
Proof.
  induction v as [|c v IH]; simpl; intros H.
  - reflexivity.
  - apply orb_false_iff in H as [H1 H2]. rewrite H1, (IH H2). reflexivity.
Qed.

(** One attribute test, read with some fuel left. *)
Lemma parsePreds_one (fuel : nat) (a v : string) :
  goodTest (a, v) ->
  parsePreds (S fuel) (attrTest a v ++ "]") = Some [(a, v)].
Proof.
  intros [Ha Hv]. simpl in Ha, Hv.
  unfold attrTest. cbn [parsePreds].
  repeat rewrite append_assoc.
  rewrite stripPrefix_app.
  rewrite takeName_app; [| now apply validName_chars | exact eq_refl].
  rewrite Ha.
  change ("=" ++ Js.dquote ++ v ++ Js.dquote ++ "]")
    with (("=" ++ Js.dquote) ++ (v ++ Js.dquote ++ "]")).
  rewrite stripPrefix_app.
  change (v ++ Js.dquote ++ "]") with (v ++ String Js.dquoteChar "]").
  rewrite takeLiteral_app by exact Hv.
  reflexivity.
Qed.

(** Two attribute tests joined by [and]. *)
Lemma parsePreds_two (fuel : nat) (a1 v1 a2 v2 : string) :
  goodTest (a1, v1) -> goodTest (a2, v2) ->
  parsePreds (S (S fuel)) (attrTest a1 v1 ++ " and " ++ attrTest a2 v2 ++ "]")
  = Some [(a1, v1); (a2, v2)].
Proof.
  intros [Ha Hv] H2. simpl in Ha, Hv.
  remember (S fuel) as f1.
  unfold attrTest at 1. cbn [parsePreds].
  repeat rewrite append_assoc.
  rewrite stripPrefix_app.
  rewrite takeName_app; [| now apply validName_chars | exact eq_refl].
  rewrite Ha.
  change ("=" ++ Js.dquote ++ v1 ++ Js.dquote ++ " and " ++ attrTest a2 v2 ++ "]")
    with (("=" ++ Js.dquote) ++ (v1 ++ Js.dquote ++ " and " ++ attrTest a2 v2 ++ "]")).
  rewrite stripPrefix_app.
  change (v1 ++ Js.dquote ++ " and " ++ attrTest a2 v2 ++ "]")
    with (v1 ++ String Js.dquoteChar (" and " ++ attrTest a2 v2 ++ "]")).
  rewrite takeLiteral_app by exact Hv.
  assert (Hne : ((" and " ++ attrTest a2 v2 ++ "]") =? "]") = false) by reflexivity.
  rewrite Hne, stripPrefix_app.
  subst f1. rewrite (parsePreds_one fuel a2 v2 H2).
  reflexivity.
Qed.

Lemma length_append (a b : string) :
  String.length (a ++ b) = String.length a + String.length b.
Proof. induction a as [|c a IH]; simpl; [reflexivity | now rewrite IH]. Qed.

Lemma attrTest_length (a v rest : string) :
  1 <= String.length (attrTest a v ++ rest).
Proof. unfold attrTest. cbn [append String.length]. lia. Qed.

Lemma not_star (t rest : string) :
  validName t = true -> stripPrefix "*" (t ++ rest) = None.
Proof.
  destruct t as [|c t]; [discriminate|]. cbn [validName append stripPrefix].
  intros H. apply andb_true_iff in H as [H _].
  destruct (Ascii.eqb_spec "*"%char c) as [<-|]; [discriminate H | reflexivity].
Qed.

Lemma parse_any_one (a v : string) :
  goodTest (a, v) ->
  parse ("//*[" ++ attrTest a v ++ "]") = Some (mkQuery AnyName [(a, v)]).
Proof.
  intros H. unfold parse.
  change ("//*[" ++ attrTest a v ++ "]") with ("//" ++ "*" ++ "[" ++ attrTest a v ++ "]").
  rewrite !stripPrefix_app. cbn [append parseAfterTest]. cbn [Ascii.eqb Bool.eqb].
  pose proof (attrTest_length a v "]") as L.
  destruct (String.length (attrTest a v ++ "]")) as [|fuel]; [lia|].
  now rewrite parsePreds_one.
Qed.

Lemma parse_name (t : string) :
  validName t = true -> parse ("//" ++ t) = Some (mkQuery (Name t) []).
Proof.
  intros H. unfold parse. rewrite stripPrefix_app.
  rewrite <- (append_empty_r t) at 1. rewrite not_star by exact H.
  rewrite <- (append_empty_r t) at 1.
  rewrite takeName_app; [| now apply validName_chars | exact I].
  now rewrite H.
Qed.

Lemma parse_name_one (t a v : string) :
  validName t = true -> goodTest (a, v) ->
  parse ("//" ++ t ++ "[" ++ attrTest a v ++ "]") = Some (mkQuery (Name t) [(a, v)]).
Proof.
  intros Ht H. unfold parse. rewrite stripPrefix_app.
  rewrite not_star by exact Ht.
  rewrite takeName_app; [| now apply validName_chars | exact eq_refl].
  rewrite Ht. cbn [append parseAfterTest]. cbn [Ascii.eqb Bool.eqb].
  pose proof (attrTest_length a v "]") as L.
  destruct (String.length (attrTest a v ++ "]")) as [|fuel]; [lia|].
  now rewrite parsePreds_one.
Qed.

Lemma parse_name_two (t a1 v1 a2 v2 : string) :
  validName t = true -> goodTest (a1, v1) -> goodTest (a2, v2) ->
  parse ("//" ++ t ++ "[" ++ attrTest a1 v1 ++ " and " ++ attrTest a2 v2 ++ "]")
  = Some (mkQuery (Name t) [(a1, v1); (a2, v2)]).
Proof.
  intros Ht H1 H2. unfold parse. rewrite stripPrefix_app.
  rewrite not_star by exact Ht.
  rewrite takeName_app; [| now apply validName_chars | exact eq_refl].
  rewrite Ht.
  change ("[" ++ attrTest a1 v1 ++ " and " ++ attrTest a2 v2 ++ "]")
    with (String "["%char (attrTest a1 v1 ++ " and " ++ attrTest a2 v2 ++ "]")).
  unfold parseAfterTest. rewrite Ascii.eqb_refl.
  assert (L : 2 <= String.length (attrTest a1 v1 ++ " and " ++ attrTest a2 v2 ++ "]")).
  { rewrite length_append. pose proof (attrTest_length a1 v1 EmptyString) as L1.
    rewrite append_empty_r in L1. cbn [append String.length]. lia. }
  destruct (String.length (attrTest a1 v1 ++ " and " ++ attrTest a2 v2 ++ "]"))
    as [|[|fuel]]; [lia | lia |].
  now rewrite parsePreds_two.
Qed.

End EngineFacts.

(* ------------------------------------------------------------------ *)
(** ** The document tree *)

Lemma descendants_below (r : DomRef) (n : XMLNode) :
  descendants r n = belowFrom r 0 (childNodes n).
Proof.
  assert (G : forall cs i,
    (fix go (i : nat) (cs : list XMLNode) : list (DomRef * XMLNode) :=
       match cs with
       | [] => []
       | c :: cs' => (((i :: r, c) :: descendants (i :: r) c) ++ go (S i) cs')%list
       end) i cs = belowFrom r i cs).
  { induction cs as [|c cs IH]; intros i; [reflexivity|]. cbn [belowFrom]. now rewrite IH. }
  destruct n; cbn [descendants childNodes]; [apply G | apply G | reflexivity].
Qed.

Lemma below_child (r : DomRef) (cs : list XMLNode) :
  forall i k c, nth_error cs k = Some c -> In (i + k :: r, c) (belowFrom r i cs).
Proof.
  induction cs as [|d cs IH]; intros i k c H; [now destruct k|].
  destruct k as [|k]; cbn [nth_error] in H; cbn [belowFrom].
  - injection H as ->. rewrite Nat.add_0_r. now left.
  - apply in_or_app. right. replace (i + S k) with (S i + k) by lia. now apply IH.
Qed.

Lemma below_subtree (r : DomRef) (cs : list XMLNode) :
  forall i k c x, nth_error cs k = Some c ->
    In x (descendants (i + k :: r) c) -> In x (belowFrom r i cs).
Proof.
  induction cs as [|d cs IH]; intros i k c x H Hx; [now destruct k|].
  destruct k as [|k]; cbn [nth_error] in H; cbn [belowFrom].
  - injection H as ->. rewrite Nat.add_0_r in Hx. right. apply in_or_app. now left.
  - apply in_or_app. right. replace (i + S k) with (S i + k) in Hx by lia.
    now apply (IH (S i) k c).
Qed.

Lemma below_inv (r : DomRef) (cs : list XMLNode) :
  forall i y, In y (belowFrom r i cs) ->
    exists k c, nth_error cs k = Some c /\
      (y = (i + k :: r, c) \/ In y (descendants (i + k :: r) c)).
Proof.
  induction cs as [|d cs IH]; intros i y H; [contradiction|].
  cbn [belowFrom] in H. destruct H as [H|H].
  - exists 0, d. rewrite Nat.add_0_r. split; [reflexivity | now left].
  - apply in_app_or in H as [H|H].
    + exists 0, d. rewrite Nat.add_0_r. split; [reflexivity | now right].
    + destruct (IH (S i) y H) as (k & c & Hk & Hy).
      exists (S k), c. replace (i + S k) with (S i + k) by lia. now split.
Qed.

(** Below a node that is below [d] is below [d]. *)
Lemma descendants_trans (d : XMLNode) :
  forall r0 q n x,
    In (q, n) (descendants r0 d) -> In x (descendants q n) -> In x (descendants r0 d).
Proof.
  induction d as [cs IH | t attrs cs IH | t ty] using XMLNode_tree_ind;
    intros r0 q n x Hq Hx; rewrite descendants_below in Hq |- *;
    cbn [childNodes] in *; try contradiction.
  all: apply below_inv in Hq as (k & c & Hk & [E|Hin]).
  all: try (injection E as -> ->; now apply (below_subtree r0 cs 0 k c)).
  all: apply (below_subtree r0 cs 0 k c x Hk).
  all: rewrite Forall_forall in IH.
  all: apply (IH c (nth_error_In _ _ Hk) _ q n x Hin Hx).
Qed.

(** Every node a reference other than the document's resolves to is among the
    descendants of the document. *)
Lemma nodeAt_descendant (doc : XMLNode) :
  forall r n, r <> [] -> nodeAt doc r = Some n -> In (r, n) (descendants [] doc).
Proof.
  induction r as [|i p IH]; intros n Hr H; [contradiction|].
  cbn [nodeAt] in H. destruct (nodeAt doc p) as [pn|] eqn:Hp; [|discriminate].
  assert (Hc : In (i :: p, n) (descendants p pn)).
  { rewrite descendants_below. apply (below_child p (childNodes pn) 0 i n H). }
  destruct p as [|j p'].
  - cbn [nodeAt] in Hp. injection Hp as <-. exact Hc.
  - apply (descendants_trans doc [] (j :: p') pn); [|exact Hc].
    apply IH; [discriminate | reflexivity].
Qed.

Lemma short_list_with {A} (x : A) (l : list A) :
  In x l -> length l < 2 -> l = [x].
Proof.
  destruct l as [|y [|z l]]; cbn; intros H L; try contradiction; try lia.
  destruct H as [->|[]]. reflexivity.
Qed.

Module EvalFacts.
Import XPathEngine EngineFacts.

Lemma eval_complete (q : Query) (doc : XMLNode) (r : DomRef) (n : XMLNode) :
  r <> [] -> nodeAt doc r = Some n -> matches q (namespaceURI doc r) n = true ->
  In r (eval q doc).
Proof.
  intros Hr Hn Hm. unfold eval.
  apply (in_map fst _ (r, n)). apply filter_In. split; [|exact Hm].
  now apply nodeAt_descendant.
Qed.

Lemma lookupAttr_hasAttr (a v : string) (attrs : list (string * string)) :
  lookupAttr a attrs = Some v -> hasAttr a v attrs = true.
Proof.
  induction attrs as [|[k w] attrs IH]; [discriminate|].
  cbn [lookupAttr]. unfold hasAttr in *. cbn [existsb fst snd].
  destruct (k =? a) eqn:E; intros H.
  - injection H as ->. now rewrite String.eqb_refl.
  - rewrite (IH H). apply orb_true_r.
Qed.

Lemma In_hasAttr (a v : string) (attrs : list (string * string)) :
  In (a, v) attrs -> hasAttr a v attrs = true.
Proof.
  intros H. unfold hasAttr. apply existsb_exists. exists (a, v).
  split; [exact H|]. cbn. now rewrite !String.eqb_refl.
Qed.

End EvalFacts.

(* ------------------------------------------------------------------ *)
(** ** The uniqueness oracle *)

Module Oracle.
Import XPathEngine EngineFacts EvalFacts.

Lemma select_any_one (a v : string) (tree : XMLNode) :
  validName a = true ->
  select ("//*[" ++ attrTest a (Js.stripQuotes v) ++ "]") tree
  = XPath.NodeSet (elementsWithAttr a (Js.stripQuotes v) tree).
Proof.
  intros Ha. unfold select. rewrite parse_any_one; [reflexivity|].
  split; [exact Ha | apply stripQuotes_clean].
Qed.

Lemma areAttrAndValueUnique_eq (a v : string) (tree : XMLNode) :
  validName a = true ->
  areAttrAndValueUnique select a v (Some tree)
  = Ok (length (elementsWithAttr a (Js.stripQuotes v) tree) <? 2)%nat.
Proof. intros Ha. unfold areAttrAndValueUnique. now rewrite select_any_one. Qed.

Lemma lookupAttr_In (a v : string) (attrs : list (string * string)) :
  lookupAttr a attrs = Some v -> In (a, v) attrs.
Proof.
  induction attrs as [|[k w] attrs IH]; cbn [lookupAttr]; [discriminate|].
  destruct (String.eqb_spec k a) as [->|]; intros H.
  - injection H as ->. now left.
  - right. now apply IH.
Qed.

Lemma determine_unique_sound (xp : string) (tree : XMLNode) (r : DomRef) (l : list DomRef) :
  select xp tree = XPath.NodeSet l -> In r l ->
  fst (determineXpathUniqueness select xp tree r) = true ->
  select xp tree = XPath.NodeSet [r].
Proof.
  intros Hs Hin Hu. unfold determineXpathUniqueness in Hu. rewrite Hs in Hu |- *.
  cbn [XPath.asArray] in Hu.
  destruct (1 <? length l)%nat eqn:E; [discriminate|].
  apply Nat.ltb_ge in E. f_equal. apply short_list_with; [exact Hin | lia].
Qed.

Lemma uniqueXPathLoop_unique (tree : XMLNode) (r : DomRef) (keys : list AttrKey) :
  forall semi xp semi',
    uniqueXPathLoop select tree r keys semi = (Some xp, semi') ->
    exists k, In k keys /\ xpathForKey tree r k = Some xp
              /\ fst (determineXpathUniqueness select xp tree r) = true.
Proof.
  induction keys as [|k keys IH]; intros semi xp semi' H; cbn [uniqueXPathLoop] in H.
  - discriminate.
  - destruct (xpathForKey tree r k) as [x|] eqn:Ek.
    + destruct (determineXpathUniqueness select x tree r) as [[|] idx] eqn:Ed.
      * injection H as -> _. exists k. rewrite Ed. now repeat split; [left|..].
      * destruct (IH _ _ _ H) as (k' & Hin & Hk & Hu). exists k'. now repeat split; [right|..].
    + destruct (IH _ _ _ H) as (k' & Hin & Hk & Hu). exists k'. now repeat split; [right|..].
Qed.

Section Node.

Variables (tree : XMLNode) (r : DomRef) (tag : string)
          (attrs : list (string * string)) (cs : list XMLNode).
Hypothesis Hnamed : WellNamed tree.
Hypothesis Hr : r <> [].
Hypothesis Hnode : nodeAt tree r = Some (ElementNode tag attrs cs).
Hypothesis Hquotes : forall a v, In (a, v) attrs -> Js.hasChar Js.dquoteChar v = false.
Hypothesis Hplain : Js.truthy (namespaceURI tree r) = false.

Lemma node_name : nameOf tree r = tag.
Proof. unfold nameOf. now rewrite Hnode. Qed.

Lemma node_tag_valid : validName tag = true.
Proof. exact (Hnamed r tag attrs cs Hnode). Qed.

Lemma node_attr (a : string) : attributeOf tree r a = lookupAttr a attrs.
Proof. unfold attributeOf. now rewrite Hnode. Qed.

Lemma parent_named : forall p, parentNode r = Some p -> Js.truthy (nameOf tree p) = true.
Proof.
  intros p Hp. destruct r as [|i q]; [discriminate|]. injection Hp as <-.
  cbn [nodeAt] in Hnode. unfold nameOf.
  destruct (nodeAt tree q) as [[kids | t a kids | t ty]|] eqn:Hq; try discriminate.
  - reflexivity.
  - apply validName_truthy. exact (Hnamed q t a kids Hq).
  - now destruct i.
Qed.

Lemma key_sound (k : AttrKey) (xp : string) :
  keyNamesValid k = true -> xpathForKey tree r k = Some xp ->
  fst (determineXpathUniqueness select xp tree r) = true ->
  select xp tree = XPath.NodeSet [r].
Proof.
  intros Hk Hx Hu. unfold xpathForKey in Hx.
  rewrite node_name, (validName_truthy _ node_tag_valid) in Hx.
  destruct k as [a | a1 a2]; cbn [keyNamesValid] in Hk.
  - rewrite node_attr in Hx. destruct (lookupAttr a attrs) as [v|] eqn:Ea; [|discriminate].
    destruct (Js.truthy v); [|discriminate].
    assert (E : xp = "//" ++ tag ++ "[" ++ attrTest a v ++ "]") by congruence.
    clear Hx. subst xp.
    pose proof (lookupAttr_In _ _ _ Ea) as Hin.
    assert (Hp : parse ("//" ++ tag ++ "[" ++ attrTest a v ++ "]")
                 = Some (mkQuery (Name tag) [(a, v)])).
    { apply parse_name_one; [exact node_tag_valid | split; [exact Hk | exact (Hquotes a v Hin)]]. }
    eapply determine_unique_sound; [unfold select; rewrite Hp; reflexivity | | exact Hu].
    apply (eval_complete _ tree r _ Hr Hnode).
    cbn [matches qTest qPreds forallb fst snd]. rewrite Hplain, String.eqb_refl.
    now rewrite (lookupAttr_hasAttr _ _ _ Ea).
  - rewrite !node_attr in Hx. apply andb_true_iff in Hk as [Hk1 Hk2].
    destruct (lookupAttr a1 attrs) as [v1|] eqn:E1; [|discriminate].
    destruct (lookupAttr a2 attrs) as [v2|] eqn:E2; [|discriminate].
    destruct (Js.truthy v1 && Js.truthy v2); [|discriminate].
    assert (E : xp = "//" ++ tag ++ "[" ++ attrTest a1 v1 ++ " and " ++ attrTest a2 v2 ++ "]")
      by congruence.
    clear Hx. subst xp.
    pose proof (lookupAttr_In _ _ _ E1) as Hin1. pose proof (lookupAttr_In _ _ _ E2) as Hin2.
    assert (Hp : parse ("//" ++ tag ++ "[" ++ attrTest a1 v1 ++ " and " ++ attrTest a2 v2 ++ "]")
                 = Some (mkQuery (Name tag) [(a1, v1); (a2, v2)])).
    { apply parse_name_two;
        [ exact node_tag_valid
        | split; [exact Hk1 | exact (Hquotes a1 v1 Hin1)]
        | split; [exact Hk2 | exact (Hquotes a2 v2 Hin2)] ]. }
    eapply determine_unique_sound; [unfold select; rewrite Hp; reflexivity | | exact Hu].
    apply (eval_complete _ tree r _ Hr Hnode).
    cbn [matches qTest qPreds forallb fst snd]. rewrite Hplain, String.eqb_refl.
    now rewrite (lookupAttr_hasAttr _ _ _ E1), (lookupAttr_hasAttr _ _ _ E2).
Qed.

Lemma getUniqueXPath_sound (given : Attrs) (xp : string) :
  attrNamesValid given = true ->
  getUniqueXPath select tree r given = (Some xp, Some true) ->
  select xp tree = XPath.NodeSet [r].
Proof.
  intros Hv H. unfold getUniqueXPath in H.
  destruct (Nat.eqb (attrsLength given) 0).
  - rewrite node_name in H.
    destruct (fst (determineXpathUniqueness select ("//" ++ tag) tree r)) eqn:Hu;
      [|discriminate].
    destruct (parentNode r) as [p|] eqn:Hp; [|now destruct r].
    rewrite (parent_named p Hp) in H.
    assert (E : xp = "//" ++ tag) by congruence. clear H. subst xp.
    eapply determine_unique_sound;
      [unfold select; rewrite (parse_name _ node_tag_valid); reflexivity | | exact Hu].
    apply (eval_complete _ tree r _ Hr Hnode).
    cbn [matches qTest qPreds forallb]. now rewrite Hplain, String.eqb_refl.
  - destruct (uniqueXPathLoop select tree r (attrKeys given) None) as [[u|] [s|]] eqn:El;
      try discriminate; injection H as ->.
    all: destruct (uniqueXPathLoop_unique _ _ _ _ _ _ El) as (k & Hin & Hk & Hu).
    all: apply (key_sound k xp); auto.
    all: unfold attrNamesValid in Hv; rewrite forallb_forall in Hv; now apply Hv.
Qed.

Lemma casesLoop_inl (cases : list Attrs) :
  forall semi xp, casesLoop select tree r cases semi = inl xp ->
    exists given, In given cases /\ getUniqueXPath select tree r given = (Some xp, Some true).
Proof.
  induction cases as [|given cases IH]; intros semi xp H; cbn [casesLoop] in H; [discriminate|].
  destruct (getUniqueXPath select tree r given) as [[x|] [[|]|]] eqn:E.
  1: { injection H as <-. exists given. now split; [left|]. }
  all: destruct (IH _ _ H) as (g & Hin & Hg); exists g; now split; [right|].
Qed.

Lemma simple_sound (a v : string) :
  validName a = true -> In (a, v) attrs -> Js.hasChar Js.newlineChar v = false ->
  areAttrAndValueUnique select a (Js.escapeNewlines v) (Some tree) = Ok true ->
  elementsWithAttr a (Js.escapeNewlines v) tree = [r].
Proof.
  intros Ha Hin Hnl H. rewrite (escapeNewlines_id v Hnl) in *.
  rewrite (areAttrAndValueUnique_eq a v tree Ha) in H.
  rewrite (stripQuotes_id v (Hquotes a v Hin)) in H.
  injection H as H. apply Nat.ltb_lt in H.
  apply short_list_with; [|exact H].
  apply (eval_complete _ tree r _ Hr Hnode).
  cbn [matches qTest qPreds forallb fst snd]. now rewrite (In_hasAttr a v attrs Hin).
Qed.

End Node.

End Oracle.

(* ------------------------------------------------------------------ *)
(** ** The tiers of the generic path strategy *)

Section Tiers.

Variable xpathSelect : XPath.Engine.
Variables (tree : XMLNode) (r : DomRef).

Let xs (keys : list AttrKey) : list string :=
  flat_map (fun k => match xpathForKey tree r k with Some x => [x] | None => [] end) keys.

Lemma loop_finds_unique (keys : list AttrKey) :
  forall semi u, find (fullyUnique xpathSelect tree r) (xs keys) = Some u ->
    fst (uniqueXPathLoop xpathSelect tree r keys semi) = Some u.
Proof.
  induction keys as [|k keys IH]; intros semi u H; [discriminate|].
  cbn [uniqueXPathLoop]. unfold xs in H. cbn [flat_map] in H.
  destruct (xpathForKey tree r k) as [x|]; [|exact (IH _ _ H)].
  cbn [app find] in H. unfold fullyUnique at 1 in H.
  destruct (determineXpathUniqueness xpathSelect x tree r) as [[|] idx]; cbn [fst] in H.
  - now injection H as ->.
  - exact (IH _ _ H).
Qed.

Lemma loop_keeps_first_semi (keys : list AttrKey) :
  forall semi, find (fullyUnique xpathSelect tree r) (xs keys) = None ->
    uniqueXPathLoop xpathSelect tree r keys semi
    = (None, match semi with Some s => Some s | None => firstSome (semiUnique xpathSelect tree r) (xs keys) end).
Proof.
  induction keys as [|k keys IH]; intros semi H.
  - now destruct semi.
  - cbn [uniqueXPathLoop]. unfold xs in H |- *. cbn [flat_map] in H |- *.
    destruct (xpathForKey tree r k) as [x|]; [|exact (IH _ H)].
    cbn [app find firstSome] in H |- *. unfold fullyUnique at 1 in H. unfold semiUnique at 1.
    destruct (determineXpathUniqueness xpathSelect x tree r) as [[|] idx]; cbn [fst] in H.
    + discriminate.
    + rewrite (IH _ H). now destruct semi, idx.
Qed.

Lemma find_app {A} (f : A -> bool) (l1 l2 : list A) :
  find f (l1 ++ l2)%list = match find f l1 with Some x => Some x | None => find f l2 end.
Proof. induction l1 as [|x l1 IH]; cbn; [reflexivity|]. now destruct (f x). Qed.

Lemma firstSome_app {A B} (f : A -> option B) (l1 l2 : list A) :
  firstSome f (l1 ++ l2)%list
  = match firstSome f l1 with Some y => Some y | None => firstSome f l2 end.
Proof. induction l1 as [|x l1 IH]; cbn; [reflexivity|]. now destruct (f x). Qed.

Lemma semiUniqueForm_truthy (x : string) (i : Z) : Js.truthy (semiUniqueForm x i) = true.
Proof. reflexivity. Qed.

Lemma firstSome_semi_truthy (l : list string) (s : string) :
  firstSome (semiUnique xpathSelect tree r) l = Some s -> exists rest, s = String "("%char rest.
Proof.
  induction l as [|x l IH]; cbn [firstSome]; [discriminate|].
  unfold semiUnique at 1.
  destruct (determineXpathUniqueness xpathSelect x tree r) as [[|] [i|]]; auto.
  intros H. injection H as <-. unfold semiUniqueForm. cbn [append]. eauto.
Qed.

(** What [getUniqueXPath] returns for a tier with attributes. *)
Lemma getUniqueXPath_tier (given : Attrs) :
  attrsLength given <> 0 ->
  getUniqueXPath xpathSelect tree r given
  = match find (fullyUnique xpathSelect tree r) (tierXPaths tree r given) with
    | Some u => (Some u, Some true)
    | None =>
        match firstSome (semiUnique xpathSelect tree r) (tierXPaths tree r given) with
        | Some s => (Some s, Some false)
        | None => (None, None)
        end
    end.
Proof.
  intros Hlen. unfold getUniqueXPath.
  destruct (Nat.eqb_spec (attrsLength given) 0) as [E|_]; [contradiction|].
  unfold tierXPaths. fold (xs (attrKeys given)).
  destruct (find (fullyUnique xpathSelect tree r) (xs (attrKeys given))) as [u|] eqn:Ef.
  - pose proof (loop_finds_unique _ None u Ef) as H.
    destruct (uniqueXPathLoop xpathSelect tree r (attrKeys given) None) as [a b].
    cbn [fst] in H. now subst a.
  - now rewrite (loop_keeps_first_semi _ None Ef).
Qed.

(** The loop over tiers that all have attributes, followed by other cases. *)
Lemma casesLoop_tiers (tiers rest : list Attrs) :
  Forall (fun given => attrsLength given <> 0) tiers ->
  forall semi,
    casesLoop xpathSelect tree r (tiers ++ rest)%list semi
    = match find (fullyUnique xpathSelect tree r) (flat_map (tierXPaths tree r) tiers) with
      | Some u => inl u
      | None =>
          casesLoop xpathSelect tree r rest
            (match semi with
             | Some s => Some s
             | None => firstSome (semiUnique xpathSelect tree r) (flat_map (tierXPaths tree r) tiers)
             end)
      end.
Proof.
  induction 1 as [|given tiers Hlen _ IH]; intros semi.
  - cbn. now destruct semi.
  - cbn [app casesLoop flat_map]. rewrite (getUniqueXPath_tier given Hlen).
    rewrite find_app, firstSome_app.
    destruct (find (fullyUnique xpathSelect tree r) (tierXPaths tree r given)) as [u|]; [reflexivity|].
    destruct (firstSome (semiUnique xpathSelect tree r) (tierXPaths tree r given)) as [s|] eqn:Es.
    + destruct (firstSome_semi_truthy _ _ Es) as [rest' ->].
      cbn [Js.truthyOpt Js.truthy]. rewrite IH.
      destruct (find (fullyUnique xpathSelect tree r) (flat_map (tierXPaths tree r) tiers)); [reflexivity|].
      now destruct semi.
    + cbn [Js.truthyOpt]. rewrite IH.
      destruct (find (fullyUnique xpathSelect tree r) (flat_map (tierXPaths tree r) tiers)); [reflexivity|].
      now destruct semi.
Qed.

Lemma casesLoop_xpathCases :
  casesLoop xpathSelect tree r xpathCases None
  = match find (fullyUnique xpathSelect tree r) (candidateXPaths tree r) with
    | Some u => inl u
    | None =>
        if (tagNameUnique xpathSelect tree r) then inl (tagNameXPath tree r)
        else inr (firstSome (semiUnique xpathSelect tree r) (candidateXPaths tree r))
    end.
Proof.
  change xpathCases with (attributeTiers ++ [Names []])%list.
  rewrite casesLoop_tiers by (repeat constructor; discriminate).
  fold (candidateXPaths tree r).
  destruct (find (fullyUnique xpathSelect tree r) (candidateXPaths tree r)); [reflexivity|].
  cbn [casesLoop]. unfold getUniqueXPath. cbn [attrsLength length Nat.eqb].
  unfold tagNameUnique, fullyUnique, tagNameXPath.
  destruct (fst (determineXpathUniqueness xpathSelect ("//" ++ nameOf tree r) tree r)).
  - destruct (parentNode r) as [p|]; [destruct (Js.truthy (nameOf tree p))|]; reflexivity.
  - now destruct (firstSome (semiUnique xpathSelect tree r) (candidateXPaths tree r)).
Qed.

Lemma candidate_shape (u : string) :
  In u (candidateXPaths tree r) -> exists rest, u = String "/"%char rest.
Proof.
  unfold candidateXPaths. intros H. apply in_flat_map in H as (given & _ & H).
  unfold tierXPaths in H. apply in_flat_map in H as (k & _ & H).
  unfold xpathForKey in H.
  destruct k as [a | a1 a2].
  - destruct (attributeOf tree r a) as [v|]; [|contradiction].
    destruct (Js.truthy v); [|contradiction]. destruct H as [<-|[]]. cbn [append]. eauto.
  - destruct (attributeOf tree r a1) as [v1|]; [|contradiction].
    destruct (attributeOf tree r a2) as [v2|]; [|contradiction].
    destruct (Js.truthy v1 && Js.truthy v2); [|contradiction].
    destruct H as [<-|[]]. cbn [append]. eauto.
Qed.

Lemma tagNameXPath_shape : exists rest, (tagNameXPath tree r) = String "/"%char rest.
Proof.
  unfold tagNameXPath.
  destruct (parentNode r) as [p|]; [destruct (Js.truthy (nameOf tree p))|]; cbn [append]; eauto.
Qed.

End Tiers.

Section GenericPath.

Variable xpathSelect : XPath.Engine.
Variables (tree : XMLNode) (r : DomRef) (n : XMLNode).
Hypothesis Hnode : nodeAt tree r = Some n.
Hypothesis Hname : Js.truthy (nodeName n) = true.
Hypothesis Htype : nodeType n = 1.

(** [getOptimalXPath] on an element, in terms of the loop over its cases. *)
Lemma getOptimalXPathAt_element :
  getOptimalXPathAt xpathSelect tree r
  = match casesLoop xpathSelect tree r xpathCases None with
    | inl xpath => (Some xpath, [])
    | inr (Some semiUniqueXpath) => (Some semiUniqueXpath, [])
    | inr None =>
        match r with
        | _ :: parent =>
            let (above, log) := getOptimalXPathAt xpathSelect tree parent in
            (Some (Js.addOpt above (hierarchicalStep tree r)), log)
        | [] =>
            (Some (Js.addOpt None (hierarchicalStep tree r)), [LocatorError "XPath" Js.TypeError])
        end
    end.
Proof.
  destruct r as [|i p]; cbn [getOptimalXPathAt]; rewrite Hnode, Hname, Htype; reflexivity.
Qed.

Lemma unique_candidate_returned (u : string) :
  find (fullyUnique xpathSelect tree r) (candidateXPaths tree r) = Some u ->
  getOptimalXPathAt xpathSelect tree r = (Some u, []).
Proof.
  intros H. rewrite getOptimalXPathAt_element, casesLoop_xpathCases. now rewrite H.
Qed.

Lemma unique_tag_returned :
  find (fullyUnique xpathSelect tree r) (candidateXPaths tree r) = None ->
  tagNameUnique xpathSelect tree r = true ->
  getOptimalXPathAt xpathSelect tree r = (Some (tagNameXPath tree r), []).
Proof.
  intros H1 H2. rewrite getOptimalXPathAt_element, casesLoop_xpathCases. now rewrite H1, H2.
Qed.

Lemma first_semi_returned (s : string) :
  firstSome (semiUnique xpathSelect tree r) (candidateXPaths tree r) = Some s ->
  (getOptimalXPathAt xpathSelect tree r = (Some s, [])
   <-> find (fullyUnique xpathSelect tree r) (candidateXPaths tree r) = None
       /\ tagNameUnique xpathSelect tree r = false).
Proof.
  intros Hs. destruct (firstSome_semi_truthy _ _ _ _ _ Hs) as [rest Es].
  rewrite getOptimalXPathAt_element, casesLoop_xpathCases.
  destruct (find (fullyUnique xpathSelect tree r) (candidateXPaths tree r)) as [u|] eqn:Ef.
  - split; [|intros [H _]; discriminate].
    intros H. injection H as H.
    destruct (candidate_shape tree r u (proj1 (find_some _ _ Ef))) as [rest' Eu].
    congruence.
  - destruct (tagNameUnique xpathSelect tree r).
    + split; [|intros [_ H]; discriminate].
      intros H. injection H as H. destruct (tagNameXPath_shape tree r) as [rest' Et]. congruence.
    + rewrite Hs. split; auto.
Qed.

End GenericPath.

(* ------------------------------------------------------------------ *)
(** ** Objects *)

Module ObjFacts.

Lemma get_In {V} (k : string) (o : Js.Obj V) (v : V) : Js.get k o = Some v -> In (k, v) o.
Proof.
  induction o as [|[k' v'] o IH]; cbn [Js.get]; [discriminate|].
  destruct (String.eqb_spec k' k) as [->|]; intros H.
  - injection H as ->. now left.
  - right. now apply IH.
Qed.

Lemma In_set {V} (k : string) (v : V) (o : Js.Obj V) (kv : string * V) :
  In kv (Js.set k v o) -> kv = (k, v) \/ In kv o.
Proof.
  induction o as [|[k' v'] o IH]; cbn [Js.set].
  - intros [<-|[]]. now left.
  - destruct (String.eqb_spec k' k) as [->|].
    + intros [<-|H]; [now left | right; now right].
    + intros [<-|H]; [right; now left|]. destruct (IH H); [now left | right; now right].
Qed.

Lemma In_assign {V} (pairs : list (string * V)) :
  forall (a : Js.Obj V) kv, In kv (Js.assign a pairs) -> In kv a \/ In kv pairs.
Proof.
  unfold Js.assign. induction pairs as [|[k v] pairs IH]; intros a kv H; cbn [fold_left] in H.
  - now left.
  - destruct (IH _ _ H) as [H'|H']; [|right; now right].
    cbn [fst snd] in H'. destruct (In_set _ _ _ _ H') as [->|]; [right; now left | now left].
Qed.

Lemma get_set_other {V} (k k' : string) (v : V) (o : Js.Obj V) :
  k <> k' -> Js.get k (Js.set k' v o) = Js.get k o.
Proof.
  intros Hne. induction o as [|[k0 v0] o IH]; cbn [Js.set Js.get].
  - destruct (String.eqb_spec k' k); [congruence | reflexivity].
  - destruct (String.eqb_spec k0 k') as [->|]; cbn [Js.get].
    + destruct (String.eqb_spec k' k); [congruence | reflexivity].
    + destruct (String.eqb_spec k0 k); [reflexivity | exact IH].
Qed.

Lemma get_assign_other {V} (k : string) (pairs : list (string * V)) :
  ~ In k (map fst pairs) -> forall a : Js.Obj V, Js.get k (Js.assign a pairs) = Js.get k a.
Proof.
  unfold Js.assign. induction pairs as [|[k' v'] pairs IH]; intros Hk a; [reflexivity|].
  cbn [fold_left fst snd map In] in *. rewrite IH by tauto. apply get_set_other.
  intros ->. tauto.
Qed.

End ObjFacts.

(* ------------------------------------------------------------------ *)
(** ** The ranker *)

Section Ranker.

Variable xpathSelect : XPath.Engine.

Lemma simpleLocatorsLoop_inv (attrs : Js.Obj string) (doc : option XMLNode) (isNative : bool)
    (mappings : list (string * string)) :
  forall res res',
    simpleLocatorsLoop xpathSelect mappings attrs doc isNative res = Ok res' ->
    (forall k v, In (k, v) res' ->
       In (k, v) res \/
       exists alias, In (alias, k) mappings /\ Js.get alias attrs = Some v
                     /\ Js.truthy v = true
                     /\ areAttrAndValueUnique xpathSelect alias v doc = Ok true).
Proof.
  induction mappings as [|[alias strategy] mappings IH]; intros res res' H k v Hin;
    cbn [simpleLocatorsLoop] in H.
  - injection H as <-. now left.
  - assert (Hrest : forall res0,
              simpleLocatorsLoop xpathSelect mappings attrs doc isNative res0 = Ok res' ->
              In (k, v) res0 \/
              exists alias0, In (alias0, k) ((alias, strategy) :: mappings) /\
                             Js.get alias0 attrs = Some v /\ Js.truthy v = true /\
                             areAttrAndValueUnique xpathSelect alias0 v doc = Ok true).
    { intros res0 H0. destruct (IH _ _ H0 k v Hin) as [Hl|(a0 & Ha & Hg)]; [now left|].
      right. exists a0. split; [now right | exact Hg]. }
    destruct (negb ((strategy =? "accessibility id") && negb isNative)); [|
      destruct (Hrest _ H); auto].
    destruct (Js.get alias attrs) as [value|] eqn:Eg; [|destruct (Hrest _ H); auto].
    destruct (Js.truthy value) eqn:Et; [|destruct (Hrest _ H); auto].
    destruct (areAttrAndValueUnique xpathSelect alias value doc) as [[|]|err] eqn:Eu;
      cbn [Js.bind] in H; try discriminate.
    + destruct (Hrest _ H) as [Hl|Hr]; [|now right].
      destruct (ObjFacts.In_set _ _ _ _ Hl) as [E|Hl']; [|now left].
      injection E as -> ->. right. exists alias. split; [now left | now repeat split].
    + destruct (Hrest _ H); auto.
Qed.

Lemma simple_keys (attrs : Js.Obj string) (doc : option XMLNode) (isNative : bool)
    (simple : Js.Obj string) :
  getSimpleSuggestedLocators xpathSelect attrs doc isNative = Ok simple ->
  forall k v, In (k, v) simple -> In k simpleKeys /\ Js.truthy v = true.
Proof.
  intros H k v Hin.
  destruct (simpleLocatorsLoop_inv _ _ _ _ _ _ H k v Hin) as [[]|(alias & Ha & _ & Ht & _)].
  split; [|exact Ht].
  unfold SIMPLE_STRATEGY_MAPPINGS in Ha. cbn [In] in Ha.
  repeat (destruct Ha as [Ha|Ha]; [injection Ha as _ <-; cbn; tauto|]). contradiction.
Qed.

Lemma complex_keys_ios (path : list nat) (doc : XMLNode) (isNative : bool)
    (automationName : string) (complex : Js.Obj string) (log : Log) :
  isPredicatePlatform isNative automationName = true ->
  getComplexSuggestedLocators xpathSelect path doc isNative automationName = Ok (complex, log) ->
  forall k, In k (map fst complex) -> In k iosComplexKeys.
Proof.
  unfold isPredicatePlatform. intros Hp H k Hk.
  apply andb_true_iff in Hp as [-> Hp].
  unfold getComplexSuggestedLocators in H.
  destruct (findDOMNodeByPath path doc) as [domNode|]; cbn [Js.bind] in H; [|discriminate].
  rewrite Hp in H.
  destruct (getOptimalClassChain xpathSelect doc domNode) as [cc lc].
  destruct (getOptimalPredicateString xpathSelect doc domNode) as [ps lp].
  destruct (getOptimalXPath xpathSelect doc domNode) as [xp lx].
  injection H as <- _.
  unfold iosComplexKeys.
  destruct cc as [c|]; [destruct (Js.truthy c)|]; destruct ps, xp; cbn in Hk |- *; tauto.
Qed.

Lemma filter_none {A} (f : A -> bool) (l : list A) :
  (forall x, In x l -> f x = false) -> filter f l = [].
Proof.
  induction l as [|x l IH]; intros H; [reflexivity|].
  cbn [filter]. rewrite (H x (or_introl eq_refl)). apply IH.
  intros y Hy. apply H. now right.
Qed.

Lemma sortLocators_within (priorityOrder : list string) (allLocators : Js.Obj string) :
  (forall k, In k (map fst allLocators) -> In k priorityOrder) ->
  sortLocators priorityOrder allLocators
  = flat_map (fun strategy =>
       match Js.get strategy allLocators with
       | Some value => if Js.truthy value then [(strategy, value)] else []
       | None => []
       end) priorityOrder.
Proof.
  intros H. unfold sortLocators.
  replace (filter (fun sv => negb (includesStr priorityOrder (fst sv))) allLocators)
    with (@nil (string * string)); [apply app_nil_r|].
  symmetry. apply filter_none.
  intros [k v] Hin. cbn [fst]. apply negb_false_iff. unfold includesStr.
  apply existsb_exists. exists k. split; [|apply String.eqb_refl].
  apply H. now apply (in_map fst _ (k, v)).
Qed.

End Ranker.

(* ------------------------------------------------------------------ *)
(** ** The JSON tree and the traversal *)

Lemma translateRecursively_eq (n : XMLNode) (parentPath : list nat) (index : option nat) :
  translateRecursively n parentPath index
  = mkJSONElement (translateChildren (pathOf parentPath index) (childNodes n) 0)
      (nodeName n) (translateAttributes n) (pathOf parentPath index).
Proof.
  assert (G : forall cs k,
    (fix go (cs : list XMLNode) (childIndex : nat) : list JSONElement :=
       match cs with
       | [] => []
       | childNode :: cs' =>
           if Nat.eqb (nodeType childNode) ELEMENT_NODE
           then translateRecursively childNode (pathOf parentPath index) (Some childIndex)
                  :: go cs' (S childIndex)
           else go cs' childIndex
       end) cs k = translateChildren (pathOf parentPath index) cs k).
  { induction cs as [|c cs IH]; intros k; [reflexivity|]. cbn [translateChildren].
    destruct (Nat.eqb (nodeType c) ELEMENT_NODE); now rewrite IH. }
  destruct n; cbn [translateRecursively childNodes]; now rewrite ?G.
Qed.

Lemma jsonNodes_eq (e : JSONElement) :
  jsonNodes e = e :: flat_map jsonNodes (children e).
Proof.
  destruct e as [cs t a p]. reflexivity.
Qed.

Lemma stApp_empty_r (a : State) : stApp a emptyState = a.
Proof. destruct a. unfold stApp. cbn. now rewrite !app_nil_r. Qed.

Lemma stApp_assoc (a b c : State) : stApp (stApp a b) c = stApp a (stApp b c).
Proof. unfold stApp. cbn. now rewrite !app_assoc. Qed.

Section Traversal.

Variable xpathSelect : XPath.Engine.
Variables (sourceDoc : XMLNode) (isNative : bool) (automationName : string)
          (filters : FilterOptions).

Local Abbreviation process e :=
  (processElement xpathSelect e sourceDoc isNative automationName filters).
Local Abbreviation traverse e :=
  (traverseElement xpathSelect e sourceDoc isNative automationName filters).
Local Abbreviation traverseAll cs :=
  (traverseChildren xpathSelect sourceDoc isNative automationName filters cs).

Lemma traverseElement_eq (e : JSONElement) (st : State) :
  traverse e st = traverseAll (children e) (process e st).
Proof.
  destruct e as [cs t a p]. cbn [traverseElement children].
  generalize (processElement xpathSelect (mkJSONElement cs t a p) sourceDoc isNative
                automationName filters st).
  induction cs as [|c cs IH]; intros s; [reflexivity|].
  cbn [traverseChildren]. apply IH.
Qed.

Lemma process_acc (e : JSONElement) (st : State) :
  process e st = stApp st (process e emptyState).
Proof.
  unfold processElement, stApp, emptyState. destruct st as [res log].
  destruct (negb (shouldIncludeElement e filters isNative automationName)).
  - cbn. now rewrite !app_nil_r.
  - destruct (getSuggestedLocators xpathSelect e sourceDoc isNative automationName)
      as [[locs lg]|err]; cbn; now rewrite ?app_nil_r.
Qed.

Lemma traverseChildren_acc (cs : list JSONElement) :
  Forall (fun c => forall st, traverse c st = stApp st (traverse c emptyState)) cs ->
  forall st, traverseAll cs st = stApp st (traverseAll cs emptyState).
Proof.
  induction 1 as [|c cs Hc _ IH]; intros st; cbn [traverseChildren].
  - now rewrite stApp_empty_r.
  - rewrite IH, (IH (traverse c emptyState)), Hc. apply stApp_assoc.
Qed.

Lemma traverse_acc (e : JSONElement) :
  forall st, traverse e st = stApp st (traverse e emptyState).
Proof.
  induction e as [cs t a p IH] using JSONElement_tree_ind. intros st.
  rewrite !traverseElement_eq. cbn [children].
  rewrite (traverseChildren_acc cs IH), (traverseChildren_acc cs IH (process _ emptyState)).
  rewrite process_acc. apply stApp_assoc.
Qed.

Lemma traverseChildren_results (cs : list JSONElement) :
  fst (traverseAll cs emptyState)
  = flat_map (fun c => fst (traverse c emptyState)) cs.
Proof.
  induction cs as [|c cs IH]; [reflexivity|]. cbn [traverseChildren flat_map].
  rewrite traverseChildren_acc by (apply Forall_forall; intros; apply traverse_acc).
  cbn [stApp fst]. now rewrite IH.
Qed.

(** The results of a subtree: the node's own, then those of its children, each
    as if traversed alone. *)
Lemma traverse_results (e : JSONElement) (st : State) :
  fst (traverse e st)
  = (fst st ++ fst (process e emptyState)
       ++ flat_map (fun c => fst (traverse c emptyState)) (children e))%list.
Proof.
  rewrite traverse_acc, traverseElement_eq.
  rewrite traverseChildren_acc by (apply Forall_forall; intros; apply traverse_acc).
  cbn [stApp fst]. now rewrite traverseChildren_results.
Qed.

Lemma process_filtered (e : JSONElement) (st : State) :
  shouldIncludeElement e filters isNative automationName = false -> process e st = st.
Proof. intros H. unfold processElement. now rewrite H. Qed.

Lemma process_results (e : JSONElement) (x : ElementWithLocators) :
  In x (fst (process e emptyState)) ->
  ewlTagName x = tagName e /\ shouldIncludeElement e filters isNative automationName = true.
Proof.
  unfold processElement.
  destruct (shouldIncludeElement e filters isNative automationName); cbn [negb];
    [|contradiction].
  destruct (getSuggestedLocators xpathSelect e sourceDoc isNative automationName)
    as [[locs lg]|err]; cbn; [|contradiction].
  intros [<-|[]]. now split.
Qed.

Lemma traverse_results_from (e : JSONElement) (x : ElementWithLocators) :
  In x (fst (traverse e emptyState)) ->
  exists e', In e' (jsonNodes e) /\ ewlTagName x = tagName e'
             /\ shouldIncludeElement e' filters isNative automationName = true.
Proof.
  induction e as [cs t a p IH] using JSONElement_tree_ind. intros H.
  rewrite traverse_results in H. cbn [fst emptyState app children] in H.
  rewrite jsonNodes_eq. cbn [children].
  apply in_app_or in H as [H|H].
  - destruct (process_results _ _ H) as [H1 H2]. eexists. split; [now left | now split].
  - apply in_flat_map in H as (c & Hc & H). rewrite Forall_forall in IH.
    destruct (IH c Hc H) as (e' & He' & Hx). exists e'. split; [|exact Hx].
    right. apply in_flat_map. now exists c.
Qed.

End Traversal.

Lemma excluded_not_included (e : JSONElement) (filters : FilterOptions) (isNative : bool)
    (automationName : string) (excluded : list string) :
  excludeTagNames filters = Some excluded ->
  shouldIncludeElement e filters isNative automationName = true ->
  ~ In (tagName e) excluded.
Proof.
  intros He H Hin. unfold shouldIncludeElement in H. rewrite He in H. cbn [orDefault] in H.
  assert (Hm : matchesTagFilters e (orDefault (includeTagNames filters) []) excluded = false).
  { unfold matchesTagFilters.
    assert (Hx : includesStr excluded (tagName e) = true).
    { unfold includesStr. apply existsb_exists. exists (tagName e).
      split; [exact Hin | apply String.eqb_refl]. }
    rewrite Hx. match goal with |- (if ?c then _ else _) = _ => destruct c end; reflexivity. }
  rewrite Hm in H. discriminate.
Qed.

(* ------------------------------------------------------------------ *)
(** ** Attribute values in the JSON tree *)

(** The loop that fills the attributes object stores what Object.assign
    would, from the attributes that are not named __proto__. *)
Lemma translateAttributes_stored (attrs : list (string * string)) :
  forall acc,
    fold_left (fun attributes attr =>
                 Js.assignProperty (fst attr) (Js.escapeNewlines (snd attr)) attributes)
              attrs acc
    = Js.assign acc
        (map (fun attr => (fst attr, Js.escapeNewlines (snd attr)))
             (filter (fun attr => negb (fst attr =? "__proto__")) attrs)).
Proof.
  unfold Js.assign.
  induction attrs as [|[k v] attrs IH]; intros acc; [reflexivity|].
  cbn [fold_left filter fst snd]. unfold Js.assignProperty at 2.
  destruct (k =? "__proto__"); cbn [negb map fold_left fst snd]; apply IH.
Qed.

Lemma translateAttributes_from (n : XMLNode) (k v : string) :
  In (k, v) (translateAttributes n) ->
  exists v0, In (k, v0) (match n with ElementNode _ attrs _ => attrs | _ => [] end)
             /\ v = Js.escapeNewlines v0.
Proof.
  destruct n as [cs | t attrs cs | t ty]; cbn [translateAttributes]; try contradiction.
  rewrite translateAttributes_stored. intros H. apply ObjFacts.In_assign in H as [[]|H].
  apply in_map_iff in H as ([k0 v0] & E & Hin). cbn [fst snd] in E.
  injection E as <- <-. apply filter_In in Hin as [Hin _]. now exists v0.
Qed.

Lemma translateRecursively_attributes (n : XMLNode) (parentPath : list nat)
    (index : option nat) :
  attributes (translateRecursively n parentPath index) = translateAttributes n.
Proof. now rewrite translateRecursively_eq. Qed.

Lemma translate_newline_free (n : XMLNode) :
  forall parentPath index,
    Forall NewlineFree (jsonNodes (translateRecursively n parentPath index)).
Proof.
  induction n as [cs IH | t attrs cs IH | t ty] using XMLNode_tree_ind;
    intros parentPath index; rewrite jsonNodes_eq; constructor.
  all: try (intros k v H; rewrite translateRecursively_attributes in H;
            apply translateAttributes_from in H as (v0 & _ & ->);
            apply escapeNewlines_clean).
  all: rewrite translateRecursively_eq; cbn [children childNodes]; try constructor.
  all: generalize 0 as k; generalize (pathOf parentPath index) as p.
  all: induction IH as [|c cs Hc _ IHcs]; intros p k; cbn [translateChildren flat_map];
       [constructor|].
  all: destruct (Nat.eqb (nodeType c) ELEMENT_NODE); [|apply IHcs].
  all: cbn [flat_map]; apply Forall_app; split; [apply Hc | apply IHcs].
Qed.

Lemma get_newline_free (e : JSONElement) (k : string) :
  NewlineFree e -> Js.hasChar Js.newlineChar (Js.orEmpty (Js.get k (attributes e))) = false.
Proof.
  intros H. destruct (Js.get k (attributes e)) as [v|] eqn:E; [|reflexivity].
  cbn [Js.orEmpty]. destruct (Js.truthy v); [|reflexivity].
  exact (H k v (ObjFacts.get_In _ _ _ E)).
Qed.

(* ------------------------------------------------------------------ *)
(** ** Generators on an undefined node *)

Section Undefined.

Variable xpathSelect : XPath.Engine.

Lemma complex_of_undefined (path : list nat) (doc : XMLNode) (isNative : bool)
    (automationName : string) :
  findDOMNodeByPath path doc = Ok None ->
  exists log, In (LocatorError "XPath" Js.TypeError) log /\
    getComplexSuggestedLocators xpathSelect path doc isNative automationName = Ok ([], log).
Proof.
  intros H. unfold getComplexSuggestedLocators. rewrite H. cbn [Js.bind].
  cbn [getOptimalClassChain getOptimalPredicateString getOptimalUiAutomatorSelector
       getOptimalXPath].
  destruct isNative;
    [destruct ((automationName =? "xcuitest") || (automationName =? "mac2"));
       [|destruct (automationName =? "uiautomator2")]|];
    eexists; (split; [|reflexivity]); cbn; tauto.
Qed.

End Undefined.

(* ------------------------------------------------------------------ *)
(** ** The uniqueness oracle: claims *)

Lemma wellNamed_sound (tree : XMLNode) : wellNamed tree = true -> WellNamed tree.
Proof.
  unfold wellNamed. intros H r t attrs cs Hr.
  rewrite forallb_forall in H.
  destruct r as [|i p].
  - cbn [nodeAt] in Hr. injection Hr as ->.
    exact (H ([], ElementNode t attrs cs) (or_introl eq_refl)).
  - apply (H (i :: p, ElementNode t attrs cs)). right.
    apply nodeAt_descendant; [discriminate | exact Hr].
Qed.

Lemma quoteFree_sound (attrs : list (string * string)) :
  quoteFree attrs = true ->
  forall a v, In (a, v) attrs -> Js.hasChar Js.dquoteChar v = false.
Proof.
  unfold quoteFree. intros H a v Hin. rewrite forallb_forall in H.
  apply negb_true_iff. exact (H (a, v) Hin).
Qed.



(** C1, as amended.  Take an element of a tree whose element names are plain
    names and whose own attribute values hold no double quote.  If
    areAttrAndValueUnique accepts one of the attributes the simple strategies
    read, the value holding no line feed, then exactly one element of the tree
    carries that attribute with the emitted value, and it is this element.  If
    moreover the element is in no namespace and getUniqueXPath returns an
    expression as fully unique, in particular when the loop of getOptimalXPath
    returns from inside, evaluating the expression on the tree yields exactly
    this element. *)
Theorem unique_candidates_select_their_node
    (tree : XMLNode) (r : DomRef) (tag : string) (attrs : list (string * string))
    (cs : list XMLNode) :
  wellNamed tree = true ->
  r <> [] ->
  nodeAt tree r = Some (ElementNode tag attrs cs) ->
  quoteFree attrs = true ->
  (forall a strategy v,
      In (a, strategy) SIMPLE_STRATEGY_MAPPINGS -> In (a, v) attrs ->
      Js.hasChar Js.newlineChar v = false ->
      areAttrAndValueUnique XPathEngine.select a (Js.escapeNewlines v) (Some tree) = Ok true ->
      XPathEngine.elementsWithAttr a (Js.escapeNewlines v) tree = [r])
  /\ (Js.truthy (namespaceURI tree r) = false ->
      (forall given xp,
          attrNamesValid given = true ->
          getUniqueXPath XPathEngine.select tree r given = (Some xp, Some true) ->
          XPathEngine.select xp tree = XPath.NodeSet [r])
      /\ (forall xp,
            casesLoop XPathEngine.select tree r xpathCases None = inl xp ->
            XPathEngine.select xp tree = XPath.NodeSet [r])).
Proof.
  intros Hw Hr Hnode Hq.
  pose proof (wellNamed_sound tree Hw) as Hnamed.
  pose proof (quoteFree_sound attrs Hq) as Hquotes.
  split; [|intros Hplain; split].
  - intros a strategy v Halias. apply (Oracle.simple_sound tree r tag attrs cs); auto.
    unfold SIMPLE_STRATEGY_MAPPINGS in Halias. cbn [In] in Halias.
    repeat (destruct Halias as [E|Halias]; [injection E as <- _; reflexivity|]).
    contradiction.
  - intros given xp. now apply (Oracle.getUniqueXPath_sound tree r tag attrs cs).
  - intros xp H.
    destruct (Oracle.casesLoop_inl tree r xpathCases None xp H) as (given & Hin & Hg).
    apply (Oracle.getUniqueXPath_sound tree r tag attrs cs Hnamed Hr Hnode Hquotes Hplain
             given xp); [|exact Hg].
    cbn [xpathCases In] in Hin.
    repeat (destruct Hin as [<-|Hin]; [reflexivity|]). contradiction.
Qed.

Lemma unique_candidates_select_their_node_witness :
  XPathEngine.elementsWithAttr "resource-id" "com.example:id/button" Samples.androidPage
    = [[1; 0; 0; 0]]
  /\ XPathEngine.select ("//android.widget.Button[@resource-id=" ++ Js.dquote
        ++ "com.example:id/button" ++ Js.dquote ++ "]") Samples.androidPage
     = XPath.NodeSet [[1; 0; 0; 0]].
Proof.
  destruct (unique_candidates_select_their_node Samples.androidPage [1; 0; 0; 0]
              "android.widget.Button"
              [("text", "Click Me"); ("resource-id", "com.example:id/button");
               ("clickable", "true"); ("enabled", "true"); ("displayed", "true")] [])
    as (Hsimple & Hplain);
    [reflexivity | discriminate | reflexivity | reflexivity |].
  destruct (Hplain eq_refl) as (_ & Hpath).
  split.
  - apply (Hsimple "resource-id" "id" "com.example:id/button");
      [do 4 right; now left | right; now left | reflexivity | reflexivity].
  - apply Hpath. reflexivity.
Defined.

(** C1 as stated fails: both buttons of the sample carry the name a, double
    quote, b; the check looks for the name ab, finds no element and accepts the
    attribute for the first button, yet two elements carry the emitted value. *)
Lemma uniqueness_soundness_fails_on_quoted_value :
  ~ (forall (tree : XMLNode) (r : DomRef) tag attrs cs a v,
       r <> [] ->
       nodeAt tree r = Some (ElementNode tag attrs cs) ->
       In (a, v) attrs ->
       areAttrAndValueUnique XPathEngine.select a (Js.escapeNewlines v) (Some tree) = Ok true ->
       XPathEngine.elementsWithAttr a (Js.escapeNewlines v) tree = [r]).
Proof.
  intros H.
  specialize (H Samples.twoQuotedButtons [0; 0] "Button" [("name", Samples.quotedName)] []
                "name" Samples.quotedName).
  assert (E : XPathEngine.elementsWithAttr "name" (Js.escapeNewlines Samples.quotedName)
                Samples.twoQuotedButtons = [[0; 0]]).
  { apply H; [discriminate | reflexivity | now left | reflexivity]. }
  vm_compute in E. discriminate E.
Qed.

(** On that sample the engine emits the accessibility id for both buttons. *)
Example quoted_name_marked_unique_twice :
  map (fun e => Js.get "accessibility id" (locators e))
      (fst (generateAllElementLocators XPathEngine.select Samples.twoQuotedButtons true
              "xcuitest" noFilters))
  = [Some Samples.quotedName; Some Samples.quotedName].
Proof. reflexivity. Qed.

(** Why the element has to be in no namespace: below a default namespace
    declaration an expression with a name test selects nothing, and
    determineXpathUniqueness answers true on no match as on one.  The names are
    plain and no value holds a double quote, yet the expression returned as
    fully unique for the first element selects no node. *)
Example default_namespace_expression_selects_nothing :
  wellNamed Samples.defaultNamespace = true
  /\ nodeAt Samples.defaultNamespace [0; 0] = Some (ElementNode "a" [("id", "n")] [])
  /\ namespaceURI Samples.defaultNamespace [0; 0] = "http://example.com/ns"
  /\ getUniqueXPath XPathEngine.select Samples.defaultNamespace [0; 0]
       (Names UNIQUE_XPATH_ATTRIBUTES)
     = (Some ("//a[@id=" ++ Js.dquote ++ "n" ++ Js.dquote ++ "]"), Some true)
  /\ getOptimalXPath XPathEngine.select Samples.defaultNamespace (Some [0; 0])
     = (Some ("//a[@id=" ++ Js.dquote ++ "n" ++ Js.dquote ++ "]"), [])
  /\ XPathEngine.select ("//a[@id=" ++ Js.dquote ++ "n" ++ Js.dquote ++ "]")
       Samples.defaultNamespace = XPath.NodeSet [].
Proof. repeat split. Qed.

(* ------------------------------------------------------------------ *)
(** ** The ranker: claims *)

(** C2.  On a native predicate-string platform (xcuitest or mac2) the list
    getSuggestedLocators returns holds, in the order id, accessibility id,
    -ios predicate string, -ios class chain, xpath, class name, exactly the
    strategies that have a non-empty candidate among the simple and the complex
    locators of the node, and nothing else; when the simple locators hold both
    an id and an accessibility id, the list begins with the id, followed by the
    accessibility id. *)
Theorem predicate_platform_priority_order
    (xpathSelect : XPath.Engine) (selectedElement : JSONElement) (sourceDoc : XMLNode)
    (isNative : bool) (automationName : string)
    (sorted : list (string * string)) (log : Log) :
  isPredicatePlatform isNative automationName = true ->
  getSuggestedLocators xpathSelect selectedElement sourceDoc isNative automationName
    = Ok (sorted, log) ->
  exists simple complex,
    getSimpleSuggestedLocators xpathSelect (attributes selectedElement) (Some sourceDoc) isNative
      = Ok simple
    /\ getComplexSuggestedLocators xpathSelect (path selectedElement) sourceDoc isNative
         automationName = Ok (complex, log)
    /\ sorted
       = flat_map (fun strategy =>
           match Js.get strategy (Js.assign simple complex) with
           | Some value => if Js.truthy value then [(strategy, value)] else []
           | None => []
           end)
           ["id"; "accessibility id"; "-ios predicate string"; "-ios class chain"; "xpath";
            "class name"]
    /\ (forall idValue accessibilityValue,
          Js.get "id" simple = Some idValue ->
          Js.get "accessibility id" simple = Some accessibilityValue ->
          exists rest,
            sorted = ("id", idValue) :: ("accessibility id", accessibilityValue) :: rest).
Proof.
  intros Hp H. unfold getSuggestedLocators in H.
  destruct (getSimpleSuggestedLocators xpathSelect (attributes selectedElement)
              (Some sourceDoc) isNative) as [simple|] eqn:Es; cbn [Js.bind] in H;
    [|discriminate].
  destruct (getComplexSuggestedLocators xpathSelect (path selectedElement) sourceDoc
              isNative automationName) as [[complex lg]|] eqn:Ec; cbn [Js.bind fst snd] in H;
    [|discriminate].
  injection H as Hs <-. exists simple, complex.
  assert (Hprio : priorityOrderFor isNative automationName = iosPriorityOrder).
  { unfold priorityOrderFor. unfold isPredicatePlatform in Hp. now rewrite Hp. }
  rewrite Hprio in Hs.
  pose proof (complex_keys_ios _ _ _ _ _ _ _ Hp Ec) as Hck.
  assert (Hsorted : sorted
            = flat_map (fun strategy =>
                match Js.get strategy (Js.assign simple complex) with
                | Some value => if Js.truthy value then [(strategy, value)] else []
                | None => []
                end) iosPriorityOrder).
  { rewrite <- Hs. apply sortLocators_within. intros k Hk.
    apply in_map_iff in Hk as ([k' v] & <- & Hin). cbn [fst].
    apply ObjFacts.In_assign in Hin as [Hin|Hin].
    - destruct (simple_keys _ _ _ _ _ Es k' v Hin) as [Hkey _].
      unfold simpleKeys in Hkey. unfold iosPriorityOrder. cbn [In] in Hkey |- *. tauto.
    - pose proof (Hck k' (in_map fst _ _ Hin)) as Hkey.
      unfold iosComplexKeys in Hkey. unfold iosPriorityOrder. cbn [In] in Hkey |- *. tauto. }
  repeat split; [exact Hsorted|].
  intros idValue accessibilityValue Hid Hacc.
  assert (Hother : forall k, In k simpleKeys ->
            Js.get k (Js.assign simple complex) = Js.get k simple).
  { intros k Hk. apply ObjFacts.get_assign_other. intros Hin. apply Hck in Hin.
    unfold simpleKeys in Hk. unfold iosComplexKeys in Hin. cbn [In] in Hk, Hin.
    repeat (destruct Hk as [<-|Hk]; [repeat (destruct Hin as [Hin|Hin]; [discriminate|]);
                                      contradiction|]).
    contradiction. }
  rewrite Hsorted. unfold iosPriorityOrder. cbn [flat_map].
  rewrite (Hother "id"), (Hother "accessibility id"), Hid, Hacc by (cbn; tauto).
  destruct (simple_keys _ _ _ _ _ Es _ _ (ObjFacts.get_In _ _ _ Hid)) as [_ ->].
  destruct (simple_keys _ _ _ _ _ Es _ _ (ObjFacts.get_In _ _ _ Hacc)) as [_ ->].
  cbn [app]. eauto.
Qed.

Lemma predicate_platform_priority_order_witness :
  exists rest,
    [("id", "done-button"); ("accessibility id", "Done");
     ("-ios predicate string", "name == " ++ Js.dquote ++ "Done" ++ Js.dquote);
     ("-ios class chain",
      "**/XCUIElementTypeButton[`name == " ++ Js.dquote ++ "Done" ++ Js.dquote ++ "`]");
     ("xpath", "//XCUIElementTypeButton[@name=" ++ Js.dquote ++ "Done" ++ Js.dquote ++ "]")]
    = ("id", "done-button") :: ("accessibility id", "Done") :: rest.
Proof.
  destruct (predicate_platform_priority_order XPathEngine.select
              (mkJSONElement [] "XCUIElementTypeButton"
                 [("name", "Done"); ("id", "done-button")] [0])
              Samples.iosPage true "xcuitest" _ [] eq_refl eq_refl)
    as (simple & complex & Hs & _ & _ & Hfirst).
  injection Hs as <-.
  exact (Hfirst "done-button" "Done" eq_refl eq_refl).
Defined.

(* ------------------------------------------------------------------ *)
(** ** The generic path strategy: claims *)

(** C6.  For an element, with the attribute-based candidates taken in tier
    order and then attribute order: a fully unique candidate, the first one, is
    what getOptimalXPath returns; when none is fully unique and the name alone
    is, the tag-name expression is returned; and when some candidate is
    semi-unique, the first such one, in its indexed form, is returned exactly
    when no candidate and no tag name is fully unique. *)
Theorem first_semi_unique_kept_as_fallback
    (xpathSelect : XPath.Engine) (tree : XMLNode) (r : DomRef) (n : XMLNode) :
  nodeAt tree r = Some n ->
  Js.truthy (nodeName n) = true ->
  nodeType n = 1 ->
  (forall u,
      find (fullyUnique xpathSelect tree r) (candidateXPaths tree r) = Some u ->
      getOptimalXPath xpathSelect tree (Some r) = (Some u, []))
  /\ (find (fullyUnique xpathSelect tree r) (candidateXPaths tree r) = None ->
      tagNameUnique xpathSelect tree r = true ->
      getOptimalXPath xpathSelect tree (Some r) = (Some (tagNameXPath tree r), []))
  /\ (forall s,
        firstSome (semiUnique xpathSelect tree r) (candidateXPaths tree r) = Some s ->
        (getOptimalXPath xpathSelect tree (Some r) = (Some s, [])
         <-> find (fullyUnique xpathSelect tree r) (candidateXPaths tree r) = None
             /\ tagNameUnique xpathSelect tree r = false)).
Proof.
  intros Hnode Hname Htype. cbn [getOptimalXPath]. split; [|split].
  - intros u. now apply (unique_candidate_returned xpathSelect tree r n).
  - now apply (unique_tag_returned xpathSelect tree r n).
  - intros s. now apply (first_semi_returned xpathSelect tree r n).
Qed.

Lemma first_semi_unique_kept_as_fallback_witness :
  getOptimalXPath XPathEngine.select Samples.twoSameId (Some [1; 0])
  = (Some ("(//Button[@id=" ++ Js.dquote ++ "x" ++ Js.dquote ++ "])[2]"), []).
Proof.
  destruct (first_semi_unique_kept_as_fallback XPathEngine.select Samples.twoSameId [1; 0]
              (ElementNode "Button" [("id", "x")] []) eq_refl eq_refl eq_refl)
    as (_ & _ & Hsemi).
  apply (Hsemi ("(//Button[@id=" ++ Js.dquote ++ "x" ++ Js.dquote ++ "])[2]") eq_refl).
  split; reflexivity.
Defined.

(** C7, what the code does.  The claim and the comment in getUniqueXPath ask
    for the single-slash form when the uniquely named node is the root.  On the
    sample the first child is located through the root, whose name is unique
    in the document and whose parent is the document; the expression for the
    root is the search form with two slashes all the same. *)
Theorem root_tag_uses_search_form :
  findDOMNodeByPath [0] Samples.twoPlainChildren = Ok (Some [1; 0])
  /\ getOptimalXPath XPathEngine.select Samples.twoPlainChildren (Some [1; 0])
     = (Some "//hierarchy/a[1]", [])
  /\ getUniqueXPath XPathEngine.select Samples.twoPlainChildren [0] (Names [])
     = (Some "//hierarchy", Some true)
  /\ parentNode [0] = Some []
  /\ nodeAt Samples.twoPlainChildren [] = Some Samples.twoPlainChildren.
Proof. repeat split. Qed.

(** The single-slash form is returned only for a node without a parent or
    with a parent whose nodeName is empty; the parent of the root element is
    the document, whose nodeName is #document. *)
Lemma tag_tier_on_child_of_document
    (xpathSelect : XPath.Engine) (kids : list XMLNode) (i : nat) :
  getUniqueXPath xpathSelect (DocumentNode kids) [i] (Names [])
  = (if tagNameUnique xpathSelect (DocumentNode kids) [i]
     then (Some ("//" ++ nameOf (DocumentNode kids) [i]), Some true)
     else (None, None)).
Proof.
  unfold getUniqueXPath, tagNameUnique, fullyUnique. cbn [attrsLength length Nat.eqb].
  cbn [parentNode]. unfold nameOf at 3. cbn [nodeAt nodeName Js.truthy]. reflexivity.
Qed.

(** The tag-name tier has no semi-unique variant: it returns a fully unique
    expression or nothing. *)
Lemma tag_tier_never_semi_unique
    (xpathSelect : XPath.Engine) (tree : XMLNode) (r : DomRef) :
  snd (getUniqueXPath xpathSelect tree r (Names [])) <> Some false.
Proof.
  unfold getUniqueXPath. cbn [attrsLength length Nat.eqb].
  destruct (fst (determineXpathUniqueness xpathSelect ("//" ++ nameOf tree r) tree r));
    [|discriminate].
  destruct (parentNode r) as [p|]; [destruct (Js.truthy (nameOf tree p))|]; discriminate.
Qed.

(* ------------------------------------------------------------------ *)
(** ** The scoped-selector strategy: claims *)

(** C8.  For a target that is undefined or a named element,
    getOptimalUiAutomatorSelector returns null whenever the first index of the
    path is not the index of the last element child of the hierarchy. *)
Theorem uiautomator_only_inside_last_child
    (xpathSelect : XPath.Engine) (doc : XMLNode) (domNode : option DomRef) (path : list nat) :
  (forall r, domNode = Some r ->
     exists t attrs cs, nodeAt doc r = Some (ElementNode t attrs cs) /\ Js.truthy t = true) ->
  hd_error path <> Some (length (hierarchyChildrenOf doc) - 1) ->
  fst (getOptimalUiAutomatorSelector xpathSelect doc domNode path) = None.
Proof.
  intros Hel Hpath. unfold getOptimalUiAutomatorSelector.
  destruct domNode as [r|]; [|reflexivity].
  destruct (Hel r eq_refl) as (t & attrs & cs & Hn & Ht). rewrite Hn.
  cbn [nodeName nodeType Nat.eqb negb orb]. rewrite Ht. cbn [negb orb].
  destruct (hierarchyChildrenOf doc) as [|c0 rest] eqn:Eh; [reflexivity|].
  destruct path as [|i path']; [reflexivity|].
  cbn [hd_error] in Hpath.
  destruct (Nat.eqb_spec i (length (c0 :: rest) - 1)) as [->|]; [|reflexivity].
  now contradiction Hpath.
Qed.

Lemma uiautomator_only_inside_last_child_witness :
  fst (getOptimalUiAutomatorSelector XPathEngine.select Samples.twoSameId (Some [0; 0]) [0])
  = None.
Proof.
  apply uiautomator_only_inside_last_child.
  - intros r E. injection E as <-. exists "Button", [("id", "x")], []. now split.
  - vm_compute. discriminate.
Defined.

(* ------------------------------------------------------------------ *)
(** ** The filter and the traversal: claims *)

(** C9.  When excludeTagNames holds a tag, no result of
    generateAllElementLocators has that tag; and the results of traversing an
    element with such a tag are those of traversing each of its children on its
    own, in order. *)
Theorem excluded_tags_never_reported
    (xpathSelect : XPath.Engine) (sourceDoc : XMLNode) (isNative : bool)
    (automationName : string) (filters : FilterOptions) (excluded : list string) (T : string) :
  excludeTagNames filters = Some excluded ->
  In T excluded ->
  (forall x,
      In x (fst (generateAllElementLocators xpathSelect sourceDoc isNative automationName
                   filters)) ->
      ewlTagName x <> T)
  /\ (forall element st,
        tagName element = T ->
        fst (traverseElement xpathSelect element sourceDoc isNative automationName filters st)
        = (fst st
             ++ flat_map (fun child =>
                  fst (traverseElement xpathSelect child sourceDoc isNative automationName
                         filters emptyState))
                  (children element))%list).
Proof.
  intros He HT. split.
  - intros x Hx Heq. unfold generateAllElementLocators, traverseAndProcessElements in Hx.
    apply traverse_results_from in Hx as (e' & _ & Htag & Hinc).
    apply (excluded_not_included e' filters isNative automationName excluded He Hinc).
    now rewrite <- Htag, Heq.
  - intros element st Htag. rewrite traverse_results.
    assert (Hout : shouldIncludeElement element filters isNative automationName = false).
    { destruct (shouldIncludeElement element filters isNative automationName) eqn:E;
        [|reflexivity].
      exfalso. apply (excluded_not_included element filters isNative automationName
                        excluded He E). now rewrite Htag. }
    now rewrite (process_filtered _ _ _ _ _ _ _ Hout).
Qed.

Lemma excluded_tags_never_reported_witness :
  map ewlTagName
    (fst (generateAllElementLocators XPathEngine.select Samples.androidPage true "uiautomator2"
            (mkFilterOptions None (Some ["android.widget.LinearLayout"]) None None None None)))
  = ["hierarchy"; "android.widget.FrameLayout"; "android.widget.TextView";
     "android.widget.Button"; "android.widget.EditText"]
  /\ forall x,
       In x (fst (generateAllElementLocators XPathEngine.select Samples.androidPage true
                    "uiautomator2"
                    (mkFilterOptions None (Some ["android.widget.LinearLayout"]) None None
                       None None))) ->
       ewlTagName x <> "android.widget.LinearLayout".
Proof.
  split; [reflexivity|].
  apply (excluded_tags_never_reported XPathEngine.select Samples.androidPage true
           "uiautomator2"
           (mkFilterOptions None (Some ["android.widget.LinearLayout"]) None None None None)
           ["android.widget.LinearLayout"] "android.widget.LinearLayout" eq_refl).
  now left.
Defined.

(** C4, as amended.  For an element that passes the filter: when
    getSuggestedLocators throws, processElement logs the error and pushes
    nothing, and the traversal goes on with the children; when the node cannot
    be found in the document, each complex generator catches its own error and
    logs it, no complex locator is produced, and the element is pushed with its
    simple locators. *)
Theorem strategy_errors_are_contained
    (xpathSelect : XPath.Engine) (element : JSONElement) (sourceDoc : XMLNode)
    (isNative : bool) (automationName : string) (filters : FilterOptions) (st : State) :
  shouldIncludeElement element filters isNative automationName = true ->
  (forall error,
      getSuggestedLocators xpathSelect element sourceDoc isNative automationName = Throw error ->
      processElement xpathSelect element sourceDoc isNative automationName filters st
        = (fst st, app (snd st) [ElementError (path element) error])
      /\ fst (traverseElement xpathSelect element sourceDoc isNative automationName filters st)
         = (fst st
              ++ flat_map (fun child =>
                   fst (traverseElement xpathSelect child sourceDoc isNative automationName
                          filters emptyState))
                   (children element))%list)
  /\ (forall simple,
        findDOMNodeByPath (path element) sourceDoc = Ok None ->
        getSimpleSuggestedLocators xpathSelect (attributes element) (Some sourceDoc) isNative
          = Ok simple ->
        exists log,
          In (LocatorError "XPath" Js.TypeError) log
          /\ processElement xpathSelect element sourceDoc isNative automationName filters st
             = (app (fst st)
                  [transformElementWithLocators element
                     (sortLocators (priorityOrderFor isNative automationName) simple)],
                app (snd st) log)).
Proof.
  intros Hinc. split.
  - intros error Hthrow. split.
    + unfold processElement. now rewrite Hinc, Hthrow.
    + rewrite traverse_results. unfold processElement. now rewrite Hinc, Hthrow.
  - intros simple Hnode Hsimple.
    destruct (complex_of_undefined xpathSelect _ _ isNative automationName Hnode)
      as (log & Hlog & Hc).
    exists log. split; [exact Hlog|].
    unfold processElement, getSuggestedLocators. rewrite Hinc, Hsimple, Hc. reflexivity.
Qed.

Lemma strategy_errors_are_contained_witness :
  fst (generateAllElementLocators XPathEngine.select (DocumentNode []) true "xcuitest" noFilters)
    = []
  /\ exists log,
       In (LocatorError "XPath" Js.TypeError) log
       /\ processElement XPathEngine.select (xmlToJSON Samples.plainRoot) Samples.plainRoot
            true "xcuitest" noFilters emptyState
          = ([transformElementWithLocators (xmlToJSON Samples.plainRoot) []], log).
Proof.
  destruct (strategy_errors_are_contained XPathEngine.select emptyJSONElement (DocumentNode [])
              true "xcuitest" noFilters emptyState eq_refl) as [Hthrow _].
  destruct (Hthrow Js.NoElementFound eq_refl) as [_ Htraverse].
  destruct (strategy_errors_are_contained XPathEngine.select (xmlToJSON Samples.plainRoot)
              Samples.plainRoot true "xcuitest" noFilters emptyState eq_refl) as [_ Hkept].
  split; [exact Htraverse | exact (Hkept [] eq_refl eq_refl)].
Defined.

(** C4 as stated fails: generating the complex locators of the root of the
    sample logs errors, the path of the root leading to no node, and the root
    is reported all the same. *)
Lemma failing_generators_do_not_omit_the_node :
  ~ (forall (element : JSONElement) (sourceDoc : XMLNode) (isNative : bool)
            (automationName : string) (filters : FilterOptions) complex log,
       getComplexSuggestedLocators XPathEngine.select (path element) sourceDoc isNative
         automationName = Ok (complex, log) ->
       log <> [] ->
       fst (processElement XPathEngine.select element sourceDoc isNative automationName
              filters emptyState) = []).
Proof.
  intros H.
  specialize (H (xmlToJSON Samples.plainRoot) Samples.plainRoot true "xcuitest" noFilters
                _ _ eq_refl).
  assert (E : fst (processElement XPathEngine.select (xmlToJSON Samples.plainRoot)
                     Samples.plainRoot true "xcuitest" noFilters emptyState) = []).
  { apply H. discriminate. }
  vm_compute in E. discriminate E.
Qed.

(** What the sample gives: the root is reported, with no locator, after three
    generator errors. *)
Example root_reported_after_generator_errors :
  let out := generateAllElementLocators XPathEngine.select Samples.plainRoot true "xcuitest"
               noFilters in
  map ewlTagName (fst out) = ["root"; "a"]
  /\ snd out = [LocatorError "class chain" Js.TypeError;
                LocatorError "predicate string" Js.TypeError;
                LocatorError "XPath" Js.TypeError].
Proof. split; reflexivity. Qed.

Lemma no_element_children (cs : list XMLNode) :
  forall start,
    filter isElement cs = [] ->
    filter (fun ic => Nat.eqb (nodeType (snd ic)) ELEMENT_NODE)
           (combine (seq start (length cs)) cs) = [].
Proof.
  induction cs as [|c cs IH]; intros start H; [reflexivity|].
  cbn [length seq combine filter snd] in H |- *. unfold isElement in H at 1.
  destruct (Nat.eqb (nodeType c) ELEMENT_NODE); [discriminate|]. now apply IH.
Qed.

(** A document without an element gives no result, whatever the platform and
    the filters: the lookup of the node throws, and processElement catches. *)
Lemma no_element_no_result
    (xpathSelect : XPath.Engine) (sourceDoc : XMLNode) (isNative : bool)
    (automationName : string) (filters : FilterOptions) :
  filter isElement (childNodes sourceDoc) = [] ->
  fst (generateAllElementLocators xpathSelect sourceDoc isNative automationName filters) = [].
Proof.
  intros Hnone. unfold generateAllElementLocators, traverseAndProcessElements, xmlToJSON.
  rewrite Hnone. cbn [emptyJSONElement traverseElement]. unfold processElement.
  destruct (negb (shouldIncludeElement (mkJSONElement [] Js.empty [] []) filters isNative
                    automationName)); [reflexivity|].
  assert (Hthrow : getSuggestedLocators xpathSelect (mkJSONElement [] Js.empty [] [])
                     sourceDoc isNative automationName = Throw Js.NoElementFound).
  { unfold getSuggestedLocators, getComplexSuggestedLocators, findDOMNodeByPath, childNodesOf,
      childRefsWhere, indexed. cbn [nodeAt attributes path].
    rewrite (no_element_children _ 0 Hnone). destruct isNative; reflexivity. }
  now rewrite Hthrow.
Qed.

(* ------------------------------------------------------------------ *)
(** ** The orchestrator: what is reported, and in which order *)

Section Reported.

Variable xpathSelect : XPath.Engine.
Variables (sourceDoc : XMLNode) (isNative : bool) (automationName : string).

Lemma traverse_preorder (filters : FilterOptions) (e : JSONElement) :
  fst (traverseElement xpathSelect e sourceDoc isNative automationName filters emptyState)
  = flat_map (reportOf xpathSelect sourceDoc isNative automationName filters) (jsonNodes e).
Proof.
  induction e as [cs t a p IH] using JSONElement_tree_ind.
  rewrite traverse_results, jsonNodes_eq. cbn [fst emptyState app children flat_map].
  f_equal.
  - unfold reportOf, processElement.
    destruct (shouldIncludeElement (mkJSONElement cs t a p) filters isNative automationName);
      cbn [negb]; [|reflexivity].
    now destruct (getSuggestedLocators xpathSelect (mkJSONElement cs t a p) sourceDoc isNative
                    automationName) as [[locs lg]|err].
  - induction IH as [|c cs' Hc _ IHcs]; [reflexivity|].
    cbn [flat_map]. rewrite Hc, IHcs. now rewrite flat_map_app.
Qed.

Lemma reported_from (filters : FilterOptions) (x : ElementWithLocators) :
  In x (fst (generateAllElementLocators xpathSelect sourceDoc isNative automationName filters)) ->
  exists e locs log,
    In e (jsonNodes (xmlToJSON sourceDoc))
    /\ shouldIncludeElement e filters isNative automationName = true
    /\ getSuggestedLocators xpathSelect e sourceDoc isNative automationName = Ok (locs, log)
    /\ x = transformElementWithLocators e locs.
Proof.
  unfold generateAllElementLocators, traverseAndProcessElements.
  change ([], []) with emptyState. rewrite traverse_preorder.
  intros H. apply in_flat_map in H as (e & He & Hx). unfold reportOf in Hx.
  destruct (shouldIncludeElement e filters isNative automationName) eqn:Ei; [|contradiction].
  destruct (getSuggestedLocators xpathSelect e sourceDoc isNative automationName)
    as [[locs lg]|err] eqn:Eg; [|contradiction].
  destruct Hx as [<-|[]]. now exists e, locs, lg.
Qed.

End Reported.

Lemma permissive_includes_all (e : JSONElement) (isNative : bool) (automationName : string) :
  shouldIncludeElement e permissiveFilters isNative automationName = true.
Proof.
  unfold shouldIncludeElement, permissiveFilters, matchesTagFilters, matchesAttributeFilters.
  cbn. destruct (Z.of_nat (length (attributes e)) <? 0)%Z eqn:E; [|reflexivity].
  apply Z.ltb_lt in E. lia.
Qed.

Lemma Subseq_refl {A} (l : list A) : Subseq l l.
Proof. induction l; constructor; assumption. Qed.

Lemma Subseq_nil {A} (l : list A) : Subseq [] l.
Proof. induction l; constructor; assumption. Qed.

Lemma Subseq_app {A} (a b c d : list A) : Subseq a b -> Subseq c d -> Subseq (a ++ c) (b ++ d).
Proof.
  induction 1 as [|x a' b' _ IH|x a' b' _ IH]; intros Hcd; cbn [app];
    [exact Hcd | constructor; auto | constructor; auto].
Qed.

(** X1.  The results of generateAllElementLocators are, in the pre-order of
    the JSON tree, one record for each element that passes the filter and whose
    locators are computed without an error. *)
Theorem results_in_preorder
    (xpathSelect : XPath.Engine) (sourceDoc : XMLNode) (isNative : bool)
    (automationName : string) (filters : FilterOptions) :
  fst (generateAllElementLocators xpathSelect sourceDoc isNative automationName filters)
  = flat_map (fun e =>
      if shouldIncludeElement e filters isNative automationName then
        match getSuggestedLocators xpathSelect e sourceDoc isNative automationName with
        | Ok (locs, _) => [transformElementWithLocators e locs]
        | Throw _ => []
        end
      else [])
      (jsonNodes (xmlToJSON sourceDoc)).
Proof.
  unfold generateAllElementLocators, traverseAndProcessElements.
  change ([], []) with emptyState. apply traverse_preorder.
Qed.

(** X2.  Filters only remove records: the results under any filter
    configuration are a subsequence of the results with an empty exclusion list
    and no other filter, each record unchanged. *)
Theorem filters_only_remove
    (xpathSelect : XPath.Engine) (sourceDoc : XMLNode) (isNative : bool)
    (automationName : string) (filters : FilterOptions) :
  Subseq
    (fst (generateAllElementLocators xpathSelect sourceDoc isNative automationName filters))
    (fst (generateAllElementLocators xpathSelect sourceDoc isNative automationName
            permissiveFilters)).
Proof.
  unfold generateAllElementLocators, traverseAndProcessElements.
  change ([], []) with emptyState. rewrite !traverse_preorder. unfold reportOf.
  induction (jsonNodes (xmlToJSON sourceDoc)) as [|e l IH]; [constructor|].
  cbn [flat_map]. apply Subseq_app; [|exact IH].
  rewrite permissive_includes_all.
  destruct (shouldIncludeElement e filters isNative automationName);
    [apply Subseq_refl | apply Subseq_nil].
Qed.

(** X3.  With clickableOnly set, every record has clickable true. *)
Theorem clickableOnly_reports_clickable
    (xpathSelect : XPath.Engine) (sourceDoc : XMLNode) (isNative : bool)
    (automationName : string) (filters : FilterOptions) (x : ElementWithLocators) :
  clickableOnly filters = Some true ->
  In x (fst (generateAllElementLocators xpathSelect sourceDoc isNative automationName filters)) ->
  clickable x = true.
Proof.
  intros Hc Hx. apply reported_from in Hx as (e & locs & lg & _ & Hinc & _ & ->).
  cbn [transformElementWithLocators clickable].
  unfold shouldIncludeElement in Hinc. rewrite Hc in Hinc. cbn [orDefault andb] in Hinc.
  destruct (attrIsTrue e "clickable"); [reflexivity|].
  cbn [negb] in Hinc.
  repeat match type of Hinc with (if ?c then _ else _) = _ => destruct c end; discriminate.
Qed.

Lemma clickableOnly_reports_clickable_witness :
  clickable (Cases.firstOf (Cases.androidResults Cases.clickableFilter)) = true.
Proof.
  apply (clickableOnly_reports_clickable XPathEngine.select Samples.androidPage true
           "uiautomator2" Cases.clickableFilter _ eq_refl).
  vm_compute. left. reflexivity.
Defined.

(** X4.  With a non-empty includeTagNames, every record has one of the listed
    tag names. *)
Theorem includeTagNames_reports_listed
    (xpathSelect : XPath.Engine) (sourceDoc : XMLNode) (isNative : bool)
    (automationName : string) (filters : FilterOptions) (included : list string)
    (x : ElementWithLocators) :
  includeTagNames filters = Some included ->
  included <> [] ->
  In x (fst (generateAllElementLocators xpathSelect sourceDoc isNative automationName filters)) ->
  In (ewlTagName x) included.
Proof.
  intros Hi Hne Hx. apply reported_from in Hx as (e & locs & lg & _ & Hinc & _ & ->).
  cbn [transformElementWithLocators ewlTagName].
  unfold shouldIncludeElement in Hinc. rewrite Hi in Hinc. cbn [orDefault] in Hinc.
  unfold matchesTagFilters in Hinc.
  destruct included as [|i0 rest]; [contradiction|]. cbn [length Nat.ltb Nat.leb andb] in Hinc.
  destruct (includesStr (i0 :: rest) (tagName e)) eqn:E; [|discriminate].
  unfold includesStr in E. apply existsb_exists in E as (k & Hk & Ek).
  apply String.eqb_eq in Ek. now subst k.
Qed.

Lemma includeTagNames_reports_listed_witness :
  In (ewlTagName (Cases.firstOf (Cases.androidResults Cases.buttonsFilter)))
     ["android.widget.Button"].
Proof.
  apply (includeTagNames_reports_listed XPathEngine.select Samples.androidPage true
           "uiautomator2" Cases.buttonsFilter ["android.widget.Button"] _ eq_refl).
  - discriminate.
  - vm_compute. left. reflexivity.
Defined.

(** X5.  With fetchableOnly set, every record is the record of an element of
    the JSON tree that is interactable on the platform: the tag name of that
    element contains one of the interactable tags of the platform, or its
    clickable or its focusable attribute is true. *)
Theorem fetchableOnly_reports_interactable
    (xpathSelect : XPath.Engine) (sourceDoc : XMLNode) (isNative : bool)
    (automationName : string) (filters : FilterOptions) (x : ElementWithLocators) :
  fetchableOnly filters = Some true ->
  In x (fst (generateAllElementLocators xpathSelect sourceDoc isNative automationName filters)) ->
  exists e locs log,
    In e (jsonNodes (xmlToJSON sourceDoc))
    /\ getSuggestedLocators xpathSelect e sourceDoc isNative automationName = Ok (locs, log)
    /\ x = transformElementWithLocators e locs
    /\ (existsb (fun tag => Js.includes (tagName e) tag)
          (if isNative && (automationName =? "uiautomator2")
           then androidInteractableTags else iosInteractableTags) = true
        \/ attrIsTrue e "clickable" = true
        \/ attrIsTrue e "focusable" = true).
Proof.
  intros Hf Hx. apply reported_from in Hx as (e & locs & lg & He & Hinc & Hlocs & ->).
  exists e, locs, lg. split; [exact He | split; [exact Hlocs | split; [reflexivity|]]].
  unfold shouldIncludeElement in Hinc. rewrite Hf in Hinc. cbn [orDefault andb] in Hinc.
  destruct (isInteractableElement e isNative automationName) eqn:Ei.
  - unfold isInteractableElement in Ei.
    apply orb_true_iff in Ei as [Ei|Ei]; [apply orb_true_iff in Ei as [Ei|Ei]|].
    + now left.
    + right. now left.
    + right. now right.
  - cbn [negb] in Hinc.
    repeat match type of Hinc with (if ?c then _ else _) = _ => destruct c end; discriminate.
Qed.

Lemma fetchableOnly_reports_interactable_witness :
  exists e locs log,
    In e (jsonNodes (xmlToJSON Samples.androidPage))
    /\ getSuggestedLocators XPathEngine.select e Samples.androidPage true "uiautomator2"
       = Ok (locs, log)
    /\ Cases.firstOf (Cases.androidResults Cases.fetchableFilter)
       = transformElementWithLocators e locs
    /\ (existsb (fun tag => Js.includes (tagName e) tag) androidInteractableTags = true
        \/ attrIsTrue e "clickable" = true
        \/ attrIsTrue e "focusable" = true).
Proof.
  apply (fetchableOnly_reports_interactable XPathEngine.select Samples.androidPage true
           "uiautomator2" Cases.fetchableFilter _ eq_refl).
  vm_compute. left. reflexivity.
Defined.

(* ------------------------------------------------------------------ *)
(** ** Objects keep one entry for each key *)

Module ObjKeys.

Definition keys {V} (o : Js.Obj V) : list string := map fst o.

Lemma set_keys {V} (k : string) (v : V) (o : Js.Obj V) :
  keys (Js.set k v o) = if includesStr (keys o) k then keys o else (keys o ++ [k])%list.
Proof.
  unfold keys, includesStr. induction o as [|[k' v'] o IH]; cbn [Js.set map fst existsb app].
  - reflexivity.
  - destruct (String.eqb_spec k' k) as [->|]; cbn [map fst orb]; [reflexivity|].
    rewrite IH. now destruct (existsb (fun x => x =? k) (map fst o)).
Qed.

Lemma includesStr_In (l : list string) (k : string) : includesStr l k = true <-> In k l.
Proof.
  unfold includesStr. rewrite existsb_exists. split.
  - intros (x & Hx & E). apply String.eqb_eq in E. now subst.
  - intros H. exists k. split; [exact H | apply String.eqb_refl].
Qed.

Lemma set_NoDup {V} (k : string) (v : V) (o : Js.Obj V) :
  NoDup (keys o) -> NoDup (keys (Js.set k v o)).
Proof.
  intros H. rewrite set_keys. destruct (includesStr (keys o) k) eqn:E; [exact H|].
  apply NoDup_app; [exact H | repeat constructor; intros [] |].
  intros x Hx [<-|[]]. apply includesStr_In in Hx. congruence.
Qed.

Lemma assign_NoDup {V} (pairs : list (string * V)) :
  forall a : Js.Obj V, NoDup (keys a) -> NoDup (keys (Js.assign a pairs)).
Proof.
  unfold Js.assign. induction pairs as [|[k v] pairs IH]; intros a H; [exact H|].
  cbn [fold_left fst snd]. apply IH. now apply set_NoDup.
Qed.

Lemma set_fresh {V} (k : string) (v : V) (o : Js.Obj V) :
  ~ In k (keys o) -> Js.set k v o = (o ++ [(k, v)])%list.
Proof.
  unfold keys. induction o as [|[k' v'] o IH]; intros H; cbn [Js.set app]; [reflexivity|].
  cbn [map fst In] in H. destruct (String.eqb_spec k' k) as [->|]; [tauto|].
  rewrite IH by tauto. reflexivity.
Qed.

Lemma assign_fresh {V} (pairs : list (string * V)) :
  forall a : Js.Obj V,
    NoDup (keys a ++ keys pairs) -> Js.assign a pairs = (a ++ pairs)%list.
Proof.
  unfold Js.assign, keys. induction pairs as [|[k v] pairs IH]; intros a H; cbn [fold_left].
  - now rewrite app_nil_r.
  - cbn [fst snd map] in *.
    assert (Hk : ~ In k (map fst a)).
    { intros Hin. apply NoDup_remove_2 in H. apply H. apply in_or_app. now left. }
    rewrite set_fresh by exact Hk. rewrite IH.
    + now rewrite <- app_assoc.
    + rewrite map_app. cbn [map fst]. rewrite <- app_assoc. exact H.
Qed.

Lemma fromEntries_NoDup {V} (pairs : list (string * V)) :
  NoDup (keys pairs) -> Js.fromEntries pairs = pairs.
Proof. intros H. unfold Js.fromEntries. now rewrite assign_fresh. Qed.

Lemma omitNil_keys (o : Js.Obj (option string)) (k : string) :
  In k (keys (omitNil o)) -> In k (keys o).
Proof.
  unfold keys. induction o as [|[k' [v|]] o IH]; cbn [omitNil map fst In]; tauto.
Qed.

Lemma omitNil_NoDup (o : Js.Obj (option string)) : NoDup (keys o) -> NoDup (keys (omitNil o)).
Proof.
  unfold keys. induction o as [|[k' [v|]] o IH]; cbn [omitNil map fst]; intros H.
  - constructor.
  - inversion H as [|? ? Hn Hd]; subst. constructor; [|now apply IH].
    intros Hin. apply Hn. now apply omitNil_keys.
  - inversion H; subst. now apply IH.
Qed.

Lemma get_filter_key {V} (k : string) (o : Js.Obj V) :
  NoDup (keys o) ->
  filter (fun kv => fst kv =? k) o
  = match Js.get k o with Some v => [(k, v)] | None => [] end.
Proof.
  unfold keys. induction o as [|[k' v'] o IH]; intros H; cbn [filter Js.get fst];
    [reflexivity|].
  inversion H as [|? ? Hn Hd]; subst.
  destruct (String.eqb_spec k' k) as [->|].
  - f_equal. apply filter_none. intros [k2 v2] Hin. cbn [fst].
    apply String.eqb_neq. intros ->. apply Hn. now apply (in_map fst _ (k, v2)).
  - now apply IH.
Qed.

End ObjKeys.

(* ------------------------------------------------------------------ *)
(** ** The ranker on every platform *)

Section RankerEverywhere.

Variable xpathSelect : XPath.Engine.

Lemma simpleLocatorsLoop_NoDup (attrs : Js.Obj string) (doc : option XMLNode) (isNative : bool)
    (mappings : list (string * string)) :
  forall res res',
    simpleLocatorsLoop xpathSelect mappings attrs doc isNative res = Ok res' ->
    NoDup (ObjKeys.keys res) -> NoDup (ObjKeys.keys res').
Proof.
  induction mappings as [|[alias strategy] mappings IH]; intros res res' H Hn;
    cbn [simpleLocatorsLoop] in H.
  - now injection H as <-.
  - destruct (negb ((strategy =? "accessibility id") && negb isNative)); [|eauto].
    destruct (Js.get alias attrs) as [value|]; [|eauto].
    destruct (Js.truthy value); [|eauto].
    destruct (areAttrAndValueUnique xpathSelect alias value doc) as [[|]|err];
      cbn [Js.bind] in H; [|eauto|discriminate].
    apply (IH _ _ H). now apply ObjKeys.set_NoDup.
Qed.

Lemma simpleLocatorsLoop_web (attrs : Js.Obj string) (doc : option XMLNode)
    (mappings : list (string * string)) :
  forall res res',
    simpleLocatorsLoop xpathSelect mappings attrs doc false res = Ok res' ->
    Js.get "accessibility id" res = None -> Js.get "accessibility id" res' = None.
Proof.
  induction mappings as [|[alias strategy] mappings IH]; intros res res' H Hn;
    cbn [simpleLocatorsLoop] in H.
  - now injection H as <-.
  - cbn [negb andb] in H. rewrite andb_true_r in H.
    destruct (String.eqb_spec strategy "accessibility id") as [->|Hne]; cbn [negb] in H;
      [eauto|].
    destruct (Js.get alias attrs) as [value|]; [|eauto].
    destruct (Js.truthy value); [|eauto].
    destruct (areAttrAndValueUnique xpathSelect alias value doc) as [[|]|err];
      cbn [Js.bind] in H; [|eauto|discriminate].
    apply (IH _ _ H). rewrite ObjFacts.get_set_other by congruence. exact Hn.
Qed.

Lemma complex_shape (path : list nat) (doc : XMLNode) (isNative : bool)
    (automationName : string) (complex : Js.Obj string) (log : Log) :
  getComplexSuggestedLocators xpathSelect path doc isNative automationName = Ok (complex, log) ->
  NoDup (ObjKeys.keys complex)
  /\ (forall k, In k (ObjKeys.keys complex) ->
        In k (if isPredicatePlatform isNative automationName then iosComplexKeys
              else if isNative && (automationName =? "uiautomator2")
                   then ["-android uiautomator"; "xpath"]
                   else ["xpath"])).
Proof.
  unfold getComplexSuggestedLocators, isPredicatePlatform. intros H.
  destruct (findDOMNodeByPath path doc) as [domNode|]; cbn [Js.bind] in H; [|discriminate].
  destruct (getOptimalClassChain xpathSelect doc domNode) as [cc lc].
  destruct (getOptimalPredicateString xpathSelect doc domNode) as [ps lp].
  destruct (getOptimalUiAutomatorSelector xpathSelect doc domNode path) as [ui lu].
  destruct (getOptimalXPath xpathSelect doc domNode) as [xp lx].
  unfold iosComplexKeys.
  destruct isNative; cbn [andb];
    [destruct ((automationName =? "xcuitest") || (automationName =? "mac2"));
       [|destruct (automationName =? "uiautomator2")]|];
    injection H as <- _;
    (destruct cc as [c|]; [destruct (Js.truthy c)|]); destruct ps, ui, xp;
    (split;
      [ cbn; repeat (constructor; [cbn; intuition discriminate|]); constructor
      | intros k Hk; cbn in Hk |- *; tauto ]).
Qed.

Section OneElement.

Variables (selectedElement : JSONElement) (sourceDoc : XMLNode) (isNative : bool)
          (automationName : string) (sorted : list (string * string)) (log : Log).
Hypothesis Hsorted :
  getSuggestedLocators xpathSelect selectedElement sourceDoc isNative automationName
  = Ok (sorted, log).

Lemma suggested_parts :
  exists simple complex,
    getSimpleSuggestedLocators xpathSelect (attributes selectedElement) (Some sourceDoc) isNative
      = Ok simple
    /\ getComplexSuggestedLocators xpathSelect (path selectedElement) sourceDoc isNative
         automationName = Ok (complex, log)
    /\ sorted = sortLocators (priorityOrderFor isNative automationName)
                  (Js.assign simple complex).
Proof.
  unfold getSuggestedLocators in Hsorted.
  destruct (getSimpleSuggestedLocators xpathSelect (attributes selectedElement)
              (Some sourceDoc) isNative) as [simple|]; cbn [Js.bind] in Hsorted;
    [|discriminate].
  destruct (getComplexSuggestedLocators xpathSelect (path selectedElement) sourceDoc
              isNative automationName) as [[complex lg]|]; cbn [Js.bind fst snd] in Hsorted;
    [|discriminate].
  injection Hsorted as <- <-. now exists simple, complex.
Qed.

End OneElement.

End RankerEverywhere.

Section RankerClaims.

Variable xpathSelect : XPath.Engine.

Lemma simple_NoDup (attrs : Js.Obj string) (doc : option XMLNode) (isNative : bool)
    (simple : Js.Obj string) :
  getSimpleSuggestedLocators xpathSelect attrs doc isNative = Ok simple ->
  NoDup (ObjKeys.keys simple).
Proof.
  intros H. apply (simpleLocatorsLoop_NoDup xpathSelect _ _ _ _ _ _ H). constructor.
Qed.

Lemma sorted_keys (priorityOrder : list string) (allLocators : Js.Obj string) :
  map fst
    (flat_map (fun strategy =>
       match Js.get strategy allLocators with
       | Some value => if Js.truthy value then [(strategy, value)] else []
       | None => []
       end) priorityOrder)
  = filter (fun strategy => Js.truthyOpt (Js.get strategy allLocators)) priorityOrder.
Proof.
  induction priorityOrder as [|k l IH]; [reflexivity|]. cbn [flat_map filter].
  rewrite map_app, IH. destruct (Js.get k allLocators) as [v|]; cbn [Js.truthyOpt];
    [destruct (Js.truthy v)|]; reflexivity.
Qed.

Lemma sortLocators_NoDup (priorityOrder : list string) (allLocators : Js.Obj string) :
  NoDup priorityOrder -> NoDup (ObjKeys.keys allLocators) ->
  NoDup (map fst (sortLocators priorityOrder allLocators)).
Proof.
  intros Hp Ha. unfold sortLocators. rewrite map_app, sorted_keys.
  apply NoDup_app.
  - now apply NoDup_filter.
  - clear Hp. unfold ObjKeys.keys in Ha.
    induction allLocators as [|[k v] o IH]; cbn [filter map fst] in *; [constructor|].
    inversion Ha as [|? ? Hn Hd]; subst.
    destruct (negb (includesStr priorityOrder k)); cbn [map fst]; [|now apply IH].
    constructor; [|now apply IH].
    intros Hin. apply Hn. apply in_map_iff in Hin as ([k' v'] & E & Hin). cbn [fst] in E.
    subst k'. apply filter_In in Hin as [Hin _]. now apply (in_map fst _ (k, v')).
  - intros k H1 H2. apply filter_In in H1 as [H1 _].
    apply in_map_iff in H2 as ([k' v'] & E & H2). cbn [fst] in E. subst k'.
    apply filter_In in H2 as [_ H2]. cbn [fst] in H2. apply negb_true_iff in H2.
    apply ObjKeys.includesStr_In in H1. congruence.
Qed.

Lemma priorityOrder_NoDup (isNative : bool) (automationName : string) :
  NoDup (priorityOrderFor isNative automationName).
Proof.
  unfold priorityOrderFor.
  destruct (isNative && _); [|destruct (isNative && _)];
    repeat (constructor; [cbn; intuition discriminate|]); constructor.
Qed.

End RankerClaims.

(** X6.  Every strategy occurs at most once in the list getSuggestedLocators
    returns, and the locators object of the record built from the list holds
    the same entries in the same order. *)
Theorem record_keeps_the_ranking
    (xpathSelect : XPath.Engine) (selectedElement : JSONElement) (sourceDoc : XMLNode) (isNative : bool)
    (automationName : string) (sorted : list (string * string)) (log : Log) :
  getSuggestedLocators xpathSelect selectedElement sourceDoc isNative automationName
    = Ok (sorted, log) ->
  NoDup (map fst sorted)
  /\ locators (transformElementWithLocators selectedElement sorted) = sorted.
Proof.
  intros H.
  destruct (suggested_parts xpathSelect _ _ _ _ _ _ H) as (simple & complex & Hs & Hc & ->).
  assert (Hn : NoDup (map fst (sortLocators (priorityOrderFor isNative automationName)
                                 (Js.assign simple complex)))).
  { apply sortLocators_NoDup; [apply priorityOrder_NoDup|].
    apply ObjKeys.assign_NoDup. exact (simple_NoDup xpathSelect _ _ _ _ Hs). }
  split; [exact Hn|].
  cbn [transformElementWithLocators locators]. now apply ObjKeys.fromEntries_NoDup.
Qed.

Lemma record_keeps_the_ranking_witness :
  NoDup (map fst (fst (Cases.suggested Cases.iosButton Samples.iosPage true "xcuitest")))
  /\ locators (transformElementWithLocators Cases.iosButton
                 (fst (Cases.suggested Cases.iosButton Samples.iosPage true "xcuitest")))
     = fst (Cases.suggested Cases.iosButton Samples.iosPage true "xcuitest").
Proof.
  apply (record_keeps_the_ranking XPathEngine.select Cases.iosButton Samples.iosPage true
           "xcuitest" _ (snd (Cases.suggested Cases.iosButton Samples.iosPage true "xcuitest"))).
  vm_compute. reflexivity.
Defined.

(** X7.  On uiautomator2 in a native context the list holds, in the order id,
    accessibility id, xpath, -android uiautomator, class name, exactly the
    strategies that have a non-empty candidate. *)
Theorem android_priority_order
    (xpathSelect : XPath.Engine) (selectedElement : JSONElement) (sourceDoc : XMLNode)
    (sorted : list (string * string)) (log : Log) :
  getSuggestedLocators xpathSelect selectedElement sourceDoc true "uiautomator2"
    = Ok (sorted, log) ->
  exists simple complex,
    getSimpleSuggestedLocators xpathSelect (attributes selectedElement) (Some sourceDoc) true
      = Ok simple
    /\ getComplexSuggestedLocators xpathSelect (path selectedElement) sourceDoc true
         "uiautomator2" = Ok (complex, log)
    /\ sorted
       = flat_map (fun strategy =>
           match Js.get strategy (Js.assign simple complex) with
           | Some value => if Js.truthy value then [(strategy, value)] else []
           | None => []
           end)
           ["id"; "accessibility id"; "xpath"; "-android uiautomator"; "class name"].
Proof.
  intros H.
  destruct (suggested_parts xpathSelect _ _ _ _ _ _ H) as (simple & complex & Hs & Hc & ->).
  exists simple, complex. repeat split; auto.
  change (priorityOrderFor true "uiautomator2") with androidPriorityOrder.
  apply sortLocators_within. intros k Hk.
  apply in_map_iff in Hk as ([k' v] & <- & Hin). cbn [fst].
  apply ObjFacts.In_assign in Hin as [Hin|Hin].
  - destruct (simple_keys _ _ _ _ _ Hs k' v Hin) as [Hkey _].
    unfold simpleKeys in Hkey. unfold androidPriorityOrder. cbn [In] in Hkey |- *. tauto.
  - destruct (complex_shape xpathSelect _ _ _ _ _ _ Hc) as [_ Hkeys].
    specialize (Hkeys k' (in_map fst _ _ Hin)). cbn in Hkeys.
    unfold androidPriorityOrder. cbn [In]. tauto.
Qed.

Lemma android_priority_order_witness :
  map fst (fst (Cases.suggested Cases.androidButton Samples.androidPage true "uiautomator2"))
  = ["id"; "xpath"; "-android uiautomator"].
Proof.
  destruct (android_priority_order XPathEngine.select Cases.androidButton Samples.androidPage
              (fst (Cases.suggested Cases.androidButton Samples.androidPage true "uiautomator2"))
              (snd (Cases.suggested Cases.androidButton Samples.androidPage true "uiautomator2"))
              ltac:(vm_compute; reflexivity))
    as (simple & complex & Hs & Hc & ->).
  vm_compute in Hs, Hc. injection Hs as <-. injection Hc as <-. reflexivity.
Defined.

(** X8.  On any other platform (not xcuitest or mac2, not uiautomator2 in a
    native context) the list holds the strategies with a non-empty candidate in
    the order id, class name, xpath, followed by the accessibility id when the
    simple strategy produced one; in a web context it never does. *)
Theorem fallback_priority_order
    (xpathSelect : XPath.Engine) (selectedElement : JSONElement) (sourceDoc : XMLNode) (isNative : bool)
    (automationName : string) (sorted : list (string * string)) (log : Log) :
  isPredicatePlatform isNative automationName = false ->
  isNative && (automationName =? "uiautomator2") = false ->
  getSuggestedLocators xpathSelect selectedElement sourceDoc isNative automationName
    = Ok (sorted, log) ->
  exists simple complex,
    getSimpleSuggestedLocators xpathSelect (attributes selectedElement) (Some sourceDoc) isNative
      = Ok simple
    /\ getComplexSuggestedLocators xpathSelect (path selectedElement) sourceDoc isNative
         automationName = Ok (complex, log)
    /\ sorted
       = (flat_map (fun strategy =>
            match Js.get strategy (Js.assign simple complex) with
            | Some value => if Js.truthy value then [(strategy, value)] else []
            | None => []
            end)
            ["id"; "class name"; "xpath"]
          ++ match Js.get "accessibility id" simple with
             | Some value => [("accessibility id", value)]
             | None => []
             end)%list
    /\ (isNative = false -> Js.get "accessibility id" simple = None).
Proof.
  intros Hios Handroid H.
  destruct (suggested_parts xpathSelect _ _ _ _ _ _ H) as (simple & complex & Hs & Hc & ->).
  exists simple, complex. split; [exact Hs | split; [exact Hc | split]].
  - assert (Hprio : priorityOrderFor isNative automationName = defaultPriorityOrder).
    { unfold priorityOrderFor. unfold isPredicatePlatform in Hios. now rewrite Hios, Handroid. }
    rewrite Hprio. unfold sortLocators. f_equal.
    destruct (complex_shape xpathSelect _ _ _ _ _ _ Hc) as [_ Hkeys].
    rewrite Hios, Handroid in Hkeys.
    assert (Hget : Js.get "accessibility id" (Js.assign simple complex)
                   = Js.get "accessibility id" simple).
    { apply ObjFacts.get_assign_other. intros Hin. apply Hkeys in Hin.
      destruct Hin as [Hin|[]]. discriminate. }
    rewrite <- Hget, <- ObjKeys.get_filter_key
      by (apply ObjKeys.assign_NoDup; exact (simple_NoDup xpathSelect _ _ _ _ Hs)).
    apply filter_ext_in. intros [k v] Hin. cbn [fst].
    apply ObjFacts.In_assign in Hin as [Hin|Hin].
    + destruct (simple_keys _ _ _ _ _ Hs k v Hin) as [Hkey _].
      unfold simpleKeys in Hkey. cbn [In] in Hkey.
      repeat (destruct Hkey as [<-|Hkey]; [reflexivity|]). contradiction.
    + specialize (Hkeys k (in_map fst _ _ Hin)). destruct Hkeys as [<-|[]]. reflexivity.
  - intros ->. apply (simpleLocatorsLoop_web xpathSelect _ _ _ _ _ Hs). reflexivity.
Qed.

Lemma fallback_priority_order_witness :
  map fst (fst (Cases.suggested Cases.iosButton Samples.iosPage true "espresso"))
  = ["id"; "xpath"; "accessibility id"].
Proof.
  destruct (fallback_priority_order XPathEngine.select Cases.iosButton Samples.iosPage true
              "espresso"
              (fst (Cases.suggested Cases.iosButton Samples.iosPage true "espresso"))
              (snd (Cases.suggested Cases.iosButton Samples.iosPage true "espresso"))
              eq_refl eq_refl ltac:(vm_compute; reflexivity))
    as (simple & complex & Hs & Hc & -> & _).
  vm_compute in Hs, Hc. injection Hs as <-. injection Hc as <-. reflexivity.
Defined.

(* ------------------------------------------------------------------ *)
(** ** The simple strategy: several attributes for one strategy *)

Section SimpleOverride.

Variable xpathSelect : XPath.Engine.
Variables (attrs : Js.Obj string) (doc : option XMLNode) (isNative : bool).

Lemma simpleLocatorsLoop_app (pre post : list (string * string)) :
  forall res res',
    simpleLocatorsLoop xpathSelect (pre ++ post) attrs doc isNative res = Ok res' ->
    exists mid,
      simpleLocatorsLoop xpathSelect pre attrs doc isNative res = Ok mid
      /\ simpleLocatorsLoop xpathSelect post attrs doc isNative mid = Ok res'.
Proof.
  induction pre as [|[alias strategy] pre IH]; intros res res' H.
  - exists res. now split.
  - cbn [app simpleLocatorsLoop] in H |- *.
    destruct (negb ((strategy =? "accessibility id") && negb isNative)); [|eauto].
    destruct (Js.get alias attrs) as [value|]; [|eauto].
    destruct (Js.truthy value); [|eauto].
    destruct (areAttrAndValueUnique xpathSelect alias value doc) as [[|]|err];
      cbn [Js.bind] in H |- *; [eauto|eauto|discriminate].
Qed.

Lemma simpleLocatorsLoop_keeps (k : string) (post : list (string * string)) :
  (forall alias strategy, In (alias, strategy) post -> strategy <> k) ->
  forall res res',
    simpleLocatorsLoop xpathSelect post attrs doc isNative res = Ok res' ->
    Js.get k res' = Js.get k res.
Proof.
  induction post as [|[alias strategy] post IH]; intros Hk res res' H;
    cbn [simpleLocatorsLoop] in H.
  - now injection H as <-.
  - assert (Hpost : forall a s, In (a, s) post -> s <> k) by (intros a s Hin; apply (Hk a s); now right).
    assert (Hs : strategy <> k) by (apply (Hk alias); now left).
    destruct (negb ((strategy =? "accessibility id") && negb isNative)); [|eauto].
    destruct (Js.get alias attrs) as [value|]; [|eauto].
    destruct (Js.truthy value); [|eauto].
    destruct (areAttrAndValueUnique xpathSelect alias value doc) as [[|]|err];
      cbn [Js.bind] in H; [|eauto|discriminate].
    rewrite (IH Hpost _ _ H). apply ObjFacts.get_set_other. congruence.
Qed.

Lemma get_set_same {V} (k : string) (v : V) (o : Js.Obj V) : Js.get k (Js.set k v o) = Some v.
Proof.
  induction o as [|[k' v'] o IH]; cbn [Js.set Js.get].
  - now rewrite String.eqb_refl.
  - destruct (String.eqb_spec k' k) as [->|Hne]; cbn [Js.get].
    + now rewrite String.eqb_refl.
    + destruct (String.eqb_spec k' k); [contradiction | exact IH].
Qed.

Lemma accepted_last_is_emitted (pre post : list (string * string)) (alias strategy value : string)
    (simple : Js.Obj string) :
  SIMPLE_STRATEGY_MAPPINGS = (pre ++ (alias, strategy) :: post)%list ->
  (forall a s, In (a, s) post -> s <> strategy) ->
  negb ((strategy =? "accessibility id") && negb isNative) = true ->
  getSimpleSuggestedLocators xpathSelect attrs doc isNative = Ok simple ->
  Js.get alias attrs = Some value ->
  Js.truthy value = true ->
  areAttrAndValueUnique xpathSelect alias value doc = Ok true ->
  Js.get strategy simple = Some value.
Proof.
  intros Hm Hpost Hctx H Hg Ht Hu. unfold getSimpleSuggestedLocators in H. rewrite Hm in H.
  apply simpleLocatorsLoop_app in H as (mid & _ & H).
  cbn [simpleLocatorsLoop] in H. rewrite Hctx, Hg, Ht, Hu in H. cbn [Js.bind] in H.
  rewrite (simpleLocatorsLoop_keeps strategy post Hpost _ _ H). apply get_set_same.
Qed.

End SimpleOverride.

(** X9.  When several attributes feed one strategy, the last accepted one in
    SIMPLE_STRATEGY_MAPPINGS is emitted: an accepted resource-id is the id
    whatever id and rntestid are, an accepted content-desc is the accessibility
    id in a native context whatever name is, and an accepted type is the class
    name whatever class is. *)
Theorem last_accepted_attribute_wins
    (xpathSelect : XPath.Engine) (attrs : Js.Obj string) (doc : option XMLNode)
    (isNative : bool) (simple : Js.Obj string) :
  getSimpleSuggestedLocators xpathSelect attrs doc isNative = Ok simple ->
  (forall value,
      Js.get "resource-id" attrs = Some value -> Js.truthy value = true ->
      areAttrAndValueUnique xpathSelect "resource-id" value doc = Ok true ->
      Js.get "id" simple = Some value)
  /\ (forall value,
        isNative = true ->
        Js.get "content-desc" attrs = Some value -> Js.truthy value = true ->
        areAttrAndValueUnique xpathSelect "content-desc" value doc = Ok true ->
        Js.get "accessibility id" simple = Some value)
  /\ (forall value,
        Js.get "type" attrs = Some value -> Js.truthy value = true ->
        areAttrAndValueUnique xpathSelect "type" value doc = Ok true ->
        Js.get "class name" simple = Some value).
Proof.
  intros H. split; [|split].
  - intros value Hg Ht Hu.
    apply (accepted_last_is_emitted xpathSelect attrs doc isNative
             [("name", "accessibility id"); ("content-desc", "accessibility id");
              ("id", "id"); ("rntestid", "id")]
             [("class", "class name"); ("type", "class name")] "resource-id" "id" value);
      auto.
    intros a s [E|[E|[]]]; injection E as _ <-; discriminate.
  - intros value Hn Hg Ht Hu.
    apply (accepted_last_is_emitted xpathSelect attrs doc isNative [("name", "accessibility id")]
             [("id", "id"); ("rntestid", "id"); ("resource-id", "id");
              ("class", "class name"); ("type", "class name")]
             "content-desc" "accessibility id" value); auto; [|now rewrite Hn].
    intros a s Hin. cbn [In] in Hin.
    repeat (destruct Hin as [E|Hin]; [injection E as _ <-; discriminate|]). contradiction.
  - intros value Hg Ht Hu.
    apply (accepted_last_is_emitted xpathSelect attrs doc isNative
             [("name", "accessibility id"); ("content-desc", "accessibility id");
              ("id", "id"); ("rntestid", "id"); ("resource-id", "id");
              ("class", "class name")]
             [] "type" "class name" value); auto.
Qed.

Lemma last_accepted_attribute_wins_witness :
  Js.get "id" [("accessibility id", "c"); ("id", "b"); ("class name", "t")] = Some "b"
  /\ Js.get "accessibility id" [("accessibility id", "c"); ("id", "b"); ("class name", "t")]
     = Some "c"
  /\ Js.get "class name" [("accessibility id", "c"); ("id", "b"); ("class name", "t")]
     = Some "t".
Proof.
  destruct (last_accepted_attribute_wins XPathEngine.select Cases.everyAlias
              (Some Cases.everyAliasPage) true
              [("accessibility id", "c"); ("id", "b"); ("class name", "t")] eq_refl)
    as (Hid & Hacc & Hclass).
  split; [|split].
  - exact (Hid "b" eq_refl eq_refl eq_refl).
  - exact (Hacc "c" eq_refl eq_refl eq_refl eq_refl).
  - exact (Hclass "t" eq_refl eq_refl eq_refl).
Defined.

(* ------------------------------------------------------------------ *)
(** ** Paths: from the JSON tree back to the document *)

Lemma childNodesOf_indices (doc : XMLNode) (r : DomRef) (n : XMLNode) :
  nodeAt doc r = Some n ->
  childNodesOf doc (Some r) = map (fun i => i :: r) (elementIndices 0 (childNodes n)).
Proof.
  intros H. unfold childNodesOf, childRefsWhere, indexed, elementIndices. rewrite H.
  now rewrite map_map.
Qed.

Lemma childNodesOf_dangling (doc : XMLNode) (r : DomRef) :
  nodeAt doc r = None -> childNodesOf doc (Some r) = [].
Proof. intros H. unfold childNodesOf, childRefsWhere. now rewrite H. Qed.

Lemma elementIndices_nth (cs : list XMLNode) :
  forall start j c,
    nth_error (filter isElement cs) j = Some c ->
    exists i, nth_error (elementIndices start cs) j = Some (start + i)
              /\ nth_error cs i = Some c.
Proof.
  unfold elementIndices.
  induction cs as [|c0 cs IH]; intros start j c H; [now destruct j|].
  cbn [length seq combine filter snd map fst] in H |- *. unfold isElement in H at 1.
  destruct (Nat.eqb (nodeType c0) ELEMENT_NODE).
  - destruct j as [|j]; cbn [nth_error map fst] in H |- *.
    + injection H as <-. exists 0. now rewrite Nat.add_0_r.
    + destruct (IH (S start) j c H) as (i & Hi & Hc). exists (S i).
      rewrite Hi. split; [f_equal; lia | exact Hc].
  - destruct (IH (S start) j c H) as (i & Hi & Hc). exists (S i).
    rewrite Hi. split; [f_equal; lia | exact Hc].
Qed.

Lemma elementIndices_valid (cs : list XMLNode) :
  forall start i, In i (elementIndices start cs) ->
    exists c, nth_error cs (i - start) = Some c /\ isElement c = true /\ start <= i.
Proof.
  unfold elementIndices.
  induction cs as [|c0 cs IH]; intros start i H; [contradiction|].
  cbn [length seq combine filter snd] in H.
  destruct (Nat.eqb (nodeType c0) ELEMENT_NODE) eqn:E.
  - cbn [map fst In] in H. destruct H as [<-|H].
    + exists c0. rewrite Nat.sub_diag. now repeat split.
    + destruct (IH (S start) i H) as (c & Hc & He & Hle). exists c.
      replace (i - start) with (S (i - S start)) by lia. now repeat split; [| |lia].
  - destruct (IH (S start) i H) as (c & Hc & He & Hle). exists c.
    replace (i - start) with (S (i - S start)) by lia. now repeat split; [| |lia].
Qed.

Lemma translateChildren_nth (path : list nat) (cs : list XMLNode) :
  forall k j,
    nth_error (translateChildren path cs k) j
    = option_map (fun c => translateRecursively c path (Some (k + j)))
                 (nth_error (filter isElement cs) j).
Proof.
  induction cs as [|c0 cs IH]; intros k j; [now destruct j|].
  cbn [translateChildren filter]. unfold isElement at 1.
  destruct (Nat.eqb (nodeType c0) ELEMENT_NODE); [|apply IH].
  destruct j as [|j]; cbn [nth_error option_map].
  - now rewrite Nat.add_0_r.
  - rewrite IH. now replace (S k + j) with (k + S j) by lia.
Qed.

Lemma translateRecursively_fields (n : XMLNode) (parentPath : list nat) (index : option nat) :
  children (translateRecursively n parentPath index)
    = translateChildren (pathOf parentPath index) (childNodes n) 0
  /\ tagName (translateRecursively n parentPath index) = nodeName n
  /\ path (translateRecursively n parentPath index) = pathOf parentPath index.
Proof. now rewrite translateRecursively_eq. Qed.

Lemma jsonNodes_inv (root e : JSONElement) :
  In e (jsonNodes root) ->
  e = root \/ exists j child, nth_error (children root) j = Some child /\ In e (jsonNodes child).
Proof.
  rewrite jsonNodes_eq. intros [<-|H]; [now left|]. right.
  apply in_flat_map in H as (child & Hc & He).
  apply In_nth_error in Hc as [j Hj]. now exists j, child.
Qed.

Lemma XMLNode_children_ind (P : XMLNode -> Prop) :
  (forall n, Forall P (childNodes n) -> P n) -> forall n, P n.
Proof.
  intros H n. induction n using XMLNode_tree_ind; apply H; cbn [childNodes];
    [assumption | assumption | constructor].
Qed.

(** Every element of the JSON tree of a node lies, at the rest of its path,
    below that node in the document, and carries the name and the attributes of
    the node found there. *)
Lemma translated_element_found (doc : XMLNode) (n : XMLNode) :
  forall r parentPath index e,
    nodeAt doc r = Some n ->
    In e (jsonNodes (translateRecursively n parentPath index)) ->
    exists q r' n',
      path e = (pathOf parentPath index ++ q)%list
      /\ walk doc (Some r) q = Some r'
      /\ nodeAt doc r' = Some n'
      /\ tagName e = nodeName n'
      /\ attributes e = translateAttributes n'
      /\ (q <> [] -> isElement n' = true).
Proof.
  induction n as [n IH] using XMLNode_children_ind.
  intros r parentPath index e Hr He.
  destruct (translateRecursively_fields n parentPath index) as (Hc & Ht & Hp).
  apply jsonNodes_inv in He as [->|(j & child & Hj & He)].
  - exists [], r, n. rewrite app_nil_r, Ht, Hp, translateRecursively_attributes.
    repeat split; [exact Hr | congruence].
  - rewrite Hc, translateChildren_nth in Hj.
    destruct (nth_error (filter isElement (childNodes n)) j) as [c|] eqn:Ec; [|discriminate].
    cbn [option_map Nat.add] in Hj. injection Hj as <-.
    destruct (elementIndices_nth (childNodes n) 0 j c Ec) as (i & Hi & Hci).
    cbn [Nat.add] in Hi.
    assert (Hchild : nodeAt doc (i :: r) = Some c) by (cbn [nodeAt]; now rewrite Hr).
    assert (Hstep : nth_error (childNodesOf doc (Some r)) j = Some (i :: r)).
    { rewrite (childNodesOf_indices doc r n Hr). now rewrite nth_error_map, Hi. }
    rewrite Forall_forall in IH.
    destruct (IH c (nth_error_In _ _ Hci) (i :: r) _ _ e Hchild He)
      as (q' & r' & n' & Hq & Hw & Hn & Ht' & Ha & Hel).
    exists (j :: q'), r', n'. repeat split; auto.
    + rewrite Hq. unfold pathOf at 1. now rewrite <- app_assoc.
    + unfold walk in *. cbn [fold_left]. now rewrite Hstep.
    + intros _. destruct q' as [|j' q''].
      * cbn in Hw. injection Hw as <-. rewrite Hchild in Hn. injection Hn as <-.
        apply nth_error_In in Ec. now apply filter_In in Ec.
      * apply Hel. discriminate.
Qed.

(** The lookup by path in the document, for an element of the JSON tree other
    than the root. *)
Lemma translated_path_resolves (sourceDoc : XMLNode) (e : JSONElement) :
  In e (jsonNodes (xmlToJSON sourceDoc)) ->
  path e <> [] ->
  exists r n,
    findDOMNodeByPath (path e) sourceDoc = Ok (Some r)
    /\ nodeAt sourceDoc r = Some n
    /\ isElement n = true
    /\ tagName e = nodeName n
    /\ attributes e = translateAttributes n.
Proof.
  unfold xmlToJSON.
  destruct (filter isElement (childNodes sourceDoc)) as [|first rest] eqn:Ef.
  - intros [<-|[]] H. now contradiction H.
  - destruct (elementIndices_nth (childNodes sourceDoc) 0 0 first) as (i0 & Hi & Hc);
      [now rewrite Ef|]. cbn [Nat.add] in Hi.
    assert (Hfirst : nodeAt sourceDoc [i0] = Some first) by (cbn [nodeAt]; exact Hc).
    assert (Hkids : exists others, childNodesOf sourceDoc (Some []) = [i0] :: others).
    { unfold childNodesOf, childRefsWhere, indexed. cbn [nodeAt].
      unfold elementIndices in Hi.
      destruct (filter (fun ic => Nat.eqb (nodeType (snd ic)) ELEMENT_NODE)
                  (combine (seq 0 (length (childNodes sourceDoc))) (childNodes sourceDoc)))
        as [|[x c] others]; [discriminate|].
      cbn [map fst nth_error] in Hi |- *. injection Hi as ->. eauto. }
    destruct Hkids as [others Hkids].
    intros He Hp.
    destruct (translated_element_found sourceDoc first [i0] [] None e Hfirst He)
      as (q & r & n & Hq & Hw & Hn & Ht & Ha & Hel).
    cbn [pathOf app] in Hq. rewrite Hq in Hp |- *.
    exists r, n. repeat split; auto.
    unfold findDOMNodeByPath. rewrite Hkids.
    destruct q as [|j q']; [now contradiction Hp|]. unfold walk in Hw. now rewrite Hw.
Qed.

(** X10.  Every element of the JSON tree other than its root is found in the
    document by findDOMNodeByPath at its path, and the node found is an element
    with the JSON element's tag name; the attributes of the JSON element are
    what the loop of xmlToJSON stores for that node, its attributes with their
    line feeds escaped, an attribute named __proto__ left out.  The root, whose
    path is empty, is the one element the lookup does not find. *)
Theorem json_paths_lead_to_their_nodes (sourceDoc : XMLNode) :
  (forall e,
      In e (jsonNodes (xmlToJSON sourceDoc)) ->
      path e <> [] ->
      exists r n,
        findDOMNodeByPath (path e) sourceDoc = Ok (Some r)
        /\ nodeAt sourceDoc r = Some n
        /\ isElement n = true
        /\ tagName e = nodeName n
        /\ attributes e = translateAttributes n)
  /\ path (xmlToJSON sourceDoc) = []
  /\ (filter isElement (childNodes sourceDoc) <> [] ->
      findDOMNodeByPath (path (xmlToJSON sourceDoc)) sourceDoc = Ok None).
Proof.
  split; [exact (translated_path_resolves sourceDoc)|].
  unfold xmlToJSON, findDOMNodeByPath, childNodesOf, childRefsWhere, indexed. cbn [nodeAt].
  destruct (filter isElement (childNodes sourceDoc)) as [|first rest] eqn:Ef.
  - split; [reflexivity | tauto].
  - destruct (translateRecursively_fields first [] None) as (_ & _ & Hroot).
    split; [exact Hroot|]. intros _. rewrite Hroot.
    destruct (elementIndices_nth (childNodes sourceDoc) 0 0 first) as (i0 & Hi & _);
      [now rewrite Ef|].
    unfold elementIndices in Hi.
    destruct (filter (fun ic => Nat.eqb (nodeType (snd ic)) ELEMENT_NODE)
                (combine (seq 0 (length (childNodes sourceDoc))) (childNodes sourceDoc)))
      as [|[x c] others]; [discriminate | reflexivity].
Qed.

Lemma json_paths_lead_to_their_nodes_witness :
  exists r n,
    findDOMNodeByPath [0; 0; 1] Samples.androidPage = Ok (Some r)
    /\ nodeAt Samples.androidPage r = Some n
    /\ isElement n = true
    /\ "android.widget.Button" = nodeName n
    /\ attributes Cases.androidButton = translateAttributes n.
Proof.
  apply (proj1 (json_paths_lead_to_their_nodes Samples.androidPage) Cases.androidButton).
  - vm_compute. do 4 right. left. reflexivity.
  - discriminate.
Defined.

(* ------------------------------------------------------------------ *)
(** ** Paths inside the JSON tree *)

Lemma jsonWalk_thrown (err : Js.Error) (q : list nat) : jsonWalk (Throw err) q = Throw err.
Proof. induction q as [|i q IH]; [reflexivity | exact IH]. Qed.

Lemma translated_element_at_path (n : XMLNode) :
  forall parentPath index e,
    In e (jsonNodes (translateRecursively n parentPath index)) ->
    exists q,
      path e = (pathOf parentPath index ++ q)%list
      /\ jsonWalk (Ok (Some (translateRecursively n parentPath index))) q = Ok (Some e).
Proof.
  induction n as [n IH] using XMLNode_children_ind.
  intros parentPath index e He.
  destruct (translateRecursively_fields n parentPath index) as (Hc & _ & Hp).
  apply jsonNodes_inv in He as [->|(j & child & Hj & He)].
  - exists []. rewrite app_nil_r. now split.
  - pose proof Hj as Hj'. rewrite Hc, translateChildren_nth in Hj.
    destruct (nth_error (filter isElement (childNodes n)) j) as [c|] eqn:Ec; [|discriminate].
    cbn [option_map Nat.add] in Hj. injection Hj as <-.
    rewrite Forall_forall in IH.
    assert (Hin : In c (childNodes n))
      by (apply nth_error_In in Ec; now apply filter_In in Ec).
    destruct (IH c Hin _ _ e He) as (q' & Hq & Hw).
    exists (j :: q'). split.
    + rewrite Hq. unfold pathOf at 1. now rewrite <- app_assoc.
    + unfold jsonWalk in *. cbn [fold_left Js.bind]. now rewrite Hj'.
Qed.

(** X11.  Every element of the JSON tree other than its root is what
    findJSONElementByPath returns for its path. *)
Theorem json_paths_round_trip (sourceDoc : XMLNode) (e : JSONElement) :
  In e (jsonNodes (xmlToJSON sourceDoc)) ->
  path e <> [] ->
  findJSONElementByPath (path e) (xmlToJSON sourceDoc) = Ok (Some e).
Proof.
  unfold xmlToJSON.
  destruct (filter isElement (childNodes sourceDoc)) as [|first rest].
  - intros [<-|[]] H. now contradiction H.
  - intros He Hp.
    destruct (translated_element_at_path first [] None e He) as (q & Hq & Hw).
    cbn [pathOf app] in Hq. rewrite Hq in Hp |- *.
    destruct q as [|j q']; [now contradiction Hp|]. exact Hw.
Qed.

Lemma json_paths_round_trip_witness :
  findJSONElementByPath [0; 0; 1] (xmlToJSON Samples.androidPage)
  = Ok (Some Cases.androidButton).
Proof.
  apply (json_paths_round_trip Samples.androidPage Cases.androidButton).
  - vm_compute. do 4 right. left. reflexivity.
  - discriminate.
Defined.

(** X12.  findJSONElementByPath on an index that finds no child: at the end of
    the path the answer is the empty object, before the end a TypeError is
    thrown; the empty path gives the empty object. *)
Theorem json_lookup_outside_the_tree (sourceJSON : JSONElement) (i : nat) :
  nth_error (children sourceJSON) i = None ->
  findJSONElementByPath [i] sourceJSON = Ok None
  /\ (forall j q, findJSONElementByPath (i :: j :: q) sourceJSON = Throw Js.TypeError)
  /\ findJSONElementByPath [] sourceJSON = Ok None.
Proof.
  intros H. unfold findJSONElementByPath. cbn [fold_left Js.bind]. rewrite H.
  repeat split. intros j q. cbn [Js.bind]. apply (jsonWalk_thrown Js.TypeError q).
Qed.

Lemma json_lookup_outside_the_tree_witness :
  findJSONElementByPath [5] (xmlToJSON Samples.twoSameId) = Ok None
  /\ (forall j q,
        findJSONElementByPath (5 :: j :: q) (xmlToJSON Samples.twoSameId)
        = Throw Js.TypeError)
  /\ findJSONElementByPath [] (xmlToJSON Samples.twoSameId) = Ok None.
Proof. exact (json_lookup_outside_the_tree (xmlToJSON Samples.twoSameId) 5 eq_refl). Defined.

(* ------------------------------------------------------------------ *)
(** ** The generic path strategy always answers *)

Lemma truthy_app_r (a b : string) : Js.truthy b = true -> Js.truthy (a ++ b) = true.
Proof. destruct a; [trivial | reflexivity]. Qed.

Lemma hierarchicalStep_truthy (doc : XMLNode) (r : DomRef) :
  Js.truthy (hierarchicalStep doc r) = true.
Proof.
  unfold hierarchicalStep. destruct (parentNode r) as [p|]; [|reflexivity].
  now destruct (1 <? length (sameNameSiblings doc r p))%nat.
Qed.

Lemma getOptimalXPathAt_answers (xpathSelect : XPath.Engine) (kids : list XMLNode) :
  forall r n,
    nodeAt (DocumentNode kids) r = Some n ->
    exists s,
      getOptimalXPathAt xpathSelect (DocumentNode kids) r = (Some s, [])
      /\ (isElement n = true -> Js.truthy (nodeName n) = true -> Js.truthy s = true).
Proof.
  induction r as [|i p IH]; intros n Hn.
  - cbn [nodeAt] in Hn. injection Hn as <-. exists Js.empty. split; [reflexivity|].
    discriminate.
  - destruct (Js.truthy (nodeName n) && Nat.eqb (nodeType n) 1) eqn:Ec.
    + apply andb_true_iff in Ec as [Hname Htype]. apply Nat.eqb_eq in Htype.
      rewrite (getOptimalXPathAt_element xpathSelect _ _ n Hn Hname Htype).
      rewrite casesLoop_xpathCases.
      destruct (find (fullyUnique xpathSelect (DocumentNode kids) (i :: p))
                  (candidateXPaths (DocumentNode kids) (i :: p))) as [u|] eqn:Ef.
      { exists u. split; [reflexivity|]. intros _ _.
        destruct (candidate_shape _ _ u (proj1 (find_some _ _ Ef))) as [rest ->]. reflexivity. }
      destruct (tagNameUnique xpathSelect (DocumentNode kids) (i :: p)).
      { eexists. split; [reflexivity|]. intros _ _.
        destruct (tagNameXPath_shape (DocumentNode kids) (i :: p)) as [rest ->]. reflexivity. }
      destruct (firstSome (semiUnique xpathSelect (DocumentNode kids) (i :: p))
                  (candidateXPaths (DocumentNode kids) (i :: p))) as [s|] eqn:Es.
      { exists s. split; [reflexivity|]. intros _ _.
        destruct (firstSome_semi_truthy _ _ _ _ _ Es) as [rest ->]. reflexivity. }
      cbn [nodeAt] in Hn.
      destruct (nodeAt (DocumentNode kids) p) as [pn|] eqn:Hp; [|discriminate].
      destruct (IH pn eq_refl) as (above & Ha & _). rewrite Ha.
      eexists. split; [reflexivity|]. intros _ _. cbn [Js.addOpt].
      apply truthy_app_r, hierarchicalStep_truthy.
    + exists Js.empty. split.
      * cbn [getOptimalXPathAt]. rewrite Hn.
        apply andb_false_iff in Ec as [Ec|Ec]; rewrite Ec; cbn [negb orb];
          [reflexivity | now rewrite orb_true_r].
      * intros He Hname. unfold isElement, ELEMENT_NODE in He. now rewrite He, Hname in Ec.
Qed.

(** X13.  For a node of a parsed document getOptimalXPath never returns null
    and logs nothing; for a named element the expression is not empty. *)
Theorem getOptimalXPath_always_answers
    (xpathSelect : XPath.Engine) (kids : list XMLNode) (r : DomRef) (n : XMLNode) :
  nodeAt (DocumentNode kids) r = Some n ->
  exists s,
    getOptimalXPath xpathSelect (DocumentNode kids) (Some r) = (Some s, [])
    /\ (isElement n = true -> Js.truthy (nodeName n) = true -> Js.truthy s = true).
Proof. intros H. cbn [getOptimalXPath]. now apply getOptimalXPathAt_answers. Qed.

Lemma getOptimalXPath_always_answers_witness :
  exists s,
    getOptimalXPath XPathEngine.select (DocumentNode (childNodes Samples.androidPage))
      (Some Cases.androidButtonRef) = (Some s, [])
    /\ (isElement Cases.androidButtonNode = true ->
        Js.truthy (nodeName Cases.androidButtonNode) = true -> Js.truthy s = true).
Proof.
  exact (getOptimalXPath_always_answers XPathEngine.select (childNodes Samples.androidPage)
           Cases.androidButtonRef Cases.androidButtonNode eq_refl).
Defined.

Lemma In_omitNil (k v : string) (o : Js.Obj (option string)) :
  In (k, Some v) o -> In (k, v) (omitNil o).
Proof.
  induction o as [|[k' [v'|]] o IH]; cbn [omitNil In]; [tauto| |].
  - intros [E|H]; [left; congruence | right; auto].
  - intros [E|H]; [discriminate | auto].
Qed.

Lemma In_set_same {V} (k : string) (v : V) (o : Js.Obj V) : In (k, v) (Js.set k v o).
Proof.
  induction o as [|[k' v'] o IH]; cbn [Js.set]; [now left|].
  destruct (String.eqb_spec k' k) as [->|]; [now left | now right].
Qed.

Lemma get_assign_In {V} (k : string) (v : V) (pairs : list (string * V)) :
  NoDup (ObjKeys.keys pairs) -> In (k, v) pairs ->
  forall a : Js.Obj V, Js.get k (Js.assign a pairs) = Some v.
Proof.
  unfold ObjKeys.keys.
  induction pairs as [|[k' v'] pairs IH]; intros Hn Hin a; [contradiction|].
  cbn [map fst] in Hn. inversion Hn as [|? ? Hk Hd]; subst.
  change (Js.assign a ((k', v') :: pairs)) with (Js.assign (Js.set k' v' a) pairs).
  destruct Hin as [E|Hin].
  - injection E as -> ->.
    rewrite (ObjFacts.get_assign_other k pairs Hk (Js.set k v a)). apply get_set_same.
  - now apply IH.
Qed.

Lemma sortLocators_has (priorityOrder : list string) (allLocators : Js.Obj string)
    (k v : string) :
  In k priorityOrder -> Js.get k allLocators = Some v -> Js.truthy v = true ->
  In (k, v) (sortLocators priorityOrder allLocators).
Proof.
  intros Hk Hg Ht. unfold sortLocators. apply in_or_app. left.
  apply in_flat_map. exists k. split; [exact Hk|]. rewrite Hg, Ht. now left.
Qed.

(** X14.  Every element of the JSON tree of a parsed document, other than the
    root and with a tag name, gets an xpath locator whenever its locators are
    computed: on every platform the list getSuggestedLocators returns has a
    non-empty xpath entry. *)
Theorem every_element_gets_an_xpath
    (xpathSelect : XPath.Engine) (kids : list XMLNode) (isNative : bool)
    (automationName : string) (e : JSONElement) (sorted : list (string * string)) (log : Log) :
  In e (jsonNodes (xmlToJSON (DocumentNode kids))) ->
  path e <> [] ->
  Js.truthy (tagName e) = true ->
  getSuggestedLocators xpathSelect e (DocumentNode kids) isNative automationName
    = Ok (sorted, log) ->
  exists s, In ("xpath", s) sorted /\ Js.truthy s = true.
Proof.
  intros He Hp Ht H.
  destruct (suggested_parts xpathSelect _ _ _ _ _ _ H) as (simple & complex & Hs & Hc & ->).
  destruct (translated_path_resolves (DocumentNode kids) e He Hp)
    as (r & n & Hfind & Hn & Hel & Htag & _).
  destruct (getOptimalXPathAt_answers xpathSelect kids r n Hn) as (s & Hx & Hs').
  rewrite Htag in Ht. specialize (Hs' Hel Ht).
  exists s. split; [|exact Hs'].
  assert (Hin : In ("xpath", s) complex).
  { unfold getComplexSuggestedLocators in Hc. rewrite Hfind in Hc. cbn [Js.bind] in Hc.
    cbn [getOptimalXPath] in Hc. rewrite Hx in Hc.
    match type of Hc with
    | (let '(_, _) := ?platform in _) = _ => destruct platform as [o l]
    end.
    injection Hc as <- _. apply In_omitNil, In_set_same. }
  apply sortLocators_has; [|apply get_assign_In; [|exact Hin]|exact Hs'].
  - unfold priorityOrderFor.
    destruct (isNative && _); [|destruct (isNative && _)]; cbn; tauto.
  - exact (proj1 (complex_shape xpathSelect _ _ _ _ _ _ Hc)).
Qed.

Lemma every_element_gets_an_xpath_witness :
  exists s,
    In ("xpath", s)
       (fst (Cases.suggested Cases.androidButton Samples.androidPage true "uiautomator2"))
    /\ Js.truthy s = true.
Proof.
  apply (every_element_gets_an_xpath XPathEngine.select (childNodes Samples.androidPage) true
           "uiautomator2" Cases.androidButton _
           (snd (Cases.suggested Cases.androidButton Samples.androidPage true "uiautomator2"))).
  - vm_compute. do 4 right. left. reflexivity.
  - discriminate.
  - reflexivity.
  - vm_compute. reflexivity.
Defined.

(* ------------------------------------------------------------------ *)
(** ** The predicate string *)

Module PredicateFacts.
Import XPathEngine EngineFacts EvalFacts.

Lemma parsePreds_step (fuel : nat) (a v rest : string) :
  goodTest (a, v) ->
  parsePreds (S fuel) (attrTest a v ++ " and " ++ rest)
  = match parsePreds fuel rest with
    | Some ps => Some ((a, v) :: ps)
    | None => None
    end.
Proof.
  intros [Ha Hv]. simpl in Ha, Hv.
  unfold attrTest. cbn [parsePreds].
  repeat rewrite append_assoc.
  rewrite stripPrefix_app.
  rewrite takeName_app; [| now apply validName_chars | exact eq_refl].
  rewrite Ha.
  change ("=" ++ Js.dquote ++ v ++ Js.dquote ++ " and " ++ rest)
    with (("=" ++ Js.dquote) ++ (v ++ Js.dquote ++ " and " ++ rest)).
  rewrite stripPrefix_app.
  change (v ++ Js.dquote ++ " and " ++ rest)
    with (v ++ String Js.dquoteChar (" and " ++ rest)).
  rewrite takeLiteral_app by exact Hv.
  assert (Hne : ((" and " ++ rest) =? "]") = false) by reflexivity.
  now rewrite Hne, stripPrefix_app.
Qed.

Lemma xpathTests_cons (t t' : string * string) (tests : list (string * string)) :
  xpathTests (t :: t' :: tests)
  = attrTest (fst t) (snd t) ++ " and " ++ xpathTests (t' :: tests).
Proof. reflexivity. Qed.

Lemma parsePreds_many (tests : list (string * string)) :
  tests <> [] -> Forall goodTest tests ->
  forall fuel, length tests <= fuel ->
    parsePreds fuel (xpathTests tests ++ "]") = Some tests.
Proof.
  induction tests as [|[a v] tests IH]; intros Hne Hall fuel Hfuel; [contradiction|].
  inversion Hall as [|? ? Hav Hrest]; subst.
  destruct fuel as [|fuel]; [cbn [length] in Hfuel; lia|].
  destruct tests as [|t' tests].
  - apply (parsePreds_one fuel a v Hav).
  - rewrite xpathTests_cons. cbn [fst snd]. rewrite !append_assoc.
    rewrite (parsePreds_step fuel a v _ Hav).
    rewrite IH; [reflexivity | discriminate | exact Hrest | cbn [length] in *; lia].
Qed.

Lemma xpathTests_length (tests : list (string * string)) :
  length tests <= String.length (xpathTests tests ++ "]").
Proof.
  induction tests as [|[a v] tests IH]; [cbn; lia|].
  destruct tests as [|t' tests].
  - pose proof (attrTest_length a v "]"). cbn [length]. exact H.
  - rewrite xpathTests_cons. cbn [fst snd]. rewrite !append_assoc.
    rewrite length_append. pose proof (attrTest_length a v EmptyString) as L.
    rewrite append_empty_r in L.
    change (String.length (" and " ++ xpathTests (t' :: tests) ++ "]"))
      with (5 + String.length (xpathTests (t' :: tests) ++ "]")).
    cbn [length] in *. lia.
Qed.

Lemma parse_any_many (tests : list (string * string)) :
  tests <> [] -> Forall goodTest tests ->
  parse ("//*[" ++ xpathTests tests ++ "]") = Some (mkQuery AnyName tests).
Proof.
  intros Hne Hall. unfold parse.
  change ("//*[" ++ xpathTests tests ++ "]") with ("//" ++ "*" ++ "[" ++ xpathTests tests ++ "]").
  rewrite !stripPrefix_app. cbn [append parseAfterTest]. cbn [Ascii.eqb Bool.eqb].
  now rewrite parsePreds_many; [| | | apply xpathTests_length].
Qed.

Section Node.

Variables (tree : XMLNode) (r : DomRef) (tag : string)
          (attrs : list (string * string)) (cs : list XMLNode).
Hypothesis Hr : r <> [].
Hypothesis Hnode : nodeAt tree r = Some (ElementNode tag attrs cs).
Hypothesis Hquotes : forall a v, In (a, v) attrs -> Js.hasChar Js.dquoteChar v = false.

Lemma ownTests_good (names : list string) (tests : list (string * string)) :
  forallb validName names = true -> ownTests attrs names tests -> Forall goodTest tests.
Proof.
  intros Hv Hown. apply Forall_forall. intros [a v] Hin.
  destruct (Hown a v Hin) as (Ha & Hl & _). rewrite forallb_forall in Hv. split.
  - exact (Hv a Ha).
  - exact (Hquotes a v (Oracle.lookupAttr_In _ _ _ Hl)).
Qed.

Lemma ownTests_match (names : list string) (tests : list (string * string)) :
  ownTests attrs names tests ->
  forall uri, matches (mkQuery AnyName tests) uri (ElementNode tag attrs cs) = true.
Proof.
  intros Hown uri. cbn [matches qTest qPreds andb]. apply forallb_forall. intros [a v] Hin.
  destruct (Hown a v Hin) as (_ & Hl & _). exact (lookupAttr_hasAttr _ _ _ Hl).
Qed.

Lemma predicateLoop_sound (names : list string) (rest : list string) :
  forallb validName names = true ->
  forall tests s,
    incl rest names ->
    ownTests attrs names tests ->
    predicateLoop select tree r rest
      (map (fun av => attrTest (fst av) (snd av)) tests)
      (map (fun av => fst av ++ " == " ++ Js.dquote ++ snd av ++ Js.dquote) tests) = Some s ->
    exists found,
      found <> [] /\ ownTests attrs names found /\ s = predicateTests found
      /\ eval (mkQuery AnyName found) tree = [r].
Proof.
  intros Hv. induction rest as [|a rest IH]; intros tests s Hincl Hown H;
    cbn [predicateLoop] in H; [discriminate|].
  assert (Hrest : incl rest names) by (intros x Hx; apply Hincl; now right).
  unfold attributeOf in H. rewrite Hnode in H. cbn [getAttribute] in H.
  destruct (lookupAttr a attrs) as [v|] eqn:Ea; [|now apply (IH tests)].
  destruct (Js.truthy v) eqn:Etv; [|now apply (IH tests)].
  assert (Hown' : ownTests attrs names (tests ++ [(a, v)])).
  { intros a' v' Hin. apply in_app_or in Hin as [Hin|[E|[]]]; [now apply Hown|].
    injection E as <- <-. repeat split; auto. apply Hincl. now left. }
  change [attrTest a v] with (map (fun av => attrTest (fst av) (snd av)) [(a, v)]) in H.
  change [a ++ " == " ++ Js.dquote ++ v ++ Js.dquote]
    with (map (fun av => fst av ++ " == " ++ Js.dquote ++ snd av ++ Js.dquote) [(a, v)]) in H.
  rewrite <- !map_app in H.
  fold (xpathTests (tests ++ [(a, v)])) in H.
  fold (predicateTests (tests ++ [(a, v)])) in H.
  assert (Hne : (tests ++ [(a, v)])%list <> []) by (now destruct tests).
  unfold select at 1 in H.
  rewrite (parse_any_many _ Hne (ownTests_good _ _ Hv Hown')) in H.
  cbn [XPath.asArray] in H.
  destruct (Nat.eqb (length (eval (mkQuery AnyName (tests ++ [(a, v)])) tree)) 1) eqn:El.
  - injection H as <-. exists (tests ++ [(a, v)])%list.
    split; [exact Hne | split; [exact Hown' | split; [reflexivity|]]].
    apply Nat.eqb_eq in El. apply short_list_with; [|lia].
    apply (eval_complete _ tree r _ Hr Hnode). exact (ownTests_match _ _ Hown' _).
  - now apply (IH (tests ++ [(a, v)])%list).
Qed.

End Node.

End PredicateFacts.

(** X15.  On the modelled XPath engine, for an element with a tag name whose
    attribute values hold no double quote: a predicate string returned by
    getOptimalPredicateString is the conjunction of tests on non-empty
    attributes of the element, named in CHECKED_PREDICATE_ATTRIBUTES, and the
    element is the only one of the tree that passes all of them.  Nothing is
    logged. *)
Theorem predicate_string_selects_its_node
    (tree : XMLNode) (r : DomRef) (tag : string) (attrs : list (string * string))
    (cs : list XMLNode) (s : string) (log : Log) :
  r <> [] ->
  nodeAt tree r = Some (ElementNode tag attrs cs) ->
  Js.truthy tag = true ->
  quoteFree attrs = true ->
  getOptimalPredicateString XPathEngine.select tree (Some r) = (Some s, log) ->
  log = []
  /\ exists tests,
       tests <> []
       /\ s = predicateTests tests
       /\ (forall a v, In (a, v) tests ->
             In a CHECKED_PREDICATE_ATTRIBUTES /\ In (a, v) attrs /\ Js.truthy v = true)
       /\ XPathEngine.eval (XPathEngine.mkQuery XPathEngine.AnyName tests) tree = [r].
Proof.
  intros Hr Hnode Htag Hq H. cbn [getOptimalPredicateString] in H. rewrite Hnode in H.
  cbn [nodeName nodeType Nat.eqb negb orb] in H. rewrite Htag in H. cbn [negb orb] in H.
  assert (Hlog : log = []) by congruence.
  assert (Hloop : predicateLoop XPathEngine.select tree r CHECKED_PREDICATE_ATTRIBUTES [] []
                  = Some s) by congruence.
  clear H. split; [exact Hlog|].
  destruct (PredicateFacts.predicateLoop_sound tree r tag attrs cs Hr Hnode
              (quoteFree_sound attrs Hq) CHECKED_PREDICATE_ATTRIBUTES
              CHECKED_PREDICATE_ATTRIBUTES eq_refl [] s (incl_refl _)
              (fun a v (H : In (a, v) []) => match H with end) Hloop)
    as (found & Hne & Hown & -> & He).
  exists found. split; [exact Hne | split; [reflexivity | split; [|exact He]]].
  intros a v Hin. destruct (Hown a v Hin) as (Ha & Hl & Ht).
  split; [exact Ha | split; [now apply Oracle.lookupAttr_In | exact Ht]].
Qed.

Lemma predicate_string_selects_its_node_witness :
  [] = ([] : Log)
  /\ exists tests,
       tests <> []
       /\ "name == " ++ Js.dquote ++ "Done" ++ Js.dquote = predicateTests tests
       /\ (forall a v, In (a, v) tests ->
             In a CHECKED_PREDICATE_ATTRIBUTES
             /\ In (a, v) [("name", "Done"); ("id", "done-button")]
             /\ Js.truthy v = true)
       /\ XPathEngine.eval (XPathEngine.mkQuery XPathEngine.AnyName tests) Samples.iosPage
          = [[0; 0]].
Proof.
  apply (predicate_string_selects_its_node Samples.iosPage [0; 0] "XCUIElementTypeButton"
           [("name", "Done"); ("id", "done-button")] []).
  - discriminate.
  - reflexivity.
  - reflexivity.
  - reflexivity.
  - reflexivity.
Defined.

(* ------------------------------------------------------------------ *)
(** ** The UiAutomator selector: the node inside the recreated document *)

Lemma walk_none (doc : XMLNode) (q : list nat) : walk doc None q = None.
Proof.
  unfold walk. induction q as [|j q IH]; [reflexivity|].
  cbn [fold_left childNodesOf]. now destruct j.
Qed.

Lemma childNodesOf_valid (doc : XMLNode) (r x : DomRef) :
  In x (childNodesOf doc (Some r)) ->
  exists c, nodeAt doc x = Some c /\ isElement c = true.
Proof.
  destruct (nodeAt doc r) as [n|] eqn:Hn.
  - rewrite (childNodesOf_indices doc r n Hn). intros H.
    apply in_map_iff in H as (i & <- & Hi).
    destruct (elementIndices_valid _ 0 i Hi) as (c & Hc & He & _).
    rewrite Nat.sub_0_r in Hc. exists c. cbn [nodeAt]. now rewrite Hn.
  - now rewrite (childNodesOf_dangling doc r Hn).
Qed.

(** Walking down from a node depends on the node alone, not on the document
    around it. *)
Lemma walk_transport (doc doc' : XMLNode) :
  forall q r r' n x,
    nodeAt doc r = Some n -> nodeAt doc' r' = Some n ->
    walk doc (Some r) q = Some x ->
    exists x' c,
      walk doc' (Some r') q = Some x'
      /\ nodeAt doc x = Some c /\ nodeAt doc' x' = Some c
      /\ (q <> [] -> isElement c = true).
Proof.
  induction q as [|j q IH]; intros r r' n x Hn Hn' Hw.
  - cbn in Hw. injection Hw as <-. exists r', n. now repeat split.
  - unfold walk in Hw |- *. cbn [fold_left] in Hw |- *.
    rewrite (childNodesOf_indices doc r n Hn) in Hw.
    rewrite (childNodesOf_indices doc' r' n Hn').
    rewrite nth_error_map in Hw |- *.
    destruct (nth_error (elementIndices 0 (childNodes n)) j) as [i|] eqn:Ei;
      cbn [option_map] in Hw |- *.
    + destruct (elementIndices_valid _ 0 i (nth_error_In _ _ Ei)) as (c & Hc & He & _).
      rewrite Nat.sub_0_r in Hc.
      assert (H1 : nodeAt doc (i :: r) = Some c) by (cbn [nodeAt]; now rewrite Hn).
      assert (H2 : nodeAt doc' (i :: r') = Some c) by (cbn [nodeAt]; now rewrite Hn').
      destruct (IH (i :: r) (i :: r') c x H1 H2 Hw) as (x' & c' & Hw' & Hx & Hx' & Hel).
      exists x', c'. repeat split; auto. intros _.
      destruct q as [|j' q']; [|apply Hel; discriminate].
      cbn in Hw, Hw'. injection Hw as <-. injection Hw' as <-. congruence.
    + change (walk doc None q = Some x) in Hw. now rewrite walk_none in Hw.
Qed.

(** X16.  For a named element found at its path, the first index of which is
    that of the last child of the hierarchy, getOptimalUiAutomatorSelector
    finds the same node in the document recreated from that child, at the path
    with its first index set to 0; the selector is the one its attribute loop
    computes there, and nothing is logged. *)
Theorem uiautomator_selector_inside_last_child
    (xpathSelect : XPath.Engine) (doc : XMLNode) (k : nat) (q : list nat)
    (r : DomRef) (n : XMLNode) :
  findDOMNodeByPath (k :: q) doc = Ok (Some r) ->
  nodeAt doc r = Some n ->
  Js.truthy (nodeName n) = true ->
  k = length (hierarchyChildrenOf doc) - 1 ->
  exists lastRef lastHierarchyChild newDomNode,
    nth_error (hierarchyChildrenOf doc) k = Some lastRef
    /\ nodeAt doc lastRef = Some lastHierarchyChild
    /\ findDOMNodeByPath (0 :: q) (dummyDocument lastHierarchyChild) = Ok (Some newDomNode)
    /\ nodeAt (dummyDocument lastHierarchyChild) newDomNode = Some n
    /\ getOptimalUiAutomatorSelector xpathSelect doc (Some r) (k :: q)
       = (uiAutomatorLoop xpathSelect (dummyDocument lastHierarchyChild) newDomNode
            CHECKED_UIAUTOMATOR_ATTRIBUTES None None, []).
Proof.
  intros Hfind Hn Hname Hk.
  unfold findDOMNodeByPath in Hfind. unfold hierarchyChildrenOf in Hk |- *.
  destruct (childNodesOf doc (Some [])) as [|first others] eqn:Ekids; [discriminate|].
  assert (Hw : walk doc (nth_error (childNodesOf doc (Some first)) k) q = Some r)
    by (injection Hfind as Hw; exact Hw).
  clear Hfind.
  destruct (nth_error (childNodesOf doc (Some first)) k) as [lastRef|] eqn:Ek;
    [|now rewrite walk_none in Hw].
  destruct (childNodesOf_valid doc first lastRef (nth_error_In _ _ Ek)) as (last & Hlast & Hel).
  assert (Hnew : nodeAt (dummyDocument last) [0; 0] = Some last) by reflexivity.
  destruct (walk_transport doc (dummyDocument last) q lastRef [0; 0] last r Hlast Hnew Hw)
    as (r' & c & Hw' & Hc & Hc' & Helc).
  assert (c = n) by congruence. subst c.
  assert (Hfind' : findDOMNodeByPath (0 :: q) (dummyDocument last) = Ok (Some r')).
  { assert (E1 : childNodesOf (dummyDocument last) (Some [0]) = [[0; 0]]).
    { unfold childNodesOf, childRefsWhere, indexed, dummyDocument.
      cbn [nodeAt childNodes nth_error length seq combine filter snd].
      unfold isElement in Hel. now rewrite Hel. }
    change (Ok (walk (dummyDocument last)
                  (nth_error (childNodesOf (dummyDocument last) (Some [0])) 0) q)
            = Ok (Some r')).
    rewrite E1. cbn [nth_error]. now f_equal. }
  assert (Hn_el : isElement n = true).
  { destruct q as [|j q']; [|apply Helc; discriminate].
    cbn in Hw. injection Hw as <-. congruence. }
  exists lastRef, last, r'. repeat split; auto.
  unfold getOptimalUiAutomatorSelector, hierarchyChildrenOf. rewrite Hn, Ekids.
  unfold isElement, ELEMENT_NODE in Hn_el. rewrite Hname, Hn_el. cbn [negb orb].
  destruct (childNodesOf doc (Some first)) as [|h hs] eqn:Eh; [now destruct k|].
  rewrite <- Hk, Nat.eqb_refl, Ek, Hlast. cbn [tl]. now rewrite Hfind'.
Qed.

Lemma uiautomator_selector_inside_last_child_witness :
  exists lastRef lastHierarchyChild newDomNode,
    nth_error (hierarchyChildrenOf Samples.androidPage) 0 = Some lastRef
    /\ nodeAt Samples.androidPage lastRef = Some lastHierarchyChild
    /\ findDOMNodeByPath [0; 0; 1] (dummyDocument lastHierarchyChild) = Ok (Some newDomNode)
    /\ nodeAt (dummyDocument lastHierarchyChild) newDomNode = Some Cases.androidButtonNode
    /\ getOptimalUiAutomatorSelector XPathEngine.select Samples.androidPage
         (Some Cases.androidButtonRef) [0; 0; 1]
       = (uiAutomatorLoop XPathEngine.select (dummyDocument lastHierarchyChild) newDomNode
            CHECKED_UIAUTOMATOR_ATTRIBUTES None None, []).
Proof.
  exact (uiautomator_selector_inside_last_child XPathEngine.select Samples.androidPage 0 [0; 1]
           Cases.androidButtonRef Cases.androidButtonNode eq_refl eq_refl eq_refl eq_refl).
Defined.

(* ------------------------------------------------------------------ *)
(** ** The class chain always answers *)

Lemma classChainLoop_truthy (xpathSelect : XPath.Engine) (doc : XMLNode) (r : DomRef)
    (attrs : list string) (c : string) :
  classChainLoop xpathSelect doc r attrs = Some c -> Js.truthy c = true.
Proof.
  induction attrs as [|a attrs IH]; cbn [classChainLoop]; [discriminate|].
  destruct (attributeOf doc r a) as [v|]; [|exact IH].
  destruct (Js.truthy v); [|exact IH].
  destruct (xpathSelect _ doc) as [l| |]; [| |exact IH]; cbn [XPath.asArray].
  - destruct (1 <? length l)%nat; intros H; injection H as <-; reflexivity.
  - cbn [length Nat.ltb Nat.leb]. intros H; injection H as <-; reflexivity.
Qed.

Lemma getOptimalClassChainAt_answers (xpathSelect : XPath.Engine) (kids : list XMLNode) :
  forall r n,
    nodeAt (DocumentNode kids) r = Some n ->
    exists s,
      getOptimalClassChainAt xpathSelect (DocumentNode kids) r = (Some s, [])
      /\ (isElement n = true -> Js.truthy (nodeName n) = true ->
          nodeName n <> "XCUIElementTypeApplication" -> Js.truthy s = true)
      /\ (nodeName n = "XCUIElementTypeApplication" -> s = Js.empty).
Proof.
  induction r as [|i p IH]; intros n Hn.
  - cbn [nodeAt] in Hn. injection Hn as <-. exists Js.empty.
    repeat split; [discriminate].
  - cbn [getOptimalClassChainAt]. rewrite Hn.
    destruct (negb (Js.truthy (nodeName n)) || negb (Nat.eqb (nodeType n) 1)
              || (nodeName n =? "XCUIElementTypeApplication")) eqn:Ec.
    + exists Js.empty. repeat split. intros He Hname Happ.
      unfold isElement, ELEMENT_NODE in He. rewrite He, Hname in Ec. cbn [negb orb] in Ec.
      now apply String.eqb_eq in Ec.
    + apply orb_false_iff in Ec as [_ Eapp]. apply String.eqb_neq in Eapp.
      destruct (classChainLoop xpathSelect (DocumentNode kids) (i :: p)
                  CHECKED_CLASS_CHAIN_ATTRIBUTES) as [c|] eqn:El.
      * exists c. repeat split; [|now intros].
        intros _ _ _. exact (classChainLoop_truthy _ _ _ _ _ El).
      * cbn [nodeAt] in Hn.
        destruct (nodeAt (DocumentNode kids) p) as [pn|] eqn:Hp; [|discriminate].
        destruct (IH pn eq_refl) as (above & Ha & _). rewrite Ha.
        eexists. repeat split; [|now intros].
        intros _ _ _. cbn [Js.addOpt]. apply truthy_app_r, hierarchicalStep_truthy.
Qed.

(** X17.  For a node of a parsed document getOptimalClassChain never returns
    null and logs nothing.  The chain is empty for an element named
    XCUIElementTypeApplication, and not empty for any other named element. *)
Theorem getOptimalClassChain_always_answers
    (xpathSelect : XPath.Engine) (kids : list XMLNode) (r : DomRef) (n : XMLNode) :
  nodeAt (DocumentNode kids) r = Some n ->
  exists s,
    getOptimalClassChain xpathSelect (DocumentNode kids) (Some r) = (Some s, [])
    /\ (isElement n = true -> Js.truthy (nodeName n) = true ->
        nodeName n <> "XCUIElementTypeApplication" -> Js.truthy s = true)
    /\ (nodeName n = "XCUIElementTypeApplication" -> s = Js.empty).
Proof. intros H. cbn [getOptimalClassChain]. now apply getOptimalClassChainAt_answers. Qed.

Lemma getOptimalClassChain_always_answers_witness :
  exists s,
    getOptimalClassChain XPathEngine.select (DocumentNode (childNodes Samples.iosPage))
      (Some [0; 0]) = (Some s, [])
    /\ (isElement (ElementNode "XCUIElementTypeButton"
                     [("name", "Done"); ("id", "done-button")] []) = true ->
        Js.truthy "XCUIElementTypeButton" = true ->
        "XCUIElementTypeButton" <> "XCUIElementTypeApplication" -> Js.truthy s = true)
    /\ ("XCUIElementTypeButton" = "XCUIElementTypeApplication" -> s = Js.empty).
Proof.
  exact (getOptimalClassChain_always_answers XPathEngine.select (childNodes Samples.iosPage)
           [0; 0]
           (ElementNode "XCUIElementTypeButton" [("name", "Done"); ("id", "done-button")] [])
           eq_refl).
Defined.

(* ------------------------------------------------------------------ *)
(** ** The hierarchical step *)

Lemma refEqb_eq (a b : DomRef) : refEqb a b = true <-> a = b.
Proof. unfold refEqb. destruct (list_eq_dec Nat.eq_dec a b); split; congruence. Qed.

Lemma indexOf_found (x : DomRef) (l : list DomRef) :
  In x l ->
  exists j, Js.indexOf refEqb x l = Z.of_nat j
            /\ nth_error l j = Some x
            /\ (forall j', j' < j -> nth_error l j' <> Some x).
Proof.
  induction l as [|y l IH]; [contradiction|]. intros Hin. cbn [Js.indexOf].
  destruct (refEqb y x) eqn:E.
  - apply refEqb_eq in E as ->. exists 0. repeat split. intros j' Hj. lia.
  - assert (Hne : y <> x) by (intros ->; now rewrite (proj2 (refEqb_eq x x) eq_refl) in E).
    destruct Hin as [->|Hin]; [contradiction|].
    destruct (IH Hin) as (j & Hi & Hj & Hfirst). rewrite Hi. exists (S j).
    assert (Hpos : (Z.of_nat j <? 0)%Z = false) by (apply Z.ltb_ge; lia).
    rewrite Hpos. repeat split; [lia | exact Hj |].
    intros [|j'] Hlt; cbn [nth_error]; [congruence | apply Hfirst; lia].
Qed.

Lemma In_indexed_from (cs : list XMLNode) :
  forall start i c,
    nth_error cs i = Some c -> In (start + i, c) (combine (seq start (length cs)) cs).
Proof.
  induction cs as [|c0 cs IH]; intros start i c H; [now destruct i|].
  cbn [length seq combine]. destruct i as [|i]; cbn [nth_error] in H.
  - injection H as <-. left. now rewrite Nat.add_0_r.
  - right. replace (start + S i) with (S start + i) by lia. now apply IH.
Qed.

(** X19.  The last step of a hierarchical expression for an element: the
    position it carries, when there are several element siblings of the same
    name, is the 1-based position of the node itself among them; indexOf never
    misses there. *)
Theorem hierarchical_step_indexes_the_node
    (doc : XMLNode) (i : nat) (p : DomRef) (n : XMLNode) :
  nodeAt doc (i :: p) = Some n ->
  isElement n = true ->
  exists j,
    nth_error (sameNameSiblings doc (i :: p) p) j = Some (i :: p)
    /\ (forall j', j' < j -> nth_error (sameNameSiblings doc (i :: p) p) j' <> Some (i :: p))
    /\ hierarchicalStep doc (i :: p)
       = if (1 <? length (sameNameSiblings doc (i :: p) p))%nat
         then "/" ++ nodeName n ++ "[" ++ Js.showZ (Z.of_nat j + 1) ++ "]"
         else "/" ++ nodeName n.
Proof.
  intros Hn He.
  assert (Hin : In (i :: p) (sameNameSiblings doc (i :: p) p)).
  { unfold sameNameSiblings, childRefsWhere, nameOf. rewrite Hn. cbn [nodeAt] in Hn.
    destruct (nodeAt doc p) as [pn|]; [|discriminate].
    apply in_map_iff. exists (i, n). split; [reflexivity|].
    apply filter_In. split; [exact (In_indexed_from _ 0 i n Hn)|].
    cbn [snd]. unfold isElement, ELEMENT_NODE in He. now rewrite He, String.eqb_refl. }
  destruct (indexOf_found _ _ Hin) as (j & Hi & Hj & Hfirst).
  exists j. split; [exact Hj | split; [exact Hfirst|]].
  unfold hierarchicalStep. cbn [parentNode]. rewrite Hi. unfold nameOf. now rewrite Hn.
Qed.

Lemma hierarchical_step_indexes_the_node_witness :
  exists j,
    nth_error (sameNameSiblings Samples.twoPlainChildren [3; 0] [0]) j = Some [3; 0]
    /\ (forall j', j' < j ->
          nth_error (sameNameSiblings Samples.twoPlainChildren [3; 0] [0]) j' <> Some [3; 0])
    /\ hierarchicalStep Samples.twoPlainChildren [3; 0]
       = if (1 <? length (sameNameSiblings Samples.twoPlainChildren [3; 0] [0]))%nat
         then "/" ++ "a" ++ "[" ++ Js.showZ (Z.of_nat j + 1) ++ "]"
         else "/" ++ "a".
Proof.
  exact (hierarchical_step_indexes_the_node Samples.twoPlainChildren 3 [0]
           (ElementNode "a" [] []) eq_refl eq_refl).
Defined.

(* ------------------------------------------------------------------ *)
(** ** Paths identify the elements of the JSON tree *)

(** X20.  No two elements of the JSON tree share a path. *)
Theorem json_paths_identify_elements (sourceDoc : XMLNode) (e e' : JSONElement) :
  In e (jsonNodes (xmlToJSON sourceDoc)) ->
  In e' (jsonNodes (xmlToJSON sourceDoc)) ->
  path e = path e' ->
  e = e'.
Proof.
  unfold xmlToJSON.
  destruct (filter isElement (childNodes sourceDoc)) as [|first rest].
  - intros [<-|[]] [<-|[]] _. reflexivity.
  - intros He He' Hp.
    destruct (translated_element_at_path first [] None e He) as (q & Hq & Hw).
    destruct (translated_element_at_path first [] None e' He') as (q' & Hq' & Hw').
    cbn [pathOf app] in Hq, Hq'. assert (q = q') by congruence. subst q'.
    congruence.
Qed.

Lemma json_paths_identify_elements_witness : Cases.androidButton = Cases.androidButton.
Proof.
  apply (json_paths_identify_elements Samples.androidPage Cases.androidButton
           Cases.androidButton).
  - vm_compute. do 4 right. left. reflexivity.
  - vm_compute. do 4 right. left. reflexivity.
  - reflexivity.
Defined.

(* ------------------------------------------------------------------ *)
(** ** On the modelled engine no element is lost to an error *)

Module NoLoss.
Import XPathEngine.

Lemma simpleLocatorsLoop_answers (doc : XMLNode) (attrs : Js.Obj string) (isNative : bool)
    (mappings : list (string * string)) :
  forallb (fun m => validName (fst m)) mappings = true ->
  forall res, exists simple,
    simpleLocatorsLoop select mappings attrs (Some doc) isNative res = Ok simple.
Proof.
  induction mappings as [|[a s] mappings IH]; intros Hv res; [now exists res|].
  cbn [forallb fst] in Hv. apply andb_true_iff in Hv as [Ha Hv].
  cbn [simpleLocatorsLoop].
  destruct (negb ((s =? "accessibility id") && negb isNative)); [|now apply IH].
  destruct (Js.get a attrs) as [v|]; [|now apply IH].
  destruct (Js.truthy v); [|now apply IH].
  rewrite (Oracle.areAttrAndValueUnique_eq a v doc Ha). cbn [Js.bind]. now apply IH.
Qed.

Lemma first_element_found (doc : XMLNode) :
  filter isElement (childNodes doc) <> [] -> childNodesOf doc (Some []) <> [].
Proof.
  intros Hne Hnone. apply Hne. clear Hne.
  unfold childNodesOf, childRefsWhere, indexed in Hnone. cbn [nodeAt] in Hnone.
  apply map_eq_nil in Hnone. revert Hnone. generalize 0.
  induction (childNodes doc) as [|c cs IH]; intros start H; [reflexivity|].
  cbn [length seq combine filter snd] in H |- *. unfold isElement at 1.
  destruct (Nat.eqb (nodeType c) ELEMENT_NODE); [discriminate | exact (IH _ H)].
Qed.

Lemma getSuggestedLocators_answers (doc : XMLNode) (e : JSONElement) (isNative : bool)
    (automationName : string) :
  filter isElement (childNodes doc) <> [] ->
  exists r, getSuggestedLocators select e doc isNative automationName = Ok r.
Proof.
  intros Hne. apply first_element_found in Hne.
  unfold getSuggestedLocators, getSimpleSuggestedLocators.
  destruct (simpleLocatorsLoop_answers doc (attributes e) isNative SIMPLE_STRATEGY_MAPPINGS
              eq_refl []) as [simple ->].
  cbn [Js.bind]. unfold getComplexSuggestedLocators.
  assert (Hfind : exists d, findDOMNodeByPath (path e) doc = Ok d).
  { unfold findDOMNodeByPath. destruct (childNodesOf doc (Some [])); [contradiction|].
    destruct (path e); eauto. }
  destruct Hfind as [d ->]. cbn [Js.bind].
  match goal with
  | |- exists r, Js.bind (let '(_, _) := ?platform in _) _ = _ => destruct platform as [o l]
  end.
  destruct (getOptimalXPath select doc d) as [xp lx]. cbn [Js.bind]. eauto.
Qed.

End NoLoss.

(** X21.  On the modelled XPath engine, for a document with an element child,
    no element is lost to an error: the records are, in the pre-order of the
    JSON tree, those of exactly the elements that pass the filter. *)
Theorem every_included_element_is_reported
    (sourceDoc : XMLNode) (isNative : bool) (automationName : string)
    (filters : FilterOptions) :
  filter isElement (childNodes sourceDoc) <> [] ->
  map ewlTagName
    (fst (generateAllElementLocators XPathEngine.select sourceDoc isNative automationName
            filters))
  = map tagName
      (filter (fun e => shouldIncludeElement e filters isNative automationName)
              (jsonNodes (xmlToJSON sourceDoc))).
Proof.
  intros Hne. unfold generateAllElementLocators, traverseAndProcessElements.
  change ([], []) with emptyState. rewrite traverse_preorder.
  induction (jsonNodes (xmlToJSON sourceDoc)) as [|e l IH]; [reflexivity|].
  cbn [flat_map filter]. rewrite map_app, IH. unfold reportOf at 1.
  destruct (shouldIncludeElement e filters isNative automationName); [|reflexivity].
  destruct (NoLoss.getSuggestedLocators_answers sourceDoc e isNative automationName Hne)
    as [[locs lg] ->].
  reflexivity.
Qed.

Lemma every_included_element_is_reported_witness :
  map ewlTagName (Cases.androidResults Cases.clickableFilter)
  = map tagName
      (filter (fun e => shouldIncludeElement e Cases.clickableFilter true "uiautomator2")
              (jsonNodes (xmlToJSON Samples.androidPage))).
Proof.
  apply (every_included_element_is_reported Samples.androidPage true "uiautomator2"
           Cases.clickableFilter).
  discriminate.
Defined.

(* ------------------------------------------------------------------ *)
(** ** The attribute filters *)

(** X22.  With a non-empty requireAttributes none of whose names is a property
    every object inherits from Object.prototype, every record is the record of
    an element of the JSON tree that has a non-empty value for one of the
    required attributes. *)
Theorem requireAttributes_reports_carriers
    (xpathSelect : XPath.Engine) (sourceDoc : XMLNode) (isNative : bool)
    (automationName : string) (filters : FilterOptions) (required : list string)
    (x : ElementWithLocators) :
  requireAttributes filters = Some required ->
  required <> [] ->
  (forall attr, In attr required -> ~ In attr Js.objectPrototypeKeys) ->
  In x (fst (generateAllElementLocators xpathSelect sourceDoc isNative automationName filters)) ->
  exists e locs log attr value,
    In e (jsonNodes (xmlToJSON sourceDoc))
    /\ getSuggestedLocators xpathSelect e sourceDoc isNative automationName = Ok (locs, log)
    /\ x = transformElementWithLocators e locs
    /\ In attr required
    /\ Js.get attr (attributes e) = Some value
    /\ Js.truthy value = true.
Proof.
  intros Hreq Hne Hown Hx.
  apply reported_from in Hx as (e & locs & lg & He & Hinc & Hlocs & ->).
  unfold shouldIncludeElement in Hinc. rewrite Hreq in Hinc. cbn [orDefault] in Hinc.
  destruct (matchesAttributeFilters e required
              (match minAttributeCount filters with Some m => m | None => 0%Z end)) eqn:Em.
  - unfold matchesAttributeFilters in Em.
    destruct required as [|a0 rest]; [contradiction|].
    cbn [length Nat.ltb Nat.leb andb] in Em.
    destruct (existsb (fun attr => Js.truthyProperty attr (attributes e)) (a0 :: rest))
      eqn:Ex; [|discriminate].
    apply existsb_exists in Ex as (attr & Hattr & Ht). unfold Js.truthyProperty in Ht.
    destruct (Js.get attr (attributes e)) as [value|] eqn:Eg.
    + exists e, locs, lg, attr, value. repeat split; auto.
    + apply existsb_exists in Ht as (inherited & Hin & E). apply String.eqb_eq in E.
      subst inherited. now destruct (Hown attr Hattr).
  - unfold orDefault in Hinc. rewrite Em in Hinc. cbn [negb] in Hinc.
    destruct (negb (matchesTagFilters e _ _)); discriminate.
Qed.

Lemma requireAttributes_reports_carriers_witness :
  exists e locs log attr value,
    In e (jsonNodes (xmlToJSON Samples.androidPage))
    /\ getSuggestedLocators XPathEngine.select e Samples.androidPage true "uiautomator2"
       = Ok (locs, log)
    /\ Cases.firstOf (Cases.androidResults Cases.textFilter)
       = transformElementWithLocators e locs
    /\ In attr ["text"]
    /\ Js.get attr (attributes e) = Some value
    /\ Js.truthy value = true.
Proof.
  apply (requireAttributes_reports_carriers XPathEngine.select Samples.androidPage true
           "uiautomator2" Cases.textFilter ["text"] _ eq_refl).
  - discriminate.
  - intros attr [<-|[]] Hin. cbn in Hin. intuition discriminate.
  - vm_compute. left. reflexivity.
Defined.

(** Why the names must not be inherited ones: every object has a constructor,
    so requiring that attribute lets through the element that has no attribute
    at all. *)
Example inherited_name_requires_nothing :
  map (fun e => (attributes e, shouldIncludeElement e Cases.inheritedNameFilter true
                                 "uiautomator2"))
      (children (xmlToJSON Samples.bareAndLabelled))
  = [([], true); ([("text", "t")], true)].
Proof. reflexivity. Qed.

(** X23.  With minAttributeCount set, every record is the record of an element
    of the JSON tree that has at least that many attributes. *)
Theorem minAttributeCount_reports_rich_elements
    (xpathSelect : XPath.Engine) (sourceDoc : XMLNode) (isNative : bool)
    (automationName : string) (filters : FilterOptions) (minimum : Z)
    (x : ElementWithLocators) :
  minAttributeCount filters = Some minimum ->
  In x (fst (generateAllElementLocators xpathSelect sourceDoc isNative automationName filters)) ->
  exists e locs log,
    In e (jsonNodes (xmlToJSON sourceDoc))
    /\ getSuggestedLocators xpathSelect e sourceDoc isNative automationName = Ok (locs, log)
    /\ x = transformElementWithLocators e locs
    /\ (minimum <= Z.of_nat (length (attributes e)))%Z.
Proof.
  intros Hmin Hx. apply reported_from in Hx as (e & locs & lg & He & Hinc & Hlocs & ->).
  exists e, locs, lg. split; [exact He | split; [exact Hlocs | split; [reflexivity|]]].
  unfold shouldIncludeElement in Hinc. rewrite Hmin in Hinc. cbn [orDefault] in Hinc.
  destruct (matchesAttributeFilters e
              (match requireAttributes filters with Some r => r | None => [] end) minimum)
    eqn:Em.
  - unfold matchesAttributeFilters in Em.
    destruct (Z.of_nat (length (attributes e)) <? minimum)%Z eqn:El.
    + destruct ((0 <? length _)%nat && _); discriminate.
    + apply Z.ltb_ge in El. exact El.
  - unfold orDefault in Hinc. rewrite Em in Hinc. cbn [negb] in Hinc.
    destruct (negb (matchesTagFilters e _ _)); discriminate.
Qed.

Lemma minAttributeCount_reports_rich_elements_witness :
  exists e locs log,
    In e (jsonNodes (xmlToJSON Samples.androidPage))
    /\ getSuggestedLocators XPathEngine.select e Samples.androidPage true "uiautomator2"
       = Ok (locs, log)
    /\ Cases.firstOf (Cases.androidResults Cases.fiveAttributesFilter)
       = transformElementWithLocators e locs
    /\ (5 <= Z.of_nat (length (attributes e)))%Z.
Proof.
  apply (minAttributeCount_reports_rich_elements XPathEngine.select Samples.androidPage true
           "uiautomator2" Cases.fiveAttributesFilter 5%Z _ eq_refl).
  vm_compute. left. reflexivity.
Defined.

(* ------------------------------------------------------------------ *)
(** ** Attribute values: claims *)

Lemma lookupAttr_absent (k : string) (attrs : list (string * string)) :
  lookupAttr k attrs = None -> ~ In k (map fst attrs).
Proof.
  induction attrs as [|[k' v] attrs IH]; cbn [lookupAttr map fst In]; [tauto|].
  destruct (String.eqb_spec k' k) as [->|Hne]; [discriminate|].
  intros H [E|Hin]; [contradiction | now apply IH].
Qed.

Lemma stored_keys (attrs : list (string * string)) :
  map fst (map (fun attr => (fst attr, Js.escapeNewlines (snd attr)))
               (filter (fun attr => negb (fst attr =? "__proto__")) attrs))
  = filter (fun k => negb (k =? "__proto__")) (map fst attrs).
Proof.
  induction attrs as [|[k v] attrs IH]; [reflexivity|].
  cbn [filter map fst]. destruct (k =? "__proto__"); cbn [negb map fst]; now rewrite IH.
Qed.

(** What the attributes object holds under a name, for a node whose attribute
    names are distinct, as they are in a parsed element: the escaped value of
    the attribute of that name, and nothing under __proto__. *)
Lemma translateAttributes_get (n : XMLNode) (k : string) :
  NoDup (map fst (ownAttributes n)) ->
  Js.get k (translateAttributes n)
  = if k =? "__proto__" then None else option_map Js.escapeNewlines (getAttribute n k).
Proof.
  destruct n as [cs | t attrs cs | t ty]; cbn [ownAttributes translateAttributes getAttribute];
    intros Hnd; [now destruct (k =? "__proto__") | | now destruct (k =? "__proto__")].
  rewrite translateAttributes_stored.
  assert (Hkeys : NoDup (ObjKeys.keys
                    (map (fun attr => (fst attr, Js.escapeNewlines (snd attr)))
                         (filter (fun attr => negb (fst attr =? "__proto__")) attrs)))).
  { unfold ObjKeys.keys. rewrite stored_keys. now apply NoDup_filter. }
  destruct (String.eqb_spec k "__proto__") as [->|Hne].
  - rewrite ObjFacts.get_assign_other; [reflexivity|].
    rewrite stored_keys. intros Hin. apply filter_In in Hin as [_ Hin]. discriminate Hin.
  - destruct (lookupAttr k attrs) as [v|] eqn:E; cbn [option_map].
    + apply (get_assign_In k (Js.escapeNewlines v) _ Hkeys).
      apply in_map_iff. exists (k, v). split; [reflexivity|].
      apply filter_In. split; [now apply Oracle.lookupAttr_In|].
      cbn [fst]. now destruct (String.eqb_spec k "__proto__").
    + rewrite ObjFacts.get_assign_other; [reflexivity|].
      rewrite stored_keys. intros Hin. apply filter_In in Hin as [Hin _].
      exact (lookupAttr_absent k attrs E Hin).
Qed.

(** Every element of the JSON tree of a document with an element is the
    translation of a node of the document. *)
Lemma json_element_origin (sourceDoc : XMLNode) (e : JSONElement) :
  filter isElement (childNodes sourceDoc) <> [] ->
  In e (jsonNodes (xmlToJSON sourceDoc)) ->
  exists r n,
    nodeAt sourceDoc r = Some n
    /\ tagName e = nodeName n
    /\ attributes e = translateAttributes n.
Proof.
  unfold xmlToJSON.
  destruct (filter isElement (childNodes sourceDoc)) as [|first rest] eqn:Ef;
    [now intros H|]. intros _ He.
  destruct (elementIndices_nth (childNodes sourceDoc) 0 0 first) as (i0 & _ & Hc);
    [now rewrite Ef|].
  assert (Hfirst : nodeAt sourceDoc [i0] = Some first) by (cbn [nodeAt]; exact Hc).
  destruct (translated_element_found sourceDoc first [i0] [] None e Hfirst He)
    as (q & r & n & _ & _ & Hn & Ht & Ha & _).
  now exists r, n.
Qed.

(** What holds of the attributes that are carried over.  Every attribute value
    of every element of the JSON tree is the value of a parsed attribute with
    each line feed replaced by backslash, n, and holds no line feed; under
    every name but __proto__ the JSON element holds the escaped value of the
    attribute of that name.  The simple locators are values of the JSON
    element, each accepted by a uniqueness check made on that very value.
    Every record is the summary of an element of the JSON tree, and its text,
    content-desc and resource-id are the escaped values of the attributes of
    the node that element translates. *)
Lemma json_attribute_values_are_escaped (sourceDoc : XMLNode) :
  Forall NewlineFree (jsonNodes (xmlToJSON sourceDoc))
  /\ (forall domNode parentPath index k v,
        In (k, v) (attributes (translateRecursively domNode parentPath index)) ->
        exists original,
          In (k, original) (ownAttributes domNode) /\ v = Js.escapeNewlines original)
  /\ (forall domNode parentPath index k,
        NoDup (map fst (ownAttributes domNode)) ->
        Js.get k (attributes (translateRecursively domNode parentPath index))
        = if k =? "__proto__" then None
          else option_map Js.escapeNewlines (getAttribute domNode k))
  /\ (forall xpathSelect element isNative simple strategy value,
        getSimpleSuggestedLocators xpathSelect (attributes element) (Some sourceDoc) isNative
          = Ok simple ->
        In (strategy, value) simple ->
        exists alias,
          In (alias, strategy) SIMPLE_STRATEGY_MAPPINGS
          /\ Js.get alias (attributes element) = Some value
          /\ areAttrAndValueUnique xpathSelect alias value (Some sourceDoc) = Ok true)
  /\ (forall xpathSelect isNative automationName filters x,
        In x (fst (generateAllElementLocators xpathSelect sourceDoc isNative automationName
                     filters)) ->
        exists e locs r n,
          In e (jsonNodes (xmlToJSON sourceDoc))
          /\ x = transformElementWithLocators e locs
          /\ nodeAt sourceDoc r = Some n
          /\ tagName e = nodeName n
          /\ attributes e = translateAttributes n
          /\ Js.hasChar Js.newlineChar (text x) = false
          /\ Js.hasChar Js.newlineChar (contentDesc x) = false
          /\ Js.hasChar Js.newlineChar (resourceId x) = false
          /\ (NoDup (map fst (ownAttributes n)) ->
              text x = escapedAttribute n "text"
              /\ contentDesc x = escapedAttribute n "content-desc"
              /\ resourceId x = escapedAttribute n "resource-id")).
Proof.
  assert (Hfree : Forall NewlineFree (jsonNodes (xmlToJSON sourceDoc))).
  { unfold xmlToJSON. destruct (filter isElement (childNodes sourceDoc)) as [|first rest].
    - repeat constructor. intros k v [].
    - apply translate_newline_free. }
  split; [exact Hfree | split; [|split; [|split]]].
  - intros domNode parentPath index k v H.
    rewrite translateRecursively_attributes in H.
    destruct (translateAttributes_from _ _ _ H) as (v0 & Hin & ->).
    exists v0. split; [|reflexivity]. now destruct domNode.
  - intros domNode parentPath index k Hnd.
    rewrite translateRecursively_attributes. now apply translateAttributes_get.
  - intros xpathSelect element isNative simple strategy value Hs Hin.
    destruct (simpleLocatorsLoop_inv xpathSelect _ _ _ _ _ _ Hs strategy value Hin)
      as [[]|(alias & Ha & Hg & _ & Hu)].
    now exists alias.
  - intros xpathSelect isNative automationName filters x Hx.
    destruct (filter isElement (childNodes sourceDoc)) as [|first rest] eqn:Ef.
    { now rewrite (no_element_no_result xpathSelect sourceDoc isNative automationName filters
                     Ef) in Hx. }
    assert (Hne : filter isElement (childNodes sourceDoc) <> []) by now rewrite Ef.
    apply reported_from in Hx as (e & locs & lg & He & _ & _ & ->).
    destruct (json_element_origin sourceDoc e Hne He) as (r & n & Hn & Ht & Ha).
    rewrite Forall_forall in Hfree. pose proof (Hfree e He) as Hnf.
    exists e, locs, r, n.
    cbn [transformElementWithLocators text contentDesc resourceId].
    repeat (split; [first [assumption | reflexivity | now apply get_newline_free]|]).
    intros Hnd. unfold escapedAttribute.
    rewrite Ha, !(translateAttributes_get n _ Hnd). repeat split.
Qed.

(** The description of two lines of the sample, in the JSON tree and in the
    summary. *)
Example two_line_description_is_escaped :
  map attributes (children (xmlToJSON Samples.twoMultiline))
    = [[("content-desc", "a\nb")]; [("content-desc", "a\nb")]]
  /\ Js.get "content-desc"
       (attributes (translateRecursively
                      (ElementNode "Button" [("content-desc", Samples.twoLines)] []) []
                      (Some 0)))
     = Some "a\nb"
  /\ map contentDesc
       (fst (generateAllElementLocators XPathEngine.select Samples.twoMultiline true
               "uiautomator2" noFilters))
     = ["a\nb"; "a\nb"].
Proof.
  destruct (json_attribute_values_are_escaped Samples.twoMultiline) as (_ & _ & Hget & _).
  split; [reflexivity | split; [|reflexivity]].
  rewrite (Hget (ElementNode "Button" [("content-desc", Samples.twoLines)] []) [] (Some 0)
             "content-desc"); [reflexivity|].
  repeat constructor. intros [].
Qed.


(** The check is made on the escaped value: two buttons share a description of
    two lines, the check looks for the escaped one, finds none, and accepts. *)
Example escaped_value_is_what_is_checked :
  map (fun e => Js.get "accessibility id" (locators e))
      (fst (generateAllElementLocators XPathEngine.select Samples.twoMultiline true
              "uiautomator2" noFilters))
  = [Some "a\nb"; Some "a\nb"]
  /\ XPathEngine.elementsWithAttr "content-desc" Samples.twoLines Samples.twoMultiline
     = [[0; 0]; [1; 0]]
  /\ XPathEngine.elementsWithAttr "content-desc" "a\nb" Samples.twoMultiline = [].
Proof. repeat split. Qed.
